(** * ContentTranslation: translation progress tracker and section alignment

    A shallow embedding of

    - [modules/mw.cx.TranslationTracker.js] (the tokeniser, the two progress
      metrics, the MT-abuse validator, the change and validation queues and
      the registry of nodes with issues), and
    - [keepAlignment] of [modules/translation/ext.cx.translation.js],

    followed by the properties the design document states about them.

    Conventions of the embedding.

    - A JavaScript string is the list of its UTF-16 code units; [null] is
      [None].
    - The numbers the tracker computes are quotients of two array
      lengths.  They are kept as exact rationals, with the two non-finite
      results of a division by zero ([Infinity], [NaN]) written out.  A
      double is the correctly rounded rational, so comparing such a quotient
      with the literals [0.8] and [0.6] agrees with the comparison of the
      rationals for every array shorter than 2^50 elements.  Where a
      quotient is multiplied by 100 the result depends on both roundings,
      and both are carried out ([Float64.round], [percentage]).
    - What jQuery's [.height()] returns is a number of pixels or, for a set
      without elements, [null] or [undefined]; comparisons and sums follow
      JavaScript's conversions ([Alignment.Value]).
    - A call that would raise a [TypeError] (a method call on [null] or
      [undefined]) returns [None].
    - Effects on the editor (issues added or resolved on a section node, the
      debounced validation being scheduled) are appended to an event list
      carried by the tracker. *)

From Stdlib Require Import QArith Qround Qpower Lqa Ascii String.
From Stdlib Require Import Sorting.Sorted Sorting.Permutation.
From Stdlib Require Import DecimalString.
From stdpp Require Import base list gmap option strings sorting.

Local Open Scope Z_scope.

(** ** JavaScript values *)

Module JS.

(** A UTF-16 code unit. *)
Definition char16 := N.

(** A string: [s.length] is [length s], [s === t] is [s = t]. *)
Definition jsstring := list char16.

(** A string literal of the source (ASCII only). *)
Definition lit (s : string) : jsstring :=
  N_of_ascii <$> list_ascii_of_string s.

(** [!s] for a value that is a string or [null]. *)
Definition falsy (s : option jsstring) : bool :=
  match s with
  | Some (_ :: _) => false
  | _ => true
  end.

(** A number: a rational, or what a division by zero gives. No negative
    number is ever computed, so there is no [-Infinity]. *)
Inductive number :=
| Num (q : Q)
| Infinity
| NaN.

(** [a.length / b.length]. *)
Definition div_length (a b : nat) : number :=
  match b, a with
  | O, O => NaN
  | O, S _ => Infinity
  | S _, _ => Num (Z.of_nat a # Pos.of_nat b)
  end.

(** [x > y]. *)
Definition num_gt (x y : number) : bool :=
  match x, y with
  | Num a, Num b => negb (Qle_bool a b)
  | Infinity, Num _ => true
  | _, _ => false
  end.

(** [x == y] on numbers: [NaN] equals nothing, itself included. *)
Definition num_eq (x y : number) : bool :=
  match x, y with
  | Num a, Num b => Qeq_bool a b
  | Infinity, Infinity => true
  | _, _ => false
  end.

(** [lo <= x && x <= hi] for finite bounds. *)
Definition between (lo hi : Q) (x : number) : bool :=
  match x with
  | Num q => Qle_bool lo q && Qle_bool q hi
  | _ => false
  end.

(** [array.indexOf( x )]: the first index holding [x], or [-1]. *)
Fixpoint indexOf {A} `{EqDecision A} (array : list A) (x : A) : Z :=
  match array with
  | [] => -1
  | y :: rest =>
      if decide (y = x) then 0
      else let i := indexOf rest x in if i <? 0 then -1 else i + 1
  end.

(** [array.filter( f )]. *)
Definition array_filter {A} (f : A -> bool) (array : list A) : list A :=
  List.filter f array.

(** [array.splice( index, 1 )], for an index inside the array. *)
Definition splice1 {A} (index : nat) (array : list A) : list A :=
  delete index array.

(** [array.push( x )]. *)
Definition push {A} (array : list A) (x : A) : list A := array ++ [x].

(** The characters [\s] matches: WhiteSpace and LineTerminator of
    ECMAScript. *)
Definition isWhiteSpace (c : char16) : bool :=
  let c := Z.of_N c in
  ((9 <=? c) && (c <=? 13)) || (c =? 32) || (c =? 160) || (c =? 5760)
  || ((8192 <=? c) && (c <=? 8202)) || (c =? 8232) || (c =? 8233)
  || (c =? 8239) || (c =? 8287) || (c =? 12288) || (c =? 65279).

(** [string.split( '' )]: one string per code unit. *)
Definition split_empty (s : jsstring) : list jsstring :=
  (fun c => [c]) <$> s.

(** The matches of [/\S+/g], scanning left to right: [run] is the match
    under construction. *)
Fixpoint scan_nonspace (run : jsstring) (s : jsstring) : list jsstring :=
  match s with
  | [] => match run with [] => [] | _ => [run] end
  | c :: rest =>
      if isWhiteSpace c
      then match run with [] => [] | _ => [run] end ++ scan_nonspace [] rest
      else scan_nonspace (run ++ [c]) rest
  end.

(** [string.match( /\S+/g )]: [null] when nothing matches. *)
Definition match_nonspace (s : jsstring) : option (list jsstring) :=
  match scan_nonspace [] s with
  | [] => None
  | matches => Some matches
  end.

(** [array.sort( comparefn )] as a stable insertion sort: each element is
    placed before the first element the comparator puts after it. Where the
    comparator orders the elements strictly, the sorted arrangement is
    unique and the choice of algorithm is immaterial. *)
Fixpoint sort_insert {A} (comparefn : A -> A -> Z) (x : A) (sorted : list A)
  : list A :=
  match sorted with
  | [] => [x]
  | y :: rest =>
      if 0 <? comparefn y x then x :: y :: rest
      else y :: sort_insert comparefn x rest
  end.

Definition sort {A} (comparefn : A -> A -> Z) (array : list A) : list A :=
  foldl (fun sorted x => sort_insert comparefn x sorted) [] array.

End JS.

Import JS.

(** ** Collaborators outside [mw.cx.TranslationTracker.js] *)

(** [$.uls.data] of jquery.uls: the script of a language and the scripts of
    the CJK group. *)
Class ULSData := {
  getScript : jsstring -> jsstring;
  scriptgroups_CJK : list jsstring
}.

(** The text of an HTML fragment ([null] included), as the DOM gives it. *)
Class DOM := {
  textOf : option jsstring -> option jsstring
}.

(** What the tracker reads from a node of the target document. A node that
    is not a [ve.dm.CXSectionNode] (a placeholder, after an undo) has none
    of the section methods. *)
Inductive TargetNode :=
| CXSectionNode (originalContentSource : option jsstring)
                (innerHTML : jsstring)
                (childNodeName : jsstring)
| OtherNode.

(** [veTarget.getTargetSectionNodeFromSectionNumber]; [None] is [null]. *)
Class VETarget := {
  getTargetSectionNodeFromSectionNumber : N -> option TargetNode
}.

(** What the tracker does to its collaborators, oldest first. Log lines are
    left out. *)
Inductive Event :=
| SetHasUserModifications (sectionNumber : N) (modified : bool)
| AddTranslationIssues (sectionNumber : N) (name : jsstring)
| ResolveTranslationIssues (sectionNumber : N) (name : jsstring)
| ValidationScheduled.

#[global] Instance Event_eq_dec : EqDecision Event.
Proof. solve_decision. Defined.

(** ** Section state *)

(** An [{html, text}] pair. *)
Record Content := {
  html : option jsstring;
  text : option jsstring
}.

(** Modelled from the spec: [mw.cx.dm.SectionState], whose file is not among
    the sources. The fields are those of the data model; a setter stores the
    HTML it is given and the text of that HTML; [isModified] is true when
    the user translation differs from the unmodified MT. *)
Record SectionState := {
  sectionNumber : N;
  source : Content;
  unmodifiedMT : Content;
  userTranslation : Content;
  currentProvider : option jsstring;
  unmodifiedPercentage : number;
  translationProgress : number
}.

#[global] Instance Content_eq_dec : EqDecision Content.
Proof. solve_decision. Defined.

Section SectionStateMethods.
Context {dom : DOM}.

Definition content_of (h : option jsstring) : Content :=
  {| html := h; text := textOf h |}.

Definition setCurrentMTProvider (s : SectionState) (p : option jsstring) :=
  {| sectionNumber := sectionNumber s; source := source s;
     unmodifiedMT := unmodifiedMT s; userTranslation := userTranslation s;
     currentProvider := p;
     unmodifiedPercentage := unmodifiedPercentage s;
     translationProgress := translationProgress s |}.

Definition setUserTranslation (s : SectionState) (h : option jsstring) :=
  {| sectionNumber := sectionNumber s; source := source s;
     unmodifiedMT := unmodifiedMT s; userTranslation := content_of h;
     currentProvider := currentProvider s;
     unmodifiedPercentage := unmodifiedPercentage s;
     translationProgress := translationProgress s |}.

Definition setUnmodifiedMT (s : SectionState) (h : option jsstring) :=
  {| sectionNumber := sectionNumber s; source := source s;
     unmodifiedMT := content_of h; userTranslation := userTranslation s;
     currentProvider := currentProvider s;
     unmodifiedPercentage := unmodifiedPercentage s;
     translationProgress := translationProgress s |}.

Definition setUnmodifiedPercentage (s : SectionState) (x : number) :=
  {| sectionNumber := sectionNumber s; source := source s;
     unmodifiedMT := unmodifiedMT s; userTranslation := userTranslation s;
     currentProvider := currentProvider s;
     unmodifiedPercentage := x;
     translationProgress := translationProgress s |}.

Definition setTranslationProgressPercentage (s : SectionState) (x : number) :=
  {| sectionNumber := sectionNumber s; source := source s;
     unmodifiedMT := unmodifiedMT s; userTranslation := userTranslation s;
     currentProvider := currentProvider s;
     unmodifiedPercentage := unmodifiedPercentage s;
     translationProgress := x |}.

Definition isModified (s : SectionState) : bool :=
  bool_decide (html (unmodifiedMT s) ≠ html (userTranslation s)).

End SectionStateMethods.

(** ** The registry of nodes with issues *)

(** An identifier of [nodesWithIssues]: a section number, or one of the
    special values ['title'] and ['global']. *)
Inductive NodeId :=
| section (n : N)
| title
| global.

#[global] Instance NodeId_eq_dec : EqDecision NodeId.
Proof. solve_decision. Defined.

(** The string a special identifier is. *)
Definition name_of (id : NodeId) : jsstring :=
  match id with
  | title => lit "title"
  | global => lit "global"
  | section _ => []
  end.

(** [isNaN( id )]: the two special strings do not convert to a number. *)
Definition isNaN (id : NodeId) : bool :=
  match id with
  | section _ => false
  | _ => true
  end.

(** [s > t] on strings: code unit by code unit. *)
Fixpoint string_gt (s t : jsstring) : bool :=
  match s, t with
  | [], _ => false
  | _ :: _, [] => true
  | c :: s', d :: t' => if (d <? c)%N then true
                        else if (c <? d)%N then false
                        else string_gt s' t'
  end.

(** [a > b] on identifiers: strings compare as strings, numbers as numbers,
    and a special string against a number converts to [NaN], which is
    greater than nothing. *)
Definition id_gt (a b : NodeId) : bool :=
  match a, b with
  | section m, section n => (n <? m)%N
  | section _, _ | _, section _ => false
  | _, _ => string_gt (name_of a) (name_of b)
  end.

(** ** The tracker *)

Record Tracker := {
  sourceLanguage : jsstring;
  targetLanguage : jsstring;
  lastFocusedSection : option N;
  nodesWithIssues : list NodeId;
  sections : gmap N SectionState;
  validationDelayQueue : list N;
  changeQueue : list N;
  saveQueue : list N;
  events : list Event
}.

(** A value 0.8 means we tolerate 80% unmodified machine translation. The
    constructor sets it and nothing assigns it afterwards. *)
Definition unmodifiedMTThreshold : number := Num (8 # 10).

(** A value 0.6 means we tolerate 60% unmodified text copied from the
    source paragraph. *)
Definition unmodifiedSourceThreshold : number := Num (6 # 10).

(** [new mw.cx.TranslationTracker( veTarget, config )]. *)
Definition MwCXTranslationTracker (sourceLanguage targetLanguage : jsstring)
  : Tracker :=
  {| sourceLanguage := sourceLanguage; targetLanguage := targetLanguage;
     lastFocusedSection := None; nodesWithIssues := []; sections := ∅;
     validationDelayQueue := []; changeQueue := []; saveQueue := [];
     events := [] |}.

Definition with_sections (t : Tracker) (m : gmap N SectionState) : Tracker :=
  {| sourceLanguage := sourceLanguage t; targetLanguage := targetLanguage t;
     lastFocusedSection := lastFocusedSection t;
     nodesWithIssues := nodesWithIssues t; sections := m;
     validationDelayQueue := validationDelayQueue t;
     changeQueue := changeQueue t; saveQueue := saveQueue t;
     events := events t |}.

Definition with_validationDelayQueue (t : Tracker) (q : list N) : Tracker :=
  {| sourceLanguage := sourceLanguage t; targetLanguage := targetLanguage t;
     lastFocusedSection := lastFocusedSection t;
     nodesWithIssues := nodesWithIssues t; sections := sections t;
     validationDelayQueue := q;
     changeQueue := changeQueue t; saveQueue := saveQueue t;
     events := events t |}.

Definition with_saveQueue (t : Tracker) (q : list N) : Tracker :=
  {| sourceLanguage := sourceLanguage t; targetLanguage := targetLanguage t;
     lastFocusedSection := lastFocusedSection t;
     nodesWithIssues := nodesWithIssues t; sections := sections t;
     validationDelayQueue := validationDelayQueue t;
     changeQueue := changeQueue t; saveQueue := q;
     events := events t |}.

Definition with_nodesWithIssues (t : Tracker) (l : list NodeId) : Tracker :=
  {| sourceLanguage := sourceLanguage t; targetLanguage := targetLanguage t;
     lastFocusedSection := lastFocusedSection t;
     nodesWithIssues := l; sections := sections t;
     validationDelayQueue := validationDelayQueue t;
     changeQueue := changeQueue t; saveQueue := saveQueue t;
     events := events t |}.

Definition emit (t : Tracker) (e : Event) : Tracker :=
  {| sourceLanguage := sourceLanguage t; targetLanguage := targetLanguage t;
     lastFocusedSection := lastFocusedSection t;
     nodesWithIssues := nodesWithIssues t; sections := sections t;
     validationDelayQueue := validationDelayQueue t;
     changeQueue := changeQueue t; saveQueue := saveQueue t;
     events := events t ++ [e] |}.

Section TrackerMethods.
Context {uls : ULSData} {dom : DOM} {ve : VETarget}.

(** *** Static methods *)

(** [tokenise( string, language )]. *)
Definition tokenise (string language : jsstring) : list jsstring :=
  if 0 <=? indexOf scriptgroups_CJK (getScript language)
  then split_empty string
  else default [] (match_nonspace string).

(** [calculateSectionTranslationProgress( string1, string2, language )].
    The last case of the [match] is the [!string1 || !string2] test. *)
Definition calculateSectionTranslationProgress
    (string1 string2 : option jsstring) (language : jsstring) : number :=
  if decide (string1 = string2) then Num 1
  else match string1, string2 with
       | Some ((_ :: _) as s1), Some ((_ :: _) as s2) =>
           let tokens1 := tokenise s1 language in
           let tokens2 := tokenise s2 language in
           div_length (length tokens2) (length tokens1)
       | _, _ => Num 0
       end.

(** [calculateUnmodifiedContent( string1, string2, language )]. The last
    case of the [match] is the [!string1 || !string2] test, which comes
    first in the source. *)
Definition calculateUnmodifiedContent
    (string1 string2 : option jsstring) (language : jsstring) : number :=
  match string1, string2 with
  | Some ((_ :: _) as s1), Some ((_ :: _) as s2) =>
      if decide (s1 = s2) then Num 1
      else
        let tokens1 := tokenise s1 language in
        let tokens2 := tokenise s2 language in
        let '(bigSet, smallSet) :=
          if (length tokens1 <? length tokens2)%nat
          then (tokens2, tokens1)
          else (tokens1, tokens2) in
        let unmodifiedTokens :=
          array_filter (fun token => 0 <=? indexOf smallSet token) bigSet in
        div_length (length unmodifiedTokens) (length bigSet)
  | _, _ => Num 0
  end.

(** *** Queues *)

Definition pushToValidationQueue (t : Tracker) (sectionNumber : N) : Tracker :=
  if indexOf (validationDelayQueue t) sectionNumber <? 0
  then with_validationDelayQueue t (push (validationDelayQueue t) sectionNumber)
  else t.

Definition removeSectionFromSaveQueue (t : Tracker) (sectionNumber : N)
  : Tracker :=
  let index := indexOf (saveQueue t) sectionNumber in
  if 0 <=? index
  then with_saveQueue t (splice1 (Z.to_nat index) (saveQueue t))
  else t.

Definition removeSectionFromValidationQueue (t : Tracker) (sectionNumber : N)
  : Tracker :=
  let index := indexOf (validationDelayQueue t) sectionNumber in
  if 0 <=? index
  then with_validationDelayQueue t
         (splice1 (Z.to_nat index) (validationDelayQueue t))
  else t.

(** [this.validationScheduler()]: the debounced [processValidationQueue]
    is (re)scheduled; it runs later, from the timer. *)
Definition validationScheduler (t : Tracker) : Tracker :=
  emit t ValidationScheduled.

(** *** Progress and validation *)

(** [updateSectionProgress( sectionNumber )]. *)
Definition updateSectionProgress (t : Tracker) (sectionNumber : N)
  : option Tracker :=
  sectionState ← sections t !! sectionNumber;
  let unmodifiedContent := unmodifiedMT sectionState in
  let userTranslation := userTranslation sectionState in
  let unmodifiedPercentage :=
    calculateUnmodifiedContent
      (text unmodifiedContent) (text userTranslation) (targetLanguage t) in
  let sectionState := setUnmodifiedPercentage sectionState unmodifiedPercentage in
  let progress :=
    calculateSectionTranslationProgress
      (text (source sectionState)) (text userTranslation) (targetLanguage t) in
  let sectionState := setTranslationProgressPercentage sectionState progress in
  Some (with_sections t (<[sectionNumber := sectionState]> (sections t))).

(** [getMTThresholdForSection( sectionState )]. *)
Definition getMTThresholdForSection (sectionState : SectionState) : number :=
  if decide (currentProvider sectionState = Some (lit "source"))
  then unmodifiedSourceThreshold
  else unmodifiedMTThreshold.

(** [validateForMTAbuse( sectionNumber )]. Tokenising a [null] source text
    raises. *)
Definition validateForMTAbuse (t : Tracker) (sectionNumber : N) : option bool :=
  sectionState ← sections t !! sectionNumber;
  sourceText ← text (source sectionState);
  let sourceTokens := tokenise sourceText (sourceLanguage t) in
  if (length sourceTokens <? 10)%nat then Some false
  else Some (num_gt (unmodifiedPercentage sectionState)
                    (getMTThresholdForSection sectionState)).

(** [setMTAbuseWarning( sectionModel )], for the node of [sectionNumber]. *)
Definition setMTAbuseWarning (t : Tracker) (sectionNumber : N)
    (sectionModel : option TargetNode) : option Tracker :=
  match sectionModel with
  | Some (CXSectionNode _ _ _) =>
      _ ← sections t !! sectionNumber;
      Some (emit t (AddTranslationIssues sectionNumber (lit "mt-abuse")))
  | _ => None
  end.

(** [clearMTAbuseWarning( sectionModel )]. *)
Definition clearMTAbuseWarning (t : Tracker) (sectionNumber : N)
    (sectionModel : option TargetNode) : Tracker :=
  match sectionModel with
  | Some (CXSectionNode _ _ _) =>
      emit t (ResolveTranslationIssues sectionNumber (lit "mt-abuse"))
  | _ => t
  end.

Definition excludedTypes : list jsstring :=
  [ lit "cxBlockImage"; lit "mwBlockImage";
    lit "cxTransclusionBlock"; lit "mwTransclusionBlock";
    lit "mwReferencesList";
    lit "mwTable"; lit "list"; lit "mwHeading" ].

(** [isExcludedFromValidation( sectionModel )]. *)
Definition isExcludedFromValidation (sectionModel : option TargetNode)
  : option bool :=
  match sectionModel with
  | Some (CXSectionNode _ _ childType) =>
      Some (0 <=? indexOf excludedTypes childType)
  | _ => None
  end.

(** One turn of the loop of [processValidationQueue], at index [i]. *)
Definition processValidationQueue_body (t : Tracker) (i : nat)
  : option Tracker :=
  sectionNumber ← validationDelayQueue t !! i;
  let sectionModel := getTargetSectionNodeFromSectionNumber sectionNumber in
  excluded ← isExcludedFromValidation sectionModel;
  t ← (if excluded : bool then Some t
       else
         abuse ← validateForMTAbuse t sectionNumber;
         if abuse : bool
         then setMTAbuseWarning t sectionNumber sectionModel
         else Some (clearMTAbuseWarning t sectionNumber sectionModel));
  Some (with_validationDelayQueue t (splice1 i (validationDelayQueue t))).

(** [while ( i-- ) { ... }]. *)
Fixpoint processValidationQueue_loop (i : nat) (t : Tracker) : option Tracker :=
  match i with
  | O => Some t
  | S i => t ← processValidationQueue_body t i;
           processValidationQueue_loop i t
  end.

(** [processValidationQueue()]. *)
Definition processValidationQueue (t : Tracker) : option Tracker :=
  processValidationQueue_loop (length (validationDelayQueue t)) t.

(** *** Section change handler *)

(** The comparison of the stored provider with the node's: the state after
    it, and [freshTranslation]. *)
Definition detectProviderChange (sectionState : SectionState)
    (newMTProvider : option jsstring) : SectionState * bool :=
  let currentMTProvider := currentProvider sectionState in
  if decide (currentMTProvider ≠ newMTProvider)
  then (setUserTranslation (setCurrentMTProvider sectionState newMTProvider) None,
        true)
  else (sectionState, false).

(** [processSectionChange( sectionNumber )]. *)
Definition processSectionChange (t : Tracker) (sectionNumber : N)
  : option Tracker :=
  match getTargetSectionNodeFromSectionNumber sectionNumber with
  | None => Some t
  | Some sectionModel =>
      sectionState ← sections t !! sectionNumber;
      match sectionModel with
      | OtherNode =>
          let sectionState := setCurrentMTProvider sectionState None in
          let sectionState := setUserTranslation sectionState (Some []) in
          let t := with_sections t (<[sectionNumber := sectionState]> (sections t)) in
          let t := removeSectionFromSaveQueue t sectionNumber in
          Some (removeSectionFromValidationQueue t sectionNumber)
      | CXSectionNode newMTProvider newContent _ =>
          let '(sectionState, freshTranslation) :=
            detectProviderChange sectionState newMTProvider in
          let existingContent := userTranslation sectionState in
          let unmodifiedMTContent := unmodifiedMT sectionState in
          let sectionState :=
            if falsy (html unmodifiedMTContent)
            then setUnmodifiedMT
                   (setCurrentMTProvider sectionState newMTProvider)
                   (Some newContent)
            else sectionState in
          let sectionState :=
            if decide (Some newContent ≠ html existingContent)
            then setUserTranslation sectionState (Some newContent)
            else sectionState in
          let t := with_sections t (<[sectionNumber := sectionState]> (sections t)) in
          let t := emit t (SetHasUserModifications sectionNumber
                             (isModified sectionState)) in
          t ← updateSectionProgress t sectionNumber;
          if freshTranslation
          then t ← processValidationQueue t;
               Some (pushToValidationQueue t sectionNumber)
          else Some (validationScheduler (pushToValidationQueue t sectionNumber))
      end
  end.

(** *** Nodes with issues *)

(** The comparator of [setTranslationIssues]. *)
Definition sortLettersAndNumbers (a b : NodeId) : Z :=
  if isNaN a && isNaN b then (if id_gt a b then 1 else -1)
  else if isNaN a then -1
  else if isNaN b then 1
  else if id_gt a b then 1 else -1.

(** [setTranslationIssues( id, state )]. *)
Definition setTranslationIssues (t : Tracker) (id : NodeId) (state : bool)
  : Tracker :=
  let index := indexOf (nodesWithIssues t) id in
  if negb (index =? -1)
  then (if negb state
        then with_nodesWithIssues t
               (splice1 (Z.to_nat index) (nodesWithIssues t))
        else t)
  else if negb state then t
  else
    let pushed := push (nodesWithIssues t) id in
    with_nodesWithIssues t (sort sortLettersAndNumbers pushed).

End TrackerMethods.

(** ** Section alignment: [keepAlignment] of [ext.cx.translation.js] *)

Module Alignment.

(** What [.height()] returns and what flows into [.css()]: a number of
    pixels, or, for a jQuery set without elements, [null] (before jQuery 3)
    or [undefined] (since); adding 10 to [undefined] gives [NaN]. *)
Inductive Value :=
| Px (h : Z)
| Null
| Undefined
| NotANumber.

(** [a < b]: [null] converts to 0, [undefined] to [NaN], and a comparison
    with [NaN] is false. *)
Definition lt (a b : Value) : bool :=
  match a, b with
  | Px x, Px y => x <? y
  | Px x, Null => x <? 0
  | Null, Px y => 0 <? y
  | _, _ => false
  end.

(** [a !== b]: values of different types differ, and [NaN] differs from
    itself. *)
Definition strict_neq (a b : Value) : bool :=
  match a, b with
  | Px x, Px y => negb (x =? y)
  | Null, Null => false
  | Undefined, Undefined => false
  | _, _ => true
  end.

(** [a + 10]. *)
Definition plus10 (a : Value) : Value :=
  match a with
  | Px x => Px (x + 10)
  | Null => Px 10
  | Undefined | NotANumber => NotANumber
  end.

(** The [min-height] style of the two jQuery sets of a pair; [None] is the
    unset style (['']). *)
Record Css := {
  sourceMinHeight : option Z;
  sectionMinHeight : option Z
}.

(** [.css( 'min-height', value )] on a style: a number becomes that many
    pixels; jQuery sets no style to [null], [undefined] or [NaN]. *)
Definition set_css (style : option Z) (value : Value) : option Z :=
  match value with
  | Px h => Some h
  | _ => style
  end.

(** What the browser renders for a pair: [$sourceSection.height()] and
    [$section.height()] under given styles. *)
Record Rendering := {
  sourceHeightOf : Css -> Value;
  sectionHeightOf : Css -> Value
}.

(** A pair of jQuery sets: how it renders and its current styles. *)
Record Pair := {
  rendering : Rendering;
  css : Css
}.

(** The translation section [keepAlignment] is called on ([this]), with its
    source section: the tag name, the pair itself and the pair of their
    [figcaption] descendants, which may be sets without elements. *)
Record TargetSection := {
  tagName : jsstring;
  elements : Pair;
  figcaptions : Pair
}.

(** Style writes and the tracking call, oldest first. *)
Inductive Effect :=
| ClearSourceMinHeight
| SetSourceMinHeight (value : Value)
| SetSectionMinHeight (value : Value)
| Track.

(** The local variables of [keepAlignment] inside the [while] loop, with
    the styles and the effects so far. *)
Record Loop := {
  sectionHeight : Value;
  sourceSectionHeight : Value;
  steps : Z;
  styles : Css;
  effects : list Effect
}.

(** The outcome of one evaluation of the loop condition. *)
Inductive Turn :=
| Continue (l : Loop)
| Exit (l : Loop).

(** [while ( sectionHeight !== sourceSectionHeight ) { ... }]: the test and,
    when it holds, one run of the body. [steps++ === 10] compares the value
    before the increment. *)
Definition while_turn (r : Rendering) (l : Loop) : Turn :=
  if strict_neq (sectionHeight l) (sourceSectionHeight l) then
    let sectionHeight := plus10 (sectionHeight l) in
    let styles :=
      {| sourceMinHeight := set_css (sourceMinHeight (styles l)) sectionHeight;
         sectionMinHeight := set_css (sectionMinHeight (styles l)) sectionHeight |} in
    let l' := {| sectionHeight := sectionHeightOf r styles;
                 sourceSectionHeight := sourceHeightOf r styles;
                 steps := steps l + 1;
                 styles := styles;
                 effects := effects l ++ [SetSourceMinHeight sectionHeight;
                                          SetSectionMinHeight sectionHeight] |} in
    if steps l =? 10
    then Exit {| sectionHeight := Alignment.sectionHeight l';
                 sourceSectionHeight := Alignment.sourceSectionHeight l';
                 steps := Alignment.steps l';
                 styles := Alignment.styles l';
                 effects := Alignment.effects l' ++ [Track] |}
    else Continue l'
  else Exit l.

(** The loop, run for at most [fuel] evaluations of its condition. *)
Fixpoint while_loop (fuel : nat) (r : Rendering) (l : Loop) : option Loop :=
  match fuel with
  | O => None
  | S fuel =>
      match while_turn r l with
      | Exit l' => Some l'
      | Continue l' => while_loop fuel r l'
      end
  end.

(** What a call leaves behind: the styles of the pair it measured, the
    effects, and how often the loop body ran. *)
Record Outcome := {
  final_css : Css;
  final_effects : list Effect;
  final_steps : Z
}.

(** [keepAlignment()]. [None] only when [fuel] is too small for the loop. *)
Definition keepAlignment (fuel : nat) (this : TargetSection) : option Outcome :=
  if decide (tagName this = lit "TABLE")
  then Some {| final_css := css (elements this); final_effects := [];
               final_steps := 0 |}
  else
    let pair := if decide (tagName this = lit "FIGURE")
                then figcaptions this else elements this in
    let r := rendering pair in
    let styles := {| sourceMinHeight := None;
                     sectionMinHeight := sectionMinHeight (css pair) |} in
    let effects := [ClearSourceMinHeight] in
    let sourceSectionHeight := sourceHeightOf r styles in
    let sectionHeight := sectionHeightOf r styles in
    if lt sourceSectionHeight sectionHeight then
      let styles :=
        {| sourceMinHeight := set_css (sourceMinHeight styles) sectionHeight;
           sectionMinHeight := sectionMinHeight styles |} in
      let effects := effects ++ [SetSourceMinHeight sectionHeight] in
      l ← while_loop fuel r
            {| sectionHeight := sectionHeightOf r styles;
               sourceSectionHeight := sourceHeightOf r styles;
               steps := 0; styles := styles; effects := effects |};
      Some {| final_css := Alignment.styles l;
              final_effects := Alignment.effects l;
              final_steps := steps l |}
    else if lt sectionHeight sourceSectionHeight then
      Some {| final_css :=
                {| sourceMinHeight := sourceMinHeight styles;
                   sectionMinHeight :=
                     set_css (sectionMinHeight styles) sourceSectionHeight |};
              final_effects := effects ++ [SetSectionMinHeight sourceSectionHeight];
              final_steps := 0 |}
    else
      Some {| final_css := styles; final_effects := effects; final_steps := 0 |}.

(** *** The loop in the words of its comment

    Here we do it by 10px steps till we reach equal height. *)

(** One step: both min-heights become the rendered height of the
    translation plus 10px. *)
Definition raise (r : Rendering) (c : Css) : Css :=
  {| sourceMinHeight :=
       set_css (sourceMinHeight c) (plus10 (sectionHeightOf r c));
     sectionMinHeight :=
       set_css (sectionMinHeight c) (plus10 (sectionHeightOf r c)) |}.

(** The styles after [k] steps. *)
Fixpoint raised (r : Rendering) (k : nat) (c : Css) : Css :=
  match k with
  | O => c
  | S k => raised r k (raise r c)
  end.

(** The style writes of [k] steps. *)
Fixpoint raises (r : Rendering) (k : nat) (c : Css) : list Effect :=
  match k with
  | O => []
  | S k => [SetSourceMinHeight (plus10 (sectionHeightOf r c));
            SetSectionMinHeight (plus10 (sectionHeightOf r c))]
           ++ raises r k (raise r c)
  end.

(** Source and translation render equally high. *)
Definition matched (r : Rendering) (c : Css) : Prop :=
  strict_neq (sectionHeightOf r c) (sourceHeightOf r c) = false.

(** *** Sample renderings *)

(** A browser in which an element is as high as its content, or as its
    [min-height] when that is more. *)
Definition ideal (sourceNatural sectionNatural : Z) : Rendering :=
  {| sourceHeightOf := fun c =>
       Px (Z.max sourceNatural (default 0 (sourceMinHeight c)));
     sectionHeightOf := fun c =>
       Px (Z.max sectionNatural (default 0 (sectionMinHeight c))) |}.

(** A browser that ignores [min-height]: the source stays at 50px, the
    translation at 60px. *)
Definition stubborn : Rendering :=
  {| sourceHeightOf := fun _ => Px 50; sectionHeightOf := fun _ => Px 60 |}.

(** Two jQuery sets without elements: [.height()] gives [empty], which is
    [Null] or [Undefined] with the version of jQuery. *)
Definition absent (empty : Value) : Rendering :=
  {| sourceHeightOf := fun _ => empty; sectionHeightOf := fun _ => empty |}.

(** A browser that adds 3px to a source [min-height] below 80px ("a few
    pixels difference"); the source is 50px high by itself, the translation
    60px. *)
Definition quirky : Rendering :=
  {| sourceHeightOf := fun c =>
       match sourceMinHeight c with
       | None => Px 50
       | Some m => Px (if m <? 80 then m + 3 else m)
       end;
     sectionHeightOf := fun c =>
       Px (Z.max 60 (default 0 (sectionMinHeight c))) |}.

Definition unset : Css := {| sourceMinHeight := None; sectionMinHeight := None |}.

(** A paragraph whose pair renders as [r]. *)
Definition paragraph (r : Rendering) : TargetSection :=
  {| tagName := lit "P";
     elements := {| rendering := r; css := unset |};
     figcaptions := {| rendering := absent Undefined; css := unset |} |}.

(** A figure that renders as [r] and whose captions render as
    [captions]. *)
Definition figure (r captions : Rendering) : TargetSection :=
  {| tagName := lit "FIGURE";
     elements := {| rendering := r; css := unset |};
     figcaptions := {| rendering := captions; css := unset |} |}.

End Alignment.

(** ** Sample collaborators

    Instances of the outside interfaces, small enough to evaluate. *)

Module Sample.

(** Chinese, Japanese and Korean are written in scripts of the CJK group,
    every other language in Latin script. *)
#[export] Instance uls : ULSData := {|
  getScript language :=
    if decide (language = lit "zh") then lit "Hans"
    else if decide (language = lit "ja") then lit "Jpan"
    else if decide (language = lit "ko") then lit "Kore"
    else lit "Latn";
  scriptgroups_CJK := [ lit "Hans"; lit "Hant"; lit "Kana"; lit "Kore";
                        lit "Jpan"; lit "Yiii" ]
|}.

(** Sections of plain text: the text of an HTML fragment is the fragment. *)
#[export] Instance dom : DOM := {| textOf h := h |}.

(** A sentence of ten words and one of eight. *)
Definition ten_words : jsstring := lit "a b c d e f g h i j".
Definition eight_words : jsstring := lit "a b c d e f g h".

(** A section state with the given source text, provider and unmodified
    percentage. *)
Definition state (n : N) (sourceText : jsstring) (provider : option jsstring)
    (percentage : number) : SectionState :=
  {| sectionNumber := n;
     source := {| html := Some sourceText; text := Some sourceText |};
     unmodifiedMT := {| html := Some sourceText; text := Some sourceText |};
     userTranslation := {| html := Some sourceText; text := Some sourceText |};
     currentProvider := provider;
     unmodifiedPercentage := percentage;
     translationProgress := Num 1 |}.

(** A tracker from English to Spanish holding the given section states. *)
Definition tracker (states : list SectionState) (queue : list N) : Tracker :=
  with_validationDelayQueue
    (with_sections (MwCXTranslationTracker (lit "en") (lit "es"))
       (list_to_map ((fun s => (sectionNumber s, s)) <$> states)))
    queue.

(** A target document in which section 5 is a paragraph the MT engine
    Yandex produced, section 6 a paragraph Google produced, and no other
    section has a node. *)
#[export] Instance target : VETarget := {|
  getTargetSectionNodeFromSectionNumber n :=
    if decide (n = 5%N)
    then Some (CXSectionNode (Some (lit "Yandex")) ten_words (lit "paragraph"))
    else if decide (n = 6%N)
    then Some (CXSectionNode (Some (lit "Google")) ten_words (lit "paragraph"))
    else None
|}.

End Sample.

(** ** The unmodified ratio in the words of the design document *)

(** How many tokens of [tokens] occur anywhere in [others]. *)
Definition common (tokens others : list jsstring) : nat :=
  length (array_filter (fun token => bool_decide (token ∈ others)) tokens).

(** The ratio the design document describes for two different non-empty
    strings: the larger token list is the reference, and the tokens of the
    smaller list that occur in the larger one are counted. *)
Definition documented_unmodifiedRatio (tokens1 tokens2 : list jsstring) : number :=
  if (length tokens1 <? length tokens2)%nat
  then div_length (common tokens1 tokens2) (length tokens2)
  else div_length (common tokens2 tokens1) (length tokens1).

(** ** The order the design document gives the nodes with issues *)

(** ['global'] comes before ['title'], both come before every section
    number, and section numbers ascend. *)
Definition precedes (a b : NodeId) : Prop :=
  match a, b with
  | global, title => True
  | global, section _ => True
  | title, section _ => True
  | section m, section n => (m < n)%N
  | _, _ => False
  end.

(** An array in that order; the order being strict, it has no duplicates. *)
Definition ordered (nodes : list NodeId) : Prop :=
  StronglySorted precedes nodes.

(** What an algorithm that decides from the comparator's answers alone can
    do with an array of two elements: [swaps] is the algorithm, given the
    answers for the pair as it stands and for the pair reversed. *)
Definition sort_pair {A} (swaps : Z -> Z -> bool) (comparefn : A -> A -> Z)
    (x y : A) : list A :=
  if swaps (comparefn x y) (comparefn y x) then [y; x] else [x; y].

(** ** Vocabulary for the validation queue *)

(** An event of the MT-abuse check of section [m]: the warning is raised or
    it is cleared. *)
Definition mtAbuseEvent (m : N) (e : Event) : Prop :=
  e = AddTranslationIssues m (lit "mt-abuse")
  \/ e = ResolveTranslationIssues m (lit "mt-abuse").

(** Section [m] can be validated: the target has a section node for it and
    the tracker a section state whose source has a text. *)
Definition validatable {ve : VETarget} (t : Tracker) (m : N) : Prop :=
  (exists origin content child,
      getTargetSectionNodeFromSectionNumber m
      = Some (CXSectionNode origin content child))
  /\ (exists sectionState sourceText,
         sections t !! m = Some sectionState
         /\ text (source sectionState) = Some sourceText).

(** ** Further methods of the tracker *)

Definition with_changeQueue (t : Tracker) (q : list N) : Tracker :=
  {| sourceLanguage := sourceLanguage t; targetLanguage := targetLanguage t;
     lastFocusedSection := lastFocusedSection t;
     nodesWithIssues := nodesWithIssues t; sections := sections t;
     validationDelayQueue := validationDelayQueue t;
     changeQueue := q; saveQueue := saveQueue t;
     events := events t |}.

Definition with_lastFocusedSection (t : Tracker) (f : option N) : Tracker :=
  {| sourceLanguage := sourceLanguage t; targetLanguage := targetLanguage t;
     lastFocusedSection := f;
     nodesWithIssues := nodesWithIssues t; sections := sections t;
     validationDelayQueue := validationDelayQueue t;
     changeQueue := changeQueue t; saveQueue := saveQueue t;
     events := events t |}.

(** ** Double-precision arithmetic *)

Module Float64.

(** [2^e] as a rational. *)
Definition pow2 (e : Z) : Q := (2 ^ e)%Q.

(** The integer nearest to a rational, the even one of two that are equally
    near. *)
Definition nearest_even (s : Q) : Z :=
  let f := Qfloor s in
  match (s - inject_Z f ?= 1 # 2)%Q with
  | Lt => f
  | Gt => f + 1
  | Eq => if Z.even f then f else f + 1
  end.

(** The exponent of the last place of a positive rational [q]: the [e] with
    [2^52 <= q / 2^e < 2^53]. *)
Definition exponent (q : Q) : Z :=
  let e := Z.log2 (Qnum q) - Z.log2 (Z.pos (Qden q)) - 52 in
  if Qle_bool (pow2 (e + 52)) q then e else e - 1.

(** The double nearest to a positive rational: a significand of 53 bits,
    rounded to nearest, ties to even. Quotients and percentages of lengths
    lie far inside the range of the normal doubles, so the exponent is not
    bounded here. *)
Definition round_pos (q : Q) : Q :=
  (inject_Z (nearest_even (q / pow2 (exponent q))) * pow2 (exponent q))%Q.

(** The double nearest to a rational. *)
Definition round (q : Q) : Q :=
  match Qnum q with
  | Z0 => 0%Q
  | Z.pos _ => round_pos q
  | Z.neg _ => (- round_pos (- q))%Q
  end.

End Float64.

(** [a.length / b.length * 100], as the machine computes it: the quotient
    is rounded to a double, and so is its product with 100. A quotient that
    is [Infinity] or [NaN] stays what it is. *)
Definition percentage (a b : nat) : number :=
  match div_length a b with
  | Num q => Num (Float64.round (Float64.round q * 100))
  | other => other
  end.

(** The [cxSection] children of the article of
    [veTarget.translation.targetDoc], by their [getId()]. *)
Class TargetDocument := {
  targetSections : list N
}.

(** What [getTranslationProgress] returns. *)
Record Progress := {
  any : number;
  human : number;
  mt : number;
  mtSectionsCount : nat;
  translatedSectionsCount : nat
}.

(** The three counters of [getTranslationProgress]. *)
Record Counters := {
  sectionsWithAnyTranslation : nat;
  sectionsWithUserTranslation : nat;
  sectionsWithUnmodifiedContent : nat
}.

(** The keys of [this.sections] in the order [for ... in] visits integer
    keys: ascending. *)
Definition sectionNumbers (m : gmap N SectionState) : list N :=
  merge_sort N.le (map_to_list m).*1.

Section MoreTrackerMethods.
Context {uls : ULSData} {dom : DOM} {ve : VETarget} {doc : TargetDocument}.

(** [isSectionInChangeQueue( sectionNumber )]. *)
Definition isSectionInChangeQueue (t : Tracker) (sectionNumber : N) : bool :=
  0 <=? indexOf (changeQueue t) sectionNumber.

(** [pushToChangeQueue( sectionNumber )]. *)
Definition pushToChangeQueue (t : Tracker) (sectionNumber : N) : Tracker :=
  if negb (isSectionInChangeQueue t sectionNumber)
  then with_changeQueue t (push (changeQueue t) sectionNumber)
  else t.

(** [isSectionInSaveQueue( sectionNumber )]. *)
Definition isSectionInSaveQueue (t : Tracker) (sectionNumber : N) : bool :=
  0 <=? indexOf (saveQueue t) sectionNumber.

(** [pushToSaveQueue( sectionNumber )]. *)
Definition pushToSaveQueue (t : Tracker) (sectionNumber : N) : Tracker :=
  if negb (isSectionInSaveQueue t sectionNumber)
  then with_saveQueue t (push (saveQueue t) sectionNumber)
  else t.

(** One turn of the loop of [processChangeQueue], at index [i]. *)
Definition processChangeQueue_body (t : Tracker) (i : nat) : option Tracker :=
  sectionNumber ← changeQueue t !! i;
  t ← processSectionChange t sectionNumber;
  Some (with_changeQueue t (splice1 i (changeQueue t))).

Fixpoint processChangeQueue_loop (i : nat) (t : Tracker) : option Tracker :=
  match i with
  | O => Some t
  | S i => t ← processChangeQueue_body t i;
           processChangeQueue_loop i t
  end.

(** [processChangeQueue()]. *)
Definition processChangeQueue (t : Tracker) : option Tracker :=
  processChangeQueue_loop (length (changeQueue t)) t.

(** [onSectionFocus( focusedSectionNumber )]. *)
Definition onSectionFocus (t : Tracker) (focusedSectionNumber : N)
  : option Tracker :=
  t ← (if decide (lastFocusedSection t ≠ Some focusedSectionNumber)
       then processValidationQueue t
       else Some t);
  Some (with_lastFocusedSection t (Some focusedSectionNumber)).

(** [adjustSectionStateForSourceTranslations( sectionIds )], for an array
    argument: the [forEach] stops at the first section without a state. *)
Fixpoint adjustSectionStateForSourceTranslations (t : Tracker)
    (sectionIds : list N) : option Tracker :=
  match sectionIds with
  | [] => Some t
  | sectionId :: rest =>
      sectionState ← sections t !! sectionId;
      let sectionState := setCurrentMTProvider sectionState (Some (lit "source")) in
      let sectionState :=
        setUnmodifiedMT sectionState (html (source sectionState)) in
      adjustSectionStateForSourceTranslations
        (with_sections t (<[sectionId := sectionState]> (sections t))) rest
  end.

(** The body of the [for ... in] loop of [getTranslationProgress]. *)
Definition getTranslationProgress_body (t : Tracker) (c : Counters)
    (sectionNumber : N) : option (Tracker * Counters) :=
  t ← processChangeQueue t;
  t ← updateSectionProgress t sectionNumber;
  sectionState ← sections t !! sectionNumber;
  if decide (text (userTranslation sectionState) = Some []) then Some (t, c)
  else if negb (falsy (text (unmodifiedMT sectionState)))
          || negb (falsy (text (userTranslation sectionState)))
  then
    let c := {| sectionsWithAnyTranslation := S (sectionsWithAnyTranslation c);
                sectionsWithUserTranslation := sectionsWithUserTranslation c;
                sectionsWithUnmodifiedContent := sectionsWithUnmodifiedContent c |} in
    if negb (isModified sectionState)
    then Some (t, {| sectionsWithAnyTranslation := sectionsWithAnyTranslation c;
                     sectionsWithUserTranslation := sectionsWithUserTranslation c;
                     sectionsWithUnmodifiedContent :=
                       S (sectionsWithUnmodifiedContent c) |})
    else if negb (falsy (text (userTranslation sectionState)))
    then Some (t, {| sectionsWithAnyTranslation := sectionsWithAnyTranslation c;
                     sectionsWithUserTranslation :=
                       S (sectionsWithUserTranslation c);
                     sectionsWithUnmodifiedContent :=
                       sectionsWithUnmodifiedContent c |})
    else Some (t, c)
  else Some (t, c).

Fixpoint getTranslationProgress_loop (t : Tracker) (c : Counters)
    (keys : list N) : option (Tracker * Counters) :=
  match keys with
  | [] => Some (t, c)
  | sectionNumber :: rest =>
      '(t, c) ← getTranslationProgress_body t c sectionNumber;
      getTranslationProgress_loop t c rest
  end.

(** [getTranslationProgress()]: the map of weights, and the tracker as the
    call leaves it. *)
Definition getTranslationProgress (t : Tracker) : option (Progress * Tracker) :=
  let totalSourceSections := length (sectionNumbers (sections t)) in
  '(t, c) ← getTranslationProgress_loop t
              {| sectionsWithAnyTranslation := 0;
                 sectionsWithUserTranslation := 0;
                 sectionsWithUnmodifiedContent := 0 |}
              (sectionNumbers (sections t));
  Some ({| any := div_length (sectionsWithAnyTranslation c) totalSourceSections;
           human := div_length (sectionsWithUserTranslation c) totalSourceSections;
           mt := div_length (sectionsWithUnmodifiedContent c) totalSourceSections;
           mtSectionsCount := sectionsWithUnmodifiedContent c;
           translatedSectionsCount :=
             sectionsWithUnmodifiedContent c + sectionsWithUserTranslation c |},
        t).

(** The [forEach] of [getUnmodifiedMTPercentageInTranslation]: the pair
    [(unmodifiedTokens, totalTokens)]. Tokenising a [null] text raises. *)
Fixpoint countUnmodifiedTokens (t : Tracker) (targetSections : list N)
    (unmodifiedTokens totalTokens : nat) : option (nat * nat) :=
  match targetSections with
  | [] => Some (unmodifiedTokens, totalTokens)
  | sectionId :: rest =>
      sectionState ← sections t !! sectionId;
      mtText ← text (unmodifiedMT sectionState);
      userText ← text (userTranslation sectionState);
      let unmodifiedMTTokens := tokenise mtText (targetLanguage t) in
      let userTranslationTokens := tokenise userText (targetLanguage t) in
      countUnmodifiedTokens t rest
        (unmodifiedTokens
         + length (array_filter
                     (fun token => 0 <=? indexOf unmodifiedMTTokens token)
                     userTranslationTokens))
        (totalTokens + length userTranslationTokens)
  end.

(** [getUnmodifiedMTPercentageInTranslation()]. *)
Definition getUnmodifiedMTPercentageInTranslation (t : Tracker) : option number :=
  '(unmodifiedTokens, totalTokens) ← countUnmodifiedTokens t targetSections 0 0;
  Some (percentage unmodifiedTokens totalTokens).

End MoreTrackerMethods.

(** ** The earlier variant of the tracker

    The second copy of [mw.cx.TranslationTracker.js]: one threshold for every
    provider, no exclusion by node type, and a change handler that validates
    a changed section at once. Its static methods and
    [updateSectionProgress] are those of the current variant. *)

Module Legacy.

(** A value 0.75 means, we tolerate 75% unmodified machine translation. *)
Definition unmodifiedMTThreshold : number := Num (75 # 100).

(** The comparator of the earlier [setTranslationIssues]. It has no case for
    two special strings, and for two numbers it returns the boolean [a > b],
    which [sort] converts to 1 or 0. *)
Definition sortLettersAndNumbers (a b : NodeId) : Z :=
  if isNaN a then -1
  else if isNaN b then 1
  else if id_gt a b then 1 else 0.

(** [setTranslationIssues( id, state )]. *)
Definition setTranslationIssues (t : Tracker) (id : NodeId) (state : bool)
  : Tracker :=
  let index := indexOf (nodesWithIssues t) id in
  if negb (index =? -1)
  then (if negb state
        then with_nodesWithIssues t
               (splice1 (Z.to_nat index) (nodesWithIssues t))
        else t)
  else if negb state then t
  else
    let pushed := push (nodesWithIssues t) id in
    with_nodesWithIssues t (sort sortLettersAndNumbers pushed).

Section Methods.
Context {uls : ULSData} {dom : DOM} {ve : VETarget}.

(** [validateForMTAbuse( sectionNumber )]. *)
Definition validateForMTAbuse (t : Tracker) (sectionNumber : N) : option bool :=
  sectionState ← sections t !! sectionNumber;
  sourceText ← text (source sectionState);
  let sourceTokens := tokenise sourceText (sourceLanguage t) in
  if (length sourceTokens <? 10)%nat then Some false
  else Some (num_gt (unmodifiedPercentage sectionState) unmodifiedMTThreshold).

(** [clearMTAbuseWarning( sectionModel )]: no test of the node. *)
Definition clearMTAbuseWarning (t : Tracker) (sectionNumber : N)
    (sectionModel : option TargetNode) : option Tracker :=
  match sectionModel with
  | Some (CXSectionNode _ _ _) =>
      Some (emit t (ResolveTranslationIssues sectionNumber (lit "mt-abuse")))
  | _ => None
  end.

(** The validation of one section, as the change handler and the queue do
    it. *)
Definition validate (t : Tracker) (sectionNumber : N)
    (sectionModel : option TargetNode) : option Tracker :=
  abuse ← validateForMTAbuse t sectionNumber;
  if abuse : bool
  then setMTAbuseWarning t sectionNumber sectionModel
  else clearMTAbuseWarning t sectionNumber sectionModel.

Definition processValidationQueue_body (t : Tracker) (i : nat) : option Tracker :=
  sectionNumber ← validationDelayQueue t !! i;
  let sectionModel := getTargetSectionNodeFromSectionNumber sectionNumber in
  t ← validate t sectionNumber sectionModel;
  Some (with_validationDelayQueue t (splice1 i (validationDelayQueue t))).

Fixpoint processValidationQueue_loop (i : nat) (t : Tracker) : option Tracker :=
  match i with
  | O => Some t
  | S i => t ← processValidationQueue_body t i;
           processValidationQueue_loop i t
  end.

(** [processValidationQueue()]. *)
Definition processValidationQueue (t : Tracker) : option Tracker :=
  processValidationQueue_loop (length (validationDelayQueue t)) t.

(** [processSectionChange( sectionNumber )]. *)
Definition processSectionChange (t : Tracker) (sectionNumber : N)
  : option Tracker :=
  match getTargetSectionNodeFromSectionNumber sectionNumber with
  | None => Some t
  | Some sectionModel =>
      sectionState ← sections t !! sectionNumber;
      match sectionModel with
      | OtherNode => None
      | CXSectionNode newMTProvider newContent _ =>
          let '(sectionState, freshTranslation) :=
            detectProviderChange sectionState newMTProvider in
          let existingContent := userTranslation sectionState in
          let unmodifiedMTContent := unmodifiedMT sectionState in
          let sectionState :=
            if falsy (html unmodifiedMTContent)
            then setUnmodifiedMT
                   (setCurrentMTProvider sectionState newMTProvider)
                   (Some newContent)
            else sectionState in
          if decide (Some newContent ≠ html existingContent) then
            let sectionState := setUserTranslation sectionState (Some newContent) in
            let t := with_sections t (<[sectionNumber := sectionState]> (sections t)) in
            t ← updateSectionProgress t sectionNumber;
            if freshTranslation
            then t ← processValidationQueue t;
                 Some (with_validationDelayQueue t
                         (push (validationDelayQueue t) sectionNumber))
            else t ← validate t sectionNumber (Some sectionModel);
                 processValidationQueue t
          else
            Some (with_sections t (<[sectionNumber := sectionState]> (sections t)))
      end
  end.

End Methods.

End Legacy.

(** ** The translation column: [ext.cx.translation.js] *)

Module TranslationColumn.

(** [calculateCompletion()]: the value fired on [mw.cx.progress], from the
    lengths of the HTML of the translation and of the source column. *)
Definition calculateCompletion (translationLength sourceLength : nat) : number :=
  let completeness := percentage translationLength sourceLength in
  if num_gt completeness (Num 100) then Num 100 else completeness.

(** The characters the regular expression of [jquerySelectorForId] matches:
    [:], [/], [.], [[] and []]. *)
Definition isSelectorSpecial (c : char16) : bool :=
  let c := Z.of_N c in
  (c =? 58) || (c =? 47) || (c =? 46) || (c =? 91) || (c =? 93).

(** [id.replace( /(:|\/|\.|\[|\])/g, '\\$1' )]. *)
Fixpoint escapeSelector (id : jsstring) : jsstring :=
  match id with
  | [] => []
  | c :: rest =>
      if isSelectorSpecial c then 92%N :: c :: escapeSelector rest
      else c :: escapeSelector rest
  end.

(** ['#' + prefix], for a prefix that may be [undefined]. *)
Definition hash_plus (prefix : option jsstring) : jsstring :=
  lit "#" ++ default (lit "undefined") prefix.

(** The decimal digits of a positive integer. *)
Definition decimal (n : N) : jsstring :=
  lit (NilEmpty.string_of_uint (N.to_uint n)).

(** [jquerySelectorForId( id, prefix )]. [random] is
    [Math.floor( Math.random() * 1000000 ) + 1], and [accepted] tells whether
    jQuery takes a string as a selector without raising. *)
Definition jquerySelectorForId (random : N) (accepted : jsstring -> bool)
    (id prefix : option jsstring) : jsstring :=
  let randomId := hash_plus prefix ++ decimal random in
  let prefix := if falsy prefix then [] else default [] prefix in
  let selector :=
    if falsy id then randomId
    else lit "#" ++ prefix ++ escapeSelector (default [] id) in
  if accepted selector then selector else randomId.

End TranslationColumn.

(** ** Vocabulary for the validation flush *)

(** What validating section [m] reports to the editor: nothing for a node
    of an excluded type, else the warning or its resolution. *)
Definition reportOf {uls : ULSData} {ve : VETarget} (t : Tracker) (m : N)
  : list Event :=
  match getTargetSectionNodeFromSectionNumber m with
  | Some (CXSectionNode _ _ childType) =>
      if 0 <=? indexOf excludedTypes childType then []
      else match validateForMTAbuse t m with
           | Some true => [AddTranslationIssues m (lit "mt-abuse")]
           | Some false => [ResolveTranslationIssues m (lit "mt-abuse")]
           | None => []
           end
  | _ => []
  end.

(** Section [m] can be checked without an exception: it has a section node,
    and either the node's type is excluded or the tracker has a state for
    the section whose source has a text. *)
Definition checkable {ve : VETarget} (t : Tracker) (m : N) : Prop :=
  exists origin content childType,
    getTargetSectionNodeFromSectionNumber m
    = Some (CXSectionNode origin content childType)
    /\ ((0 <=? indexOf excludedTypes childType) = true
        \/ exists sectionState sourceText,
             sections t !! m = Some sectionState
             /\ text (source sectionState) = Some sourceText).

(** ** A second sample document *)

Module Fixture.

(** The words a translator typed. *)
Definition edited_words : jsstring := lit "k l m n o p q r s t".

(** A target document in which section 1 is a heading, section 2 a table,
    section 3 a placeholder again, and section 5 a paragraph translated with
    Google and since rewritten. *)
#[export] Instance target : VETarget := {|
  getTargetSectionNodeFromSectionNumber n :=
    if decide (n = 1%N)
    then Some (CXSectionNode (Some (lit "Google")) (lit "Title") (lit "mwHeading"))
    else if decide (n = 2%N)
    then Some (CXSectionNode (Some (lit "Google")) Sample.ten_words (lit "mwTable"))
    else if decide (n = 3%N) then Some OtherNode
    else if decide (n = 5%N)
    then Some (CXSectionNode (Some (lit "Google")) edited_words (lit "paragraph"))
    else None
|}.

(** A section state with the given text as its unmodified MT and the given
    text as its user translation. *)
Definition state (n : N) (mtText userText : jsstring) : SectionState :=
  {| sectionNumber := n;
     source := {| html := Some mtText; text := Some mtText |};
     unmodifiedMT := {| html := Some mtText; text := Some mtText |};
     userTranslation := {| html := Some userText; text := Some userText |};
     currentProvider := Some (lit "Google");
     unmodifiedPercentage := Num 1;
     translationProgress := Num 1 |}.

(** The article has the sections 5 and 6. *)
#[export] Instance doc : TargetDocument := {| targetSections := [5%N; 6%N] |}.

End Fixture.

(** ** Vocabulary for the aggregate progress *)

(** A section state counts as translated when its user translation is not
    the empty text and its unmodified MT or its user translation has a text
    that is not empty. *)
Definition translated (st : SectionState) : bool :=
  negb (bool_decide (text (userTranslation st) = Some []))
  && (negb (falsy (text (unmodifiedMT st)))
      || negb (falsy (text (userTranslation st)))).

(** Translated, and the user translation is the unmodified MT. *)
Definition translatedUnmodified (st : SectionState) : bool :=
  translated st
  && bool_decide (html (unmodifiedMT st) = html (userTranslation st)).

(** Translated, the user translation differs from the unmodified MT and has
    a text that is not empty. *)
Definition translatedByUser (st : SectionState) : bool :=
  translated st
  && bool_decide (html (unmodifiedMT st) ≠ html (userTranslation st))
  && negb (falsy (text (userTranslation st))).

(** The section states of a tracker, in no particular order. *)
Definition states_of (m : gmap N SectionState) : list SectionState :=
  (map_to_list m).*2.

(** The two stored translations of a section state. *)
Definition texts (st : SectionState) : Content * Content :=
  (unmodifiedMT st, userTranslation st).

(** ** What a call leaves alone *)

(** [t'] has the languages, the focused section, the nodes with issues and
    the change queue of [t]. *)
Definition same_setting (t t' : Tracker) : Prop :=
  sourceLanguage t' = sourceLanguage t
  /\ targetLanguage t' = targetLanguage t
  /\ lastFocusedSection t' = lastFocusedSection t
  /\ nodesWithIssues t' = nodesWithIssues t
  /\ changeQueue t' = changeQueue t.

(** The derived fields of a section state agree with its texts. *)
Definition derived_fresh {uls : ULSData} (language : jsstring)
    (sectionState : SectionState) : Prop :=
  unmodifiedPercentage sectionState
  = calculateUnmodifiedContent (text (unmodifiedMT sectionState))
      (text (userTranslation sectionState)) language
  /\ translationProgress sectionState
     = calculateSectionTranslationProgress (text (source sectionState))
         (text (userTranslation sectionState)) language.

(** * Properties *)

(** ** Arrays and numbers *)

Lemma indexOf_lower {A} `{EqDecision A} (array : list A) (x : A) :
  -1 <= indexOf array x.
Proof.
  induction array as [|y rest IH]; simpl; [lia|].
  destruct (decide (y = x)); [lia|].
  destruct (Z.ltb_spec (indexOf rest x) 0); lia.
Qed.

Lemma indexOf_found {A} `{EqDecision A} (array : list A) (x : A) :
  0 <= indexOf array x <-> x ∈ array.
Proof.
  induction array as [|y rest IH]; simpl.
  - split; [lia | intros Hin; inversion Hin].
  - destruct (decide (y = x)) as [->|Hne].
    + split; [intros _; left | lia].
    + pose proof (indexOf_lower rest x).
      destruct (Z.ltb_spec (indexOf rest x) 0) as [Hlt|Hge].
      * split; [lia|]. intros Hin. apply elem_of_cons in Hin as [->|Hin]; [done|].
        apply IH in Hin. lia.
      * split; [|lia]. intros _. right. apply IH. lia.
Qed.

Lemma indexOf_missing {A} `{EqDecision A} (array : list A) (x : A) :
  indexOf array x = -1 <-> x ∉ array.
Proof.
  pose proof (indexOf_lower array x). rewrite <- indexOf_found. lia.
Qed.

Lemma indexOf_lookup {A} `{EqDecision A} (array : list A) (x : A) :
  0 <= indexOf array x -> array !! Z.to_nat (indexOf array x) = Some x.
Proof.
  induction array as [|y rest IH]; simpl; [lia|].
  destruct (decide (y = x)) as [->|Hne]; [done|].
  destruct (Z.ltb_spec (indexOf rest x) 0) as [Hlt|Hge]; [lia|].
  intros _. rewrite Z2Nat.inj_add by lia.
  replace (Z.to_nat (indexOf rest x) + Z.to_nat 1)%nat
    with (S (Z.to_nat (indexOf rest x))) by lia.
  simpl. apply IH. lia.
Qed.

Lemma array_filter_length {A} (f : A -> bool) (array : list A) :
  (length (array_filter f array) <= length array)%nat.
Proof. apply List.filter_length_le. Qed.

Lemma div_length_unit (a b : nat) :
  (a <= b)%nat -> (0 < b)%nat -> between 0 1 (div_length a b) = true.
Proof.
  intros Hab Hb. destruct b as [|b]; [lia|]. simpl.
  apply andb_true_intro. split; apply Qle_bool_iff; unfold Qle; simpl; lia.
Qed.

Lemma div_length_finite (a b : nat) :
  (0 < b)%nat -> div_length a b = Num (Z.of_nat a # Pos.of_nat b).
Proof. destruct b; [lia | done]. Qed.

Lemma num_eq_refl (q : Q) : num_eq (Num q) (Num q) = true.
Proof. apply Qeq_bool_iff. reflexivity. Qed.

(** ** The tokeniser *)

Lemma scan_nonspace_run (t run s : jsstring) :
  forallb (fun c => negb (isWhiteSpace c)) t = true ->
  scan_nonspace run (t ++ s) = scan_nonspace (run ++ t) s.
Proof.
  revert run. induction t as [|c t IH]; intros run Ht; simpl.
  - by rewrite app_nil_r.
  - simpl in Ht. apply andb_prop in Ht as [Hc Ht].
    apply negb_true_iff in Hc. rewrite Hc, IH by done.
    by rewrite <- app_assoc.
Qed.

Lemma scan_nonspace_flush (run s : jsstring) :
  run ≠ [] ->
  s = [] \/ (exists c s', s = c :: s' /\ isWhiteSpace c = true) ->
  scan_nonspace run s = run :: scan_nonspace [] s.
Proof.
  intros Hrun [->|(c & s' & -> & Hc)]; simpl.
  - by destruct run.
  - rewrite Hc. by destruct run.
Qed.

Lemma scan_nonspace_blank (s : jsstring) :
  forallb isWhiteSpace s = true -> scan_nonspace [] s = [].
Proof.
  induction s as [|c s IH]; simpl; [done|].
  intros Hs. apply andb_prop in Hs as [Hc Hs]. rewrite Hc. simpl. auto.
Qed.

Lemma match_nonspace_default (s : jsstring) :
  default [] (match_nonspace s) = scan_nonspace [] s.
Proof. unfold match_nonspace. by destruct (scan_nonspace [] s). Qed.

Section TokeniserFacts.
Context {uls : ULSData}.

Lemma tokenise_CJK (s language : jsstring) :
  getScript language ∈ scriptgroups_CJK ->
  tokenise s language = split_empty s.
Proof.
  intros HCJK. unfold tokenise. apply indexOf_found in HCJK.
  by destruct (Z.leb_spec 0 (indexOf scriptgroups_CJK (getScript language)));
    [|lia].
Qed.

Lemma tokenise_words (s language : jsstring) :
  getScript language ∉ scriptgroups_CJK ->
  tokenise s language = scan_nonspace [] s.
Proof.
  intros HCJK. unfold tokenise. apply indexOf_missing in HCJK.
  rewrite HCJK. simpl. apply match_nonspace_default.
Qed.

End TokeniserFacts.

Lemma scan_nonspace_tokens (run s : jsstring) :
  forallb (fun c => negb (isWhiteSpace c)) run = true ->
  Forall (fun t => t ≠ [] /\ forallb (fun c => negb (isWhiteSpace c)) t = true)
         (scan_nonspace run s).
Proof.
  revert run. induction s as [|c s IH]; intros run Hrun; simpl.
  - destruct run; [constructor|]. by repeat constructor.
  - destruct (isWhiteSpace c) eqn:Hc.
    + apply Forall_app. split; [|by apply IH].
      destruct run; [constructor|]. by repeat constructor.
    + apply IH. rewrite forallb_app, Hrun. simpl. by rewrite Hc.
Qed.

(** C7, as stated, fails: the claim has every whitespace-only input yield an
    empty sequence, but for a language of the CJK group a string of two
    spaces is split into two tokens. *)
Lemma tokenise_blank_CJK_counterexample :
  (getScript (ULSData := Sample.uls) (lit "zh")
     ∈ scriptgroups_CJK (ULSData := Sample.uls))
  /\ forallb isWhiteSpace (lit "  ") = true
  /\ tokenise (uls := Sample.uls) (lit "  ") (lit "zh") = [lit " "; lit " "]
  /\ tokenise (uls := Sample.uls) (lit "  ") (lit "zh") ≠ [].
Proof.
  split; [|split; [|split]].
  - apply indexOf_found. by vm_compute.
  - reflexivity.
  - reflexivity.
  - discriminate.
Qed.

(** C7 (amended): [tokenise] is a total function. For a language whose
    script is in the CJK group it returns one token per code unit of the
    string, so a string of length N yields N tokens (whitespace included).
    For every other language it returns the maximal runs of non-whitespace
    characters: leading whitespace is skipped, a non-empty whitespace-free
    run that ends the string or is followed by whitespace is one token, and
    every token is non-empty and free of whitespace; whitespace-only input
    yields the empty sequence. Empty input yields the empty sequence for
    every language. *)
Theorem tokenise_spec {uls : ULSData} (language : jsstring) :
  (getScript language ∈ scriptgroups_CJK ->
     forall s, tokenise s language = (fun c => [c]) <$> s
               /\ length (tokenise s language) = length s)
  /\ (getScript language ∉ scriptgroups_CJK ->
        (forall c s, isWhiteSpace c = true ->
                     tokenise (c :: s) language = tokenise s language)
        /\ (forall run s,
               run ≠ [] ->
               forallb (fun c => negb (isWhiteSpace c)) run = true ->
               s = [] \/ (exists c s', s = c :: s' /\ isWhiteSpace c = true) ->
               tokenise (run ++ s) language = run :: tokenise s language)
        /\ (forall s, Forall (fun t => t ≠ []
                        /\ forallb (fun c => negb (isWhiteSpace c)) t = true)
                        (tokenise s language))
        /\ (forall s, forallb isWhiteSpace s = true -> tokenise s language = []))
  /\ tokenise [] language = [].
Proof.
  split; [|split].
  - intros HCJK s. rewrite tokenise_CJK by done. unfold split_empty.
    split; [done | apply length_fmap].
  - intros Hother. repeat split.
    + intros c s Hc. rewrite !tokenise_words by done. simpl. by rewrite Hc.
    + intros run s Hne Hrun Hs. rewrite !tokenise_words by done.
      rewrite scan_nonspace_run by done. simpl.
      by apply scan_nonspace_flush.
    + intros s. rewrite tokenise_words by done. by apply scan_nonspace_tokens.
    + intros s Hs. rewrite tokenise_words by done. by apply scan_nonspace_blank.
  - unfold tokenise. by destruct (0 <=? _).
Qed.

Lemma tokenise_spec_witness :
  ((getScript (ULSData := Sample.uls) (lit "zh")
      ∈ scriptgroups_CJK (ULSData := Sample.uls))
   /\ length (tokenise (uls := Sample.uls) (lit "ab c") (lit "zh")) = 4%nat)
  /\ ((getScript (ULSData := Sample.uls) (lit "en")
         ∉ scriptgroups_CJK (ULSData := Sample.uls))
      /\ tokenise (uls := Sample.uls) (lit "ab c") (lit "en")
         = lit "ab" :: tokenise (uls := Sample.uls) (lit " c") (lit "en")
      /\ tokenise (uls := Sample.uls) (lit "  ") (lit "en") = []).
Proof.
  assert (Hzh : getScript (ULSData := Sample.uls) (lit "zh")
                  ∈ scriptgroups_CJK (ULSData := Sample.uls))
    by (apply indexOf_found; vm_compute; discriminate).
  assert (Hen : getScript (ULSData := Sample.uls) (lit "en")
                  ∉ scriptgroups_CJK (ULSData := Sample.uls))
    by (apply indexOf_missing; reflexivity).
  split; (split; [assumption|]).
  - exact (proj2 (proj1 (tokenise_spec (uls := Sample.uls) (lit "zh")) Hzh
                    (lit "ab c"))).
  - destruct (proj1 (proj2 (tokenise_spec (uls := Sample.uls) (lit "en"))) Hen)
      as (_ & Hrun & _ & Hblank).
    split.
    + apply (Hrun (lit "ab") (lit " c")); [discriminate | reflexivity |].
      right. by exists 32%N, (lit "c").
    + by apply Hblank.
Defined.

(** ** The progress calculator *)

Lemma array_filter_indexOf (tokens others : list jsstring) :
  length (array_filter (fun token => 0 <=? indexOf others token) tokens)
  = common tokens others.
Proof.
  unfold common, array_filter. f_equal. apply List.filter_ext. intros token.
  destruct (Z.leb_spec 0 (indexOf others token)) as [Hin|Hout].
  - symmetry. apply bool_decide_eq_true. by apply indexOf_found.
  - symmetry. apply bool_decide_eq_false. rewrite <- indexOf_found. lia.
Qed.

Lemma common_le (tokens others : list jsstring) :
  (common tokens others <= length tokens)%nat.
Proof. apply array_filter_length. Qed.

Section CalculatorFacts.
Context {uls : ULSData}.

(** The value of [calculateUnmodifiedContent] on two different non-empty
    strings. *)
Lemma calculateUnmodifiedContent_tokens (s1 s2 language : jsstring) :
  s1 ≠ [] -> s2 ≠ [] -> s1 ≠ s2 ->
  calculateUnmodifiedContent (Some s1) (Some s2) language
  = if (length (tokenise s1 language) <? length (tokenise s2 language))%nat
    then div_length (common (tokenise s2 language) (tokenise s1 language))
                    (length (tokenise s2 language))
    else div_length (common (tokenise s1 language) (tokenise s2 language))
                    (length (tokenise s1 language)).
Proof.
  intros H1 H2 Hne. unfold calculateUnmodifiedContent.
  destruct s1 as [|c1 s1]; [done|]. destruct s2 as [|c2 s2]; [done|].
  case_decide; [done|].
  destruct (_ <? _)%nat; simpl; by rewrite array_filter_indexOf.
Qed.

Lemma calculateUnmodifiedContent_empty (s1 s2 language : jsstring) :
  s1 = [] \/ s2 = [] ->
  calculateUnmodifiedContent (Some s1) (Some s2) language = Num 0.
Proof.
  unfold calculateUnmodifiedContent.
  intros [-> | ->]; [done | by destruct s1].
Qed.

Lemma calculateUnmodifiedContent_same (s language : jsstring) :
  s ≠ [] -> calculateUnmodifiedContent (Some s) (Some s) language = Num 1.
Proof.
  intros Hne. unfold calculateUnmodifiedContent.
  destruct s; [done|]. by case_decide.
Qed.

(** C2, as stated, fails twice. The code counts the tokens of the larger
    list that occur in the smaller one, not the tokens of the smaller list
    that occur in the larger one: for "a a a" against "a b" it returns 3/3
    where the documented ratio is 1/3. And two different whitespace-only
    strings have no tokens at all, so the quotient is 0/0, which is not a
    number of [0,1]. *)
Lemma calculateUnmodifiedContent_counterexample :
  calculateUnmodifiedContent (uls := Sample.uls)
    (Some (lit "a a a")) (Some (lit "a b")) (lit "en") = Num (3 # 3)
  /\ documented_unmodifiedRatio
       (tokenise (uls := Sample.uls) (lit "a a a") (lit "en"))
       (tokenise (uls := Sample.uls) (lit "a b") (lit "en")) = Num (1 # 3)
  /\ num_eq (Num (3 # 3)) (Num (1 # 3)) = false
  /\ calculateUnmodifiedContent (uls := Sample.uls)
       (Some (lit " ")) (Some (lit "  ")) (lit "en") = NaN
  /\ between 0 1 NaN = false.
Proof. repeat split; reflexivity. Qed.

(** C2 (amended): [calculateUnmodifiedContent] returns 0 if either string is
    empty and 1 if the two non-empty strings are identical; otherwise it is
    the number of tokens of the larger token list (the first one, when both
    have the same size) that also occur anywhere in the smaller one, divided
    by the size of the larger list. The result lies in [0,1] whenever a
    string is empty, the strings are identical, or one of them has a
    token. *)
Theorem calculateUnmodifiedContent_spec (s1 s2 language : jsstring) :
  (s1 = [] \/ s2 = [] ->
     calculateUnmodifiedContent (Some s1) (Some s2) language = Num 0)
  /\ (s1 ≠ [] -> s1 = s2 ->
        calculateUnmodifiedContent (Some s1) (Some s2) language = Num 1)
  /\ (s1 ≠ [] -> s2 ≠ [] -> s1 ≠ s2 ->
        calculateUnmodifiedContent (Some s1) (Some s2) language
        = if (length (tokenise s1 language) <? length (tokenise s2 language))%nat
          then div_length (common (tokenise s2 language) (tokenise s1 language))
                          (length (tokenise s2 language))
          else div_length (common (tokenise s1 language) (tokenise s2 language))
                          (length (tokenise s1 language)))
  /\ (s1 = [] \/ s2 = [] \/ s1 = s2
      \/ tokenise s1 language ≠ [] \/ tokenise s2 language ≠ [] ->
        between 0 1 (calculateUnmodifiedContent (Some s1) (Some s2) language)
        = true).
Proof.
  pose proof (calculateUnmodifiedContent_empty s1 s2 language) as Hempty.
  assert (Hsame : s1 ≠ [] -> s1 = s2 ->
            calculateUnmodifiedContent (Some s1) (Some s2) language = Num 1).
  { intros Hne <-. by apply calculateUnmodifiedContent_same. }
  repeat split; try assumption.
  - apply calculateUnmodifiedContent_tokens.
  - intros Hcase.
    destruct (decide (s1 = [])) as [E1|N1]; [rewrite Hempty by auto; reflexivity|].
    destruct (decide (s2 = [])) as [E2|N2]; [rewrite Hempty by auto; reflexivity|].
    destruct (decide (s1 = s2)) as [E|N]; [rewrite Hsame by auto; reflexivity|].
    destruct Hcase as [?|[?|[?|Htok]]]; try done.
    rewrite calculateUnmodifiedContent_tokens by done.
    destruct (Nat.ltb_spec (length (tokenise s1 language))
                           (length (tokenise s2 language))) as [Hlt|Hge].
    + apply div_length_unit; [apply common_le | lia].
    + apply div_length_unit; [apply common_le|].
      destruct Htok as [Ht|Ht].
      * destruct (tokenise s1 language); [done | simpl; lia].
      * destruct (tokenise s2 language); [done | simpl in *; lia].
Qed.

End CalculatorFacts.

Lemma calculateUnmodifiedContent_spec_witness :
  calculateUnmodifiedContent (uls := Sample.uls)
    (Some (lit "The cat sat")) (Some (lit "The cat sat on the mat")) (lit "en")
  = div_length 3 6
  /\ between 0 1 (calculateUnmodifiedContent (uls := Sample.uls)
       (Some (lit "The cat sat")) (Some (lit "The cat sat on the mat"))
       (lit "en")) = true
  /\ calculateUnmodifiedContent (uls := Sample.uls)
       (Some []) (Some (lit "a")) (lit "en") = Num 0
  /\ calculateUnmodifiedContent (uls := Sample.uls)
       (Some (lit "a")) (Some (lit "a")) (lit "en") = Num 1.
Proof.
  destruct (calculateUnmodifiedContent_spec (uls := Sample.uls)
              (lit "The cat sat") (lit "The cat sat on the mat") (lit "en"))
    as (_ & _ & Hratio & Hunit).
  split; [|split; [|split]].
  - rewrite Hratio; [reflexivity | discriminate | discriminate | discriminate].
  - apply Hunit. right; right; right; left. intros E. vm_compute in E. discriminate E.
  - exact (proj1 (calculateUnmodifiedContent_spec (uls := Sample.uls)
                    [] (lit "a") (lit "en")) (or_introl eq_refl)).
  - refine (proj1 (proj2 (calculateUnmodifiedContent_spec (uls := Sample.uls)
                            (lit "a") (lit "a") (lit "en"))) _ eq_refl).
    discriminate.
Defined.

(** C3, as stated, fails: when both strings have the same number of tokens
    the first argument stays the reference list, so swapping the arguments
    swaps the roles. "a a" against "a b" gives 2/2 (both tokens of "a a"
    occur in "a b"), and "a b" against "a a" gives 1/2. *)
Lemma calculateUnmodifiedContent_swap_counterexample :
  calculateUnmodifiedContent (uls := Sample.uls)
    (Some (lit "a a")) (Some (lit "a b")) (lit "en") = Num (2 # 2)
  /\ calculateUnmodifiedContent (uls := Sample.uls)
       (Some (lit "a b")) (Some (lit "a a")) (lit "en") = Num (1 # 2)
  /\ num_eq
       (calculateUnmodifiedContent (uls := Sample.uls)
          (Some (lit "a a")) (Some (lit "a b")) (lit "en"))
       (calculateUnmodifiedContent (uls := Sample.uls)
          (Some (lit "a b")) (Some (lit "a a")) (lit "en")) = false.
Proof. repeat split; reflexivity. Qed.

(** C3 (amended): swapping the two arguments of [calculateUnmodifiedContent]
    yields the same ratio whenever one of the strings is empty, the strings
    are identical, or the two strings have different numbers of tokens. *)
Theorem calculateUnmodifiedContent_swap {uls : ULSData}
    (s1 s2 language : jsstring) :
  s1 = [] \/ s2 = [] \/ s1 = s2
  \/ length (tokenise s1 language) ≠ length (tokenise s2 language) ->
  calculateUnmodifiedContent (Some s1) (Some s2) language
  = calculateUnmodifiedContent (Some s2) (Some s1) language
  /\ num_eq (calculateUnmodifiedContent (Some s1) (Some s2) language)
            (calculateUnmodifiedContent (Some s2) (Some s1) language) = true.
Proof.
  intros Hcase.
  destruct (decide (s1 = [])) as [E1|N1];
    [rewrite !calculateUnmodifiedContent_empty by auto; split; reflexivity|].
  destruct (decide (s2 = [])) as [E2|N2];
    [rewrite !calculateUnmodifiedContent_empty by auto; split; reflexivity|].
  destruct (decide (s1 = s2)) as [<-|N];
    [rewrite !calculateUnmodifiedContent_same by done; split; reflexivity|].
  destruct Hcase as [?|[?|[?|Hlen]]]; try done.
  rewrite (calculateUnmodifiedContent_tokens s1 s2) by done.
  rewrite (calculateUnmodifiedContent_tokens s2 s1) by done.
  destruct (Nat.ltb_spec (length (tokenise s1 language))
                         (length (tokenise s2 language))) as [Hlt|Hge];
    destruct (Nat.ltb_spec (length (tokenise s2 language))
                           (length (tokenise s1 language))) as [Hlt'|Hge'];
    try lia.
  - split; [done|]. rewrite div_length_finite by lia. apply num_eq_refl.
  - split; [done|]. rewrite div_length_finite by lia. apply num_eq_refl.
Qed.

Lemma calculateUnmodifiedContent_swap_witness :
  calculateUnmodifiedContent (uls := Sample.uls)
    (Some (lit "The cat sat")) (Some (lit "The cat sat on the mat")) (lit "en")
  = calculateUnmodifiedContent (uls := Sample.uls)
      (Some (lit "The cat sat on the mat")) (Some (lit "The cat sat")) (lit "en").
Proof.
  refine (proj1 (calculateUnmodifiedContent_swap (uls := Sample.uls)
                   (lit "The cat sat") (lit "The cat sat on the mat")
                   (lit "en") _)).
  right; right; right. vm_compute. lia.
Defined.

(** C4: [calculateSectionTranslationProgress] returns 1 if the strings are
    identical; else 0 if either string is empty; otherwise the number of
    tokens of the second string (the current content) divided by the number
    of tokens of the first (the source): the fraction of the two counts when
    the source has a token, and what JavaScript gives a division by zero
    when it has none (Infinity, or NaN for zero by zero). The quotient is
    returned as it is: it exceeds 1 as soon as the current content has more
    tokens than a source that has some. In particular the progress of any
    string against itself is 1. *)
Theorem calculateSectionTranslationProgress_spec {uls : ULSData}
    (s1 s2 language : jsstring) :
  (s1 = s2 ->
     calculateSectionTranslationProgress (Some s1) (Some s2) language = Num 1)
  /\ (s1 ≠ s2 -> s1 = [] \/ s2 = [] ->
        calculateSectionTranslationProgress (Some s1) (Some s2) language = Num 0)
  /\ (s1 ≠ s2 -> s1 ≠ [] -> s2 ≠ [] ->
      let sourceCount := length (tokenise s1 language) in
      let currentCount := length (tokenise s2 language) in
      ((0 < sourceCount)%nat ->
         calculateSectionTranslationProgress (Some s1) (Some s2) language
         = Num (Z.of_nat currentCount # Pos.of_nat sourceCount))
      /\ (sourceCount = 0%nat -> (0 < currentCount)%nat ->
            calculateSectionTranslationProgress (Some s1) (Some s2) language
            = Infinity)
      /\ (sourceCount = 0%nat -> currentCount = 0%nat ->
            calculateSectionTranslationProgress (Some s1) (Some s2) language
            = NaN))
  /\ (s1 ≠ s2 -> s1 ≠ [] -> s2 ≠ [] ->
      (length (tokenise s1 language) < length (tokenise s2 language))%nat ->
        num_gt (calculateSectionTranslationProgress (Some s1) (Some s2) language)
               (Num 1) = true)
  /\ calculateSectionTranslationProgress (Some s1) (Some s1) language = Num 1.
Proof.
  assert (Hquot : s1 ≠ s2 -> s1 ≠ [] -> s2 ≠ [] ->
            calculateSectionTranslationProgress (Some s1) (Some s2) language
            = div_length (length (tokenise s2 language))
                         (length (tokenise s1 language))).
  { intros Hne N1 N2. unfold calculateSectionTranslationProgress.
    case_decide; [congruence|].
    destruct s1; [done|]. by destruct s2. }
  split; [|split; [|split; [|split]]].
  - intros ->. unfold calculateSectionTranslationProgress. by case_decide.
  - intros Hne Hempty. unfold calculateSectionTranslationProgress.
    case_decide; [congruence|].
    destruct Hempty as [-> | ->]; [done | by destruct s1].
  - intros Hne N1 N2. cbv zeta. rewrite Hquot by done.
    destruct (length (tokenise s1 language)) as [|n],
             (length (tokenise s2 language)) as [|m];
      (split; [|split]); intros; first [lia | done].
  - intros Hne N1 N2 Hlt. rewrite Hquot by done.
    destruct (length (tokenise s1 language)) as [|n] eqn:E1.
    + destruct (length (tokenise s2 language)); [lia | done].
    + simpl. apply negb_true_iff.
      destruct (Qle_bool _ _) eqn:Hle; [|done].
      apply Qle_bool_iff in Hle. unfold Qle in Hle. simpl in Hle. lia.
  - unfold calculateSectionTranslationProgress. by case_decide.
Qed.

Lemma calculateSectionTranslationProgress_spec_witness :
  calculateSectionTranslationProgress (uls := Sample.uls)
    (Some (lit "a b")) (Some (lit "a b c")) (lit "en") = Num (3 # 2)
  /\ num_gt (calculateSectionTranslationProgress (uls := Sample.uls)
               (Some (lit "a b")) (Some (lit "a b c")) (lit "en")) (Num 1) = true
  /\ calculateSectionTranslationProgress (uls := Sample.uls)
       (Some (lit "a b")) (Some []) (lit "en") = Num 0
  /\ calculateSectionTranslationProgress (uls := Sample.uls)
       (Some (lit "a b")) (Some (lit "a b")) (lit "en") = Num 1.
Proof.
  pose proof (calculateSectionTranslationProgress_spec (uls := Sample.uls)
                (lit "a b") (lit "a b c") (lit "en"))
    as (_ & _ & Hquot & Hover & _).
  split; [|split; [|split]].
  - refine (eq_trans
              (proj1 (Hquot _ _ _) _) _);
      [discriminate | discriminate | discriminate | vm_compute; lia
      | reflexivity].
  - apply Hover; [discriminate | discriminate | discriminate |].
    vm_compute. lia.
  - refine (proj1 (proj2 (calculateSectionTranslationProgress_spec
                            (uls := Sample.uls) (lit "a b") [] (lit "en")))
              _ (or_intror eq_refl)).
    discriminate.
  - exact (proj1 (calculateSectionTranslationProgress_spec
                    (uls := Sample.uls) (lit "a b") (lit "a b") (lit "en"))
             eq_refl).
Defined.

(** C10: on two empty strings [calculateSectionTranslationProgress] returns
    1, its test for identical strings coming first, and
    [calculateUnmodifiedContent] returns 0, its test for an empty string
    coming first: the two metrics disagree there. *)
Theorem empty_strings_disagree {uls : ULSData} (language : jsstring) :
  calculateSectionTranslationProgress (Some []) (Some []) language = Num 1
  /\ calculateUnmodifiedContent (Some []) (Some []) language = Num 0
  /\ num_eq (calculateSectionTranslationProgress (Some []) (Some []) language)
            (calculateUnmodifiedContent (Some []) (Some []) language) = false.
Proof. repeat split; reflexivity. Qed.

(** ** The MT-abuse validator *)

Lemma validateForMTAbuse_unfold {uls : ULSData} (t : Tracker) (n : N)
    (sectionState : SectionState) (sourceText : jsstring) :
  sections t !! n = Some sectionState ->
  text (source sectionState) = Some sourceText ->
  validateForMTAbuse t n
  = if (length (tokenise sourceText (sourceLanguage t)) <? 10)%nat
    then Some false
    else Some (num_gt (unmodifiedPercentage sectionState)
                      (getMTThresholdForSection sectionState)).
Proof.
  intros Hstate Htext. unfold validateForMTAbuse.
  rewrite Hstate. simpl. rewrite Htext. reflexivity.
Qed.

(** C1, as stated, fails: the check does not flag every section whose
    unmodified percentage exceeds its threshold. A section copied from a
    source of eight words, unmodified at 0.95, exceeds the threshold 0.6 and
    is not flagged, its source being shorter than ten tokens. *)
Lemma validateForMTAbuse_short_counterexample :
  let sectionState :=
    Sample.state 7 Sample.eight_words (Some (lit "source")) (Num (95 # 100)) in
  num_gt (unmodifiedPercentage sectionState)
         (getMTThresholdForSection sectionState) = true
  /\ validateForMTAbuse (uls := Sample.uls)
       (Sample.tracker [sectionState] []) 7 = Some false.
Proof. split; reflexivity. Qed.

(** C1 (amended): for every section state whose source text has at least ten
    tokens in the source language, the MT-abuse check flags the section
    exactly when its unmodified percentage exceeds a threshold that depends
    on the provider: 0.6 when [currentProvider] is the literal 'source', 0.8
    for any other provider. In particular such a section at 0.65 is flagged
    under provider 'source' and not flagged under any other provider. *)
Theorem validateForMTAbuse_threshold {uls : ULSData} (t : Tracker) (n : N)
    (sectionState : SectionState) (sourceText : jsstring) :
  sections t !! n = Some sectionState ->
  text (source sectionState) = Some sourceText ->
  (10 <= length (tokenise sourceText (sourceLanguage t)))%nat ->
  validateForMTAbuse t n
  = Some (num_gt (unmodifiedPercentage sectionState)
                 (if decide (currentProvider sectionState = Some (lit "source"))
                  then Num (6 # 10) else Num (8 # 10)))
  /\ (unmodifiedPercentage sectionState = Num (65 # 100) ->
      validateForMTAbuse t n
      = Some (bool_decide (currentProvider sectionState = Some (lit "source")))).
Proof.
  intros Hstate Htext Hlen.
  rewrite (validateForMTAbuse_unfold t n sectionState sourceText) by done.
  destruct (Nat.ltb_spec (length (tokenise sourceText (sourceLanguage t))) 10);
    [lia|].
  unfold getMTThresholdForSection, unmodifiedSourceThreshold,
    unmodifiedMTThreshold.
  split; [done|]. intros ->.
  case_decide.
  - by rewrite bool_decide_eq_true_2.
  - by rewrite bool_decide_eq_false_2.
Qed.

Lemma validateForMTAbuse_threshold_witness :
  validateForMTAbuse (uls := Sample.uls)
    (Sample.tracker
       [Sample.state 5 Sample.ten_words (Some (lit "source")) (Num (65 # 100))]
       []) 5 = Some true
  /\ validateForMTAbuse (uls := Sample.uls)
       (Sample.tracker
          [Sample.state 5 Sample.ten_words (Some (lit "Google")) (Num (65 # 100))]
          []) 5 = Some false.
Proof.
  assert (Hlen : (10 <= length (tokenise (uls := Sample.uls) Sample.ten_words
                                  (lit "en")))%nat) by (vm_compute; lia).
  split.
  - exact (proj2 (validateForMTAbuse_threshold (uls := Sample.uls)
                    (Sample.tracker
                       [Sample.state 5 Sample.ten_words (Some (lit "source"))
                          (Num (65 # 100))] [])
                    5
                    (Sample.state 5 Sample.ten_words (Some (lit "source"))
                       (Num (65 # 100)))
                    Sample.ten_words eq_refl eq_refl Hlen) eq_refl).
  - exact (proj2 (validateForMTAbuse_threshold (uls := Sample.uls)
                    (Sample.tracker
                       [Sample.state 5 Sample.ten_words (Some (lit "Google"))
                          (Num (65 # 100))] [])
                    5
                    (Sample.state 5 Sample.ten_words (Some (lit "Google"))
                       (Num (65 # 100)))
                    Sample.ten_words eq_refl eq_refl Hlen) eq_refl).
Defined.

(** C5: for every section whose source text has fewer than ten tokens in the
    source language, [validateForMTAbuse] returns false, whatever its
    unmodified percentage and its provider. *)
Theorem validateForMTAbuse_short {uls : ULSData} (t : Tracker) (n : N)
    (sectionState : SectionState) (sourceText : jsstring) :
  sections t !! n = Some sectionState ->
  text (source sectionState) = Some sourceText ->
  (length (tokenise sourceText (sourceLanguage t)) < 10)%nat ->
  validateForMTAbuse t n = Some false.
Proof.
  intros Hstate Htext Hlen.
  rewrite (validateForMTAbuse_unfold t n sectionState sourceText) by done.
  by destruct (Nat.ltb_spec (length (tokenise sourceText (sourceLanguage t))) 10);
    [|lia].
Qed.

Lemma validateForMTAbuse_short_witness :
  validateForMTAbuse (uls := Sample.uls)
    (Sample.tracker
       [Sample.state 7 Sample.eight_words (Some (lit "Google")) (Num (95 # 100))]
       []) 7 = Some false.
Proof.
  apply (validateForMTAbuse_short (uls := Sample.uls) _ 7
           (Sample.state 7 Sample.eight_words (Some (lit "Google"))
              (Num (95 # 100)))
           Sample.eight_words).
  - reflexivity.
  - reflexivity.
  - vm_compute. lia.
Defined.

(** ** The registry of nodes with issues *)

Lemma precedes_irrefl (a : NodeId) : ~ precedes a a.
Proof. destruct a; simpl; lia. Qed.

Lemma precedes_trans (a b c : NodeId) :
  precedes a b -> precedes b c -> precedes a c.
Proof. destruct a, b, c; simpl; try done; lia. Qed.

Lemma precedes_total (a b : NodeId) :
  a ≠ b -> precedes a b \/ precedes b a.
Proof.
  destruct a as [m| |], b as [n| |]; simpl; intros Hne; auto.
  destruct (N.lt_trichotomy m n) as [?|[->|?]]; auto. done.
Qed.

(** The comparator is positive exactly when its second argument comes
    first. *)
Lemma sortLettersAndNumbers_positive (a b : NodeId) :
  (0 <? sortLettersAndNumbers a b) = true <-> precedes b a.
Proof.
  destruct a as [m| |], b as [n| |]; try (vm_compute; intuition congruence).
  unfold sortLettersAndNumbers. simpl.
  destruct (N.ltb_spec n m); simpl; split; (done || lia).
Qed.

Lemma ordered_NoDup (nodes : list NodeId) : ordered nodes -> NoDup nodes.
Proof.
  induction 1 as [|a l Hl IH Ha]; constructor; [|done].
  intros Hin. rewrite Forall_forall in Ha.
  exact (precedes_irrefl a (Ha a Hin)).
Qed.

Lemma sort_insert_last (x : NodeId) (nodes : list NodeId) :
  Forall (fun y => ~ precedes x y) nodes ->
  sort_insert sortLettersAndNumbers x nodes = nodes ++ [x].
Proof.
  induction 1 as [|y l Hy Hl IH]; simpl; [done|].
  destruct (0 <? sortLettersAndNumbers y x) eqn:E.
  - apply sortLettersAndNumbers_positive in E. done.
  - by rewrite IH.
Qed.

Lemma sort_ordered_prefix (prefix nodes : list NodeId) :
  ordered (prefix ++ nodes) ->
  foldl (fun sorted x => sort_insert sortLettersAndNumbers x sorted) prefix nodes
  = prefix ++ nodes.
Proof.
  revert prefix. induction nodes as [|x l IH]; intros prefix Hord; simpl.
  - by rewrite app_nil_r.
  - rewrite sort_insert_last.
    + rewrite IH; rewrite <- app_assoc; done.
    + apply Forall_forall. intros y Hy Hxy.
      assert (precedes y x) as Hyx.
      { eapply (StronglySorted_app_1_elem_of precedes prefix (x :: l));
          [done | done | left]. }
      exact (precedes_irrefl x (precedes_trans _ _ _ Hxy Hyx)).
Qed.

(** On an ordered array followed by a new element, [sort] inserts the
    element. *)
Lemma sort_push (x : NodeId) (nodes : list NodeId) :
  ordered nodes ->
  sort sortLettersAndNumbers (push nodes x)
  = sort_insert sortLettersAndNumbers x nodes.
Proof.
  intros Hord. unfold sort, push. rewrite foldl_app. simpl.
  by rewrite (sort_ordered_prefix [] nodes).
Qed.

Lemma sort_insert_elem_of (x y : NodeId) (nodes : list NodeId) :
  y ∈ sort_insert sortLettersAndNumbers x nodes <-> y = x \/ y ∈ nodes.
Proof.
  induction nodes as [|z l IH]; simpl.
  - set_solver.
  - destruct (0 <? sortLettersAndNumbers z x).
    + rewrite !elem_of_cons. tauto.
    + rewrite !elem_of_cons, IH. tauto.
Qed.

Lemma sort_insert_ordered (x : NodeId) (nodes : list NodeId) :
  ordered nodes -> x ∉ nodes ->
  ordered (sort_insert sortLettersAndNumbers x nodes).
Proof.
  induction 1 as [|z l Hl IH Hz]; intros Hx; simpl.
  - repeat constructor.
  - apply not_elem_of_cons in Hx as [Hxz Hx].
    destruct (0 <? sortLettersAndNumbers z x) eqn:E.
    + apply sortLettersAndNumbers_positive in E.
      constructor; [by constructor|].
      constructor; [done|].
      eapply Forall_impl; [exact Hz|]. intros y Hy.
      by apply (precedes_trans x z y).
    + assert (precedes z x) as Hzx.
      { destruct (precedes_total z x) as [?|Hxz']; [done | done |].
        apply sortLettersAndNumbers_positive in Hxz'. congruence. }
      constructor; [by apply IH|].
      apply Forall_forall. intros y Hy.
      apply sort_insert_elem_of in Hy as [->|Hy]; [done|].
      rewrite Forall_forall in Hz. by apply Hz.
Qed.

Lemma delete_ordered (i : nat) (nodes : list NodeId) :
  ordered nodes -> ordered (delete i nodes).
Proof.
  intros Hord. revert i. induction Hord as [|a l Hl IH Ha]; intros i.
  - destruct i; constructor.
  - destruct i as [|i]; simpl; [done|].
    constructor; [apply IH|].
    apply Forall_forall. intros y Hy. rewrite Forall_forall in Ha. apply Ha.
    by apply list_elem_of_delete_inv in Hy.
Qed.

Lemma delete_indexOf_elem_of (x y : NodeId) (nodes : list NodeId) :
  NoDup nodes -> x ∈ nodes ->
  y ∈ delete (Z.to_nat (indexOf nodes x)) nodes <-> y ≠ x /\ y ∈ nodes.
Proof.
  induction 1 as [|z l Hz Hl IH]; intros Hx; [inversion Hx|].
  simpl. destruct (decide (z = x)) as [->|Hne].
  - simpl. split; [|intros [? ?%elem_of_cons]; tauto].
    intros Hy. split; [congruence | by right].
  - apply elem_of_cons in Hx as [?|Hx]; [congruence|].
    pose proof (proj2 (indexOf_found l x) Hx) as Hidx.
    destruct (Z.ltb_spec (indexOf l x) 0); [lia|].
    replace (Z.to_nat (indexOf l x + 1)) with (S (Z.to_nat (indexOf l x)))
      by lia.
    simpl. rewrite !elem_of_cons, IH by done.
    split; [intros [->|[? ?]]; auto | intros [? [?|?]]; auto].
Qed.

Lemma setTranslationIssues_nodes (t : Tracker) (id : NodeId) (state : bool) :
  nodesWithIssues (setTranslationIssues t id state)
  = if decide (id ∈ nodesWithIssues t)
    then (if state then nodesWithIssues t
          else delete (Z.to_nat (indexOf (nodesWithIssues t) id))
                 (nodesWithIssues t))
    else (if state
          then sort sortLettersAndNumbers (push (nodesWithIssues t) id)
          else nodesWithIssues t).
Proof.
  unfold setTranslationIssues.
  destruct (decide (id ∈ nodesWithIssues t)) as [Hin|Hout].
  - apply indexOf_found in Hin.
    destruct (Z.eqb_spec (indexOf (nodesWithIssues t) id) (-1)); [lia|].
    by destruct state.
  - apply indexOf_missing in Hout. rewrite Hout. by destruct state.
Qed.

Lemma setTranslationIssues_preserves (t : Tracker) (id : NodeId) (state : bool) :
  ordered (nodesWithIssues t) ->
  ordered (nodesWithIssues (setTranslationIssues t id state)).
Proof.
  intros Hord. rewrite setTranslationIssues_nodes.
  destruct (decide _), state; try done.
  - by apply delete_ordered.
  - rewrite sort_push by done. by apply sort_insert_ordered.
Qed.

(** Whatever calls are made on a new tracker, the array stays ordered. *)
Lemma setTranslationIssues_always_ordered (t : Tracker)
    (calls : list (NodeId * bool)) :
  ordered (nodesWithIssues t) ->
  ordered (nodesWithIssues
             (foldl (fun t call => setTranslationIssues t call.1 call.2) t calls)).
Proof.
  revert t. induction calls as [|[id state] calls IH]; intros t Hord; simpl.
  - done.
  - apply IH. by apply setTranslationIssues_preserves.
Qed.

(** X30: the current [setTranslationIssues] keeps [nodesWithIssues] a
    duplicate-free array in which 'global' comes before 'title', both come
    before every section number, and the section numbers ascend. With state
    true the result holds the identifier and what the array held, and an
    identifier already present leaves the array unchanged; with state false
    the identifier is removed and nothing else. *)
Theorem setTranslationIssues_ordered (t : Tracker) (id : NodeId) (state : bool) :
  ordered (nodesWithIssues t) ->
  ordered (nodesWithIssues (setTranslationIssues t id state))
  /\ NoDup (nodesWithIssues (setTranslationIssues t id state))
  /\ (forall other,
        other ∈ nodesWithIssues (setTranslationIssues t id state)
        <-> if state then other = id \/ other ∈ nodesWithIssues t
            else other ≠ id /\ other ∈ nodesWithIssues t)
  /\ (state = true -> id ∈ nodesWithIssues t ->
        nodesWithIssues (setTranslationIssues t id state) = nodesWithIssues t).
Proof.
  intros Hord.
  pose proof (setTranslationIssues_preserves t id state Hord) as Hord'.
  split; [done|]. split; [by apply ordered_NoDup|]. split.
  - intros other. rewrite setTranslationIssues_nodes.
    destruct (decide (id ∈ nodesWithIssues t)) as [Hin|Hout], state.
    + split; [auto | intros [->|?]; done].
    + apply delete_indexOf_elem_of; [by apply ordered_NoDup | done].
    + rewrite sort_push by done. apply sort_insert_elem_of.
    + split; [|tauto]. intros Hother. split; [|done]. by intros ->.
  - intros -> Hin. rewrite setTranslationIssues_nodes.
    by destruct (decide _).
Qed.

Lemma setTranslationIssues_ordered_witness :
  nodesWithIssues
    (setTranslationIssues
       (with_nodesWithIssues (MwCXTranslationTracker (lit "en") (lit "es"))
          [global; section 3])
       title true)
  = [global; title; section 3]
  /\ ordered [global; title; section 3].
Proof.
  assert (Hord : ordered [global; section 3])
    by (repeat constructor).
  split; [reflexivity|].
  exact (proj1 (setTranslationIssues_ordered
                  (with_nodesWithIssues
                     (MwCXTranslationTracker (lit "en") (lit "es"))
                     [global; section 3])
                  title true Hord)).
Defined.

Lemma sort_insert_Permutation (x : NodeId) (nodes : list NodeId) :
  sort_insert sortLettersAndNumbers x nodes ≡ₚ x :: nodes.
Proof.
  induction nodes as [|y l IH]; simpl; [done|].
  destruct (0 <? _); [done|]. rewrite IH. apply Permutation_swap.
Qed.

(** The engine's sorting algorithm does not matter: the ordered arrangement
    of the array and the new identifier is unique. *)
Lemma sort_push_unique (x : NodeId) (nodes sorted : list NodeId) :
  ordered nodes -> x ∉ nodes ->
  sorted ≡ₚ push nodes x -> ordered sorted ->
  sorted = sort sortLettersAndNumbers (push nodes x).
Proof.
  intros Hord Hx Hperm Hsorted. rewrite sort_push by done.
  apply (StronglySorted_unique_strong precedes); [|done| |].
  - intros a b _ _ Hab Hba.
    destruct (precedes_irrefl a (precedes_trans _ _ _ Hab Hba)).
  - by apply sort_insert_ordered.
  - rewrite Hperm, sort_insert_Permutation. unfold push.
    by rewrite Permutation_app_comm.
Qed.

(** *** The earlier variant *)

(** The earlier comparator answers -1 for 'title' against 'global' and for
    'global' against 'title': whatever the algorithm, one of the two arrays
    ends with 'title' in front. And for two numbers it answers 1 or 0, never
    a negative number: an algorithm that asks whether the new element goes
    before the old one (a binary insertion) leaves 2 in front of 1, while
    one that asks whether the old element goes behind the new one swaps
    them. *)
Lemma legacy_sortLettersAndNumbers_engines (swaps : Z -> Z -> bool) :
  (sort_pair swaps Legacy.sortLettersAndNumbers title global = [title; global]
   \/ sort_pair swaps Legacy.sortLettersAndNumbers global title = [title; global])
  /\ sort_pair (fun _ reversed => reversed <? 0) Legacy.sortLettersAndNumbers
       (section 2) (section 1) = [section 2; section 1]
  /\ sort_pair (fun standing _ => 0 <? standing) Legacy.sortLettersAndNumbers
       (section 2) (section 1) = [section 1; section 2].
Proof.
  split; [|split; reflexivity].
  unfold sort_pair.
  change (Legacy.sortLettersAndNumbers title global) with (-1).
  change (Legacy.sortLettersAndNumbers global title) with (-1).
  destruct (swaps (-1) (-1)); [by right | by left].
Qed.

(** C9: the earlier [setTranslationIssues] breaks the order its successor
    keeps. Its comparator has no case for two special strings: 'global',
    reported when 'title' is in the array, stays behind 'title', where the
    current variant puts it in front; and whatever the sorting algorithm,
    it treats the two arrays of 'title' and 'global' alike, so that one of
    them ends with 'title' in front. For two numbers the comparator answers
    with a boolean: an algorithm that asks whether the new element goes
    before the old one leaves 2 in front of 1. *)
Theorem legacy_setTranslationIssues_unordered :
  let t := with_nodesWithIssues (MwCXTranslationTracker (lit "en") (lit "es"))
             [title] in
  ordered (nodesWithIssues t)
  /\ nodesWithIssues (Legacy.setTranslationIssues t global true)
     = [title; global]
  /\ ~ ordered (nodesWithIssues (Legacy.setTranslationIssues t global true))
  /\ nodesWithIssues (setTranslationIssues t global true) = [global; title]
  /\ (forall swaps,
        sort_pair swaps Legacy.sortLettersAndNumbers title global
        = [title; global]
        \/ sort_pair swaps Legacy.sortLettersAndNumbers global title
           = [title; global])
  /\ sort_pair (fun _ reversed => reversed <? 0) Legacy.sortLettersAndNumbers
       (section 2) (section 1) = [section 2; section 1].
Proof.
  cbv zeta. split; [repeat constructor|]. split; [reflexivity|].
  split; [|split; [reflexivity|split]].
  - intros Hord. vm_compute in Hord. inversion Hord as [|? ? _ Hall].
    inversion Hall as [|? ? Hpre _]. exact Hpre.
  - intros swaps. apply legacy_sortLettersAndNumbers_engines.
  - apply (legacy_sortLettersAndNumbers_engines (fun _ _ => true)).
Qed.

(** ** The validation queue and the change handler *)

Section QueueFacts.
Context {uls : ULSData} {dom : DOM} {ve : VETarget}.

Lemma validatable_validate (t : Tracker) (m : N) :
  validatable t m -> is_Some (validateForMTAbuse t m).
Proof.
  intros (_ & st & src & Hst & Hsrc). unfold validateForMTAbuse.
  rewrite Hst. simpl. rewrite Hsrc. simpl. by destruct (_ <? _)%nat.
Qed.

(** One turn of the validation loop removes the entry it looked at, keeps
    the section states, and at most reports the check of that section. *)
Lemma processValidationQueue_body_spec (t t' : Tracker) (i : nat) (m : N) :
  validationDelayQueue t !! i = Some m ->
  processValidationQueue_body t i = Some t' ->
  sections t' = sections t
  /\ validationDelayQueue t' = delete i (validationDelayQueue t)
  /\ exists evs, events t' = events t ++ evs /\ Forall (mtAbuseEvent m) evs.
Proof.
  intros Hm. unfold processValidationQueue_body. rewrite Hm.
  cbn [mbind option_bind].
  destruct (isExcludedFromValidation (getTargetSectionNodeFromSectionNumber m))
    as [[|]|] eqn:Hexcluded; cbn [mbind option_bind]; [| |done].
  - intros [= <-]. split; [done|]. split; [done|].
    exists []. by rewrite app_nil_r.
  - destruct (validateForMTAbuse t m) as [[|]|]; cbn [mbind option_bind];
      [| |done].
    + unfold setMTAbuseWarning.
      destruct (getTargetSectionNodeFromSectionNumber m) as [[? ? ?|]|];
        [|done|done].
      destruct (sections t !! m); cbn [mbind option_bind]; [|done].
      intros [= <-]. split; [done|]. split; [done|].
      eexists. split; [done|]. constructor; [by left | constructor].
    + unfold clearMTAbuseWarning.
      destruct (getTargetSectionNodeFromSectionNumber m) as [[? ? ?|]|];
        intros [= <-]; (split; [done|]); (split; [done|]).
      * eexists. split; [done|]. constructor; [by right | constructor].
      * exists []. by rewrite app_nil_r.
      * exists []. by rewrite app_nil_r.
Qed.

Lemma processValidationQueue_body_total (t : Tracker) (i : nat) (m : N) :
  validationDelayQueue t !! i = Some m ->
  validatable t m ->
  is_Some (processValidationQueue_body t i).
Proof.
  intros Hm Hv. unfold processValidationQueue_body. rewrite Hm.
  cbn [mbind option_bind].
  pose proof (validatable_validate t m Hv) as [abuse Habuse].
  destruct Hv as ((origin & content & child & ->) & st & src & Hst & Hsrc).
  unfold isExcludedFromValidation. cbn [mbind option_bind].
  destruct (0 <=? indexOf excludedTypes child); cbn [mbind option_bind];
    [done|].
  rewrite Habuse. cbn [mbind option_bind]. destruct abuse; [|done].
  unfold setMTAbuseWarning. rewrite Hst. done.
Qed.

Lemma processValidationQueue_loop_spec (i : nat) (t t' : Tracker) :
  length (validationDelayQueue t) = i ->
  processValidationQueue_loop i t = Some t' ->
  sections t' = sections t
  /\ validationDelayQueue t' = []
  /\ exists evs,
       events t' = events t ++ evs
       /\ Forall (fun e => exists m, m ∈ validationDelayQueue t /\ mtAbuseEvent m e)
                 evs.
Proof.
  revert t. induction i as [|i IH]; intros t Hlen; simpl.
  - intros [= <-]. apply nil_length_inv in Hlen.
    split; [done|]. split; [done|]. exists []. by rewrite app_nil_r.
  - destruct (lookup_lt_is_Some_2 (validationDelayQueue t) i) as [m Hm]; [lia|].
    destruct (processValidationQueue_body t i) as [t1|] eqn:Hbody; simpl;
      [|done].
    intros Hloop.
    destruct (processValidationQueue_body_spec t t1 i m Hm Hbody)
      as (Hsec & Hq & evs1 & Hev1 & Hall1).
    destruct (IH t1) as (Hsec' & Hq' & evs2 & Hev2 & Hall2); [|done|].
    { rewrite Hq, length_delete by (by eexists). lia. }
    split; [congruence|]. split; [done|].
    exists (evs1 ++ evs2). split.
    + by rewrite Hev2, Hev1, <- app_assoc.
    + apply Forall_app. split.
      * eapply Forall_impl; [exact Hall1|]. intros e He. exists m.
        split; [|done]. by eapply list_elem_of_lookup_2.
      * eapply Forall_impl; [exact Hall2|]. intros e (k & Hk & He). exists k.
        split; [|done]. rewrite Hq in Hk. by eapply list_elem_of_delete_inv.
Qed.

Lemma processValidationQueue_loop_total (i : nat) (t : Tracker) :
  length (validationDelayQueue t) = i ->
  (forall m, m ∈ validationDelayQueue t -> validatable t m) ->
  is_Some (processValidationQueue_loop i t).
Proof.
  revert t. induction i as [|i IH]; intros t Hlen Hall; simpl; [done|].
  destruct (lookup_lt_is_Some_2 (validationDelayQueue t) i) as [m Hm]; [lia|].
  destruct (processValidationQueue_body_total t i m Hm) as [t1 Hbody].
  { apply Hall. by eapply list_elem_of_lookup_2. }
  rewrite Hbody. simpl.
  destruct (processValidationQueue_body_spec t t1 i m Hm Hbody)
    as (Hsec & Hq & _).
  apply IH.
  - rewrite Hq, length_delete by (by eexists). lia.
  - intros k Hk. rewrite Hq in Hk. apply list_elem_of_delete_inv in Hk.
    destruct (Hall k Hk) as (Hnode & st & src & Hst & Hsrc).
    split; [done|]. exists st, src. by rewrite Hsec.
Qed.

End QueueFacts.

Lemma updateSectionProgress_spec {uls : ULSData} (t : Tracker) (n : N)
    (sectionState : SectionState) :
  sections t !! n = Some sectionState ->
  exists sectionState',
    updateSectionProgress t n
    = Some (with_sections t (<[n := sectionState']> (sections t)))
    /\ currentProvider sectionState' = currentProvider sectionState
    /\ userTranslation sectionState' = userTranslation sectionState
    /\ unmodifiedMT sectionState' = unmodifiedMT sectionState
    /\ source sectionState' = source sectionState.
Proof.
  intros Hstate. unfold updateSectionProgress. rewrite Hstate.
  cbn [mbind option_bind]. eexists. split; [reflexivity|]. done.
Qed.

(** The state the change handler stores for a section whose provider
    changed, before the progress is recomputed. *)
Lemma processSectionChange_unfold_fresh
    {uls : ULSData} {dom : DOM} {ve : VETarget}
    (t : Tracker) (n : N) (sectionState : SectionState)
    (origin : option jsstring) (content child : jsstring) :
  getTargetSectionNodeFromSectionNumber n
  = Some (CXSectionNode origin content child) ->
  sections t !! n = Some sectionState ->
  currentProvider sectionState ≠ origin ->
  exists stored,
    currentProvider stored = origin
    /\ userTranslation stored = content_of (Some content)
    /\ source stored = source sectionState
    /\ processSectionChange t n
       = (t1 ← updateSectionProgress
                 (emit (with_sections t (<[n := stored]> (sections t)))
                       (SetHasUserModifications n (isModified stored))) n;
          t2 ← processValidationQueue t1;
          Some (pushToValidationQueue t2 n)).
Proof.
  intros Hnode Hstate Hchange. unfold processSectionChange.
  rewrite Hnode, Hstate. cbn [mbind option_bind].
  unfold detectProviderChange. case_decide; [|done].
  cbn [fst snd].
  destruct (falsy (html (unmodifiedMT
              (setUserTranslation (setCurrentMTProvider sectionState origin) None)))).
  - case_decide; [|done]. eexists. split; [|split; [|split]]; [| | |reflexivity];
      done.
  - case_decide; [|done]. eexists. split; [|split; [|split]]; [| | |reflexivity];
      done.
Qed.

(** C6: the handler does not do what its comment says, delay the validation
    of a freshly translated section. The flush that precedes the enqueueing
    validates every queued section, this section included when an earlier
    change left it in the queue. Section 5, translated with Google and still
    queued, is switched to Yandex: the handler reports the MT-abuse warning
    on section 5 at once. Had section 5 not been queued, the same call would
    report no warning and no resolution. *)
Theorem processSectionChange_fresh_queued :
  let states := [Sample.state 5 Sample.ten_words (Some (lit "Google")) (Num 1)] in
  events <$> processSectionChange (uls := Sample.uls) (dom := Sample.dom)
               (ve := Sample.target) (Sample.tracker states [5%N]) 5
  = Some [SetHasUserModifications 5 false;
          AddTranslationIssues 5 (lit "mt-abuse")]
  /\ validationDelayQueue <$> processSectionChange (uls := Sample.uls)
       (dom := Sample.dom) (ve := Sample.target) (Sample.tracker states [5%N]) 5
     = Some [5%N]
  /\ events <$> processSectionChange (uls := Sample.uls) (dom := Sample.dom)
                  (ve := Sample.target) (Sample.tracker states []) 5
     = Some [SetHasUserModifications 5 false]
  /\ getTargetSectionNodeFromSectionNumber (VETarget := Sample.target) 5
     = Some (CXSectionNode (Some (lit "Yandex")) Sample.ten_words
               (lit "paragraph")).
Proof. repeat split; vm_compute; reflexivity. Qed.

(** The path of a fresh translation. When [processSectionChange] finds the
    stored provider different from the origin the section node declares, in
    a tracker whose queued sections can all be validated, it sets
    [currentProvider] to the new origin, resets [userTranslation] to null
    before storing the live content in it, flushes the validation queue,
    enqueues this section, and returns without scheduling the debounced
    flush. Every warning or resolution it reports is that of a section that
    was queued. *)
Theorem processSectionChange_fresh {uls : ULSData} {dom : DOM} {ve : VETarget}
    (t : Tracker) (n : N) (sectionState : SectionState)
    (origin : option jsstring) (content child : jsstring) :
  getTargetSectionNodeFromSectionNumber n
  = Some (CXSectionNode origin content child) ->
  sections t !! n = Some sectionState ->
  currentProvider sectionState ≠ origin ->
  (forall m, m ∈ validationDelayQueue t -> validatable t m) ->
  ((detectProviderChange sectionState origin).2 = true
   /\ currentProvider (detectProviderChange sectionState origin).1 = origin
   /\ html (userTranslation (detectProviderChange sectionState origin).1) = None)
  /\ exists t' sectionState' modified evs,
       processSectionChange t n = Some t'
       /\ sections t' !! n = Some sectionState'
       /\ currentProvider sectionState' = origin
       /\ userTranslation sectionState' = content_of (Some content)
       /\ validationDelayQueue t' = [n]
       /\ events t' = events t ++ SetHasUserModifications n modified :: evs
       /\ Forall (fun e => exists m,
                     m ∈ validationDelayQueue t /\ mtAbuseEvent m e) evs
       /\ (ValidationScheduled ∉ evs)
       /\ (n ∉ validationDelayQueue t ->
           forall e, e ∈ evs -> ~ mtAbuseEvent n e).
Proof.
  intros Hnode Hstate Hchange Hqueue. split.
  { unfold detectProviderChange. by case_decide. }
  destruct (processSectionChange_unfold_fresh t n sectionState origin content
              child Hnode Hstate Hchange)
    as (stored & Hprovider & Huser & Hsource & ->).
  set (t0 := emit (with_sections t (<[n := stored]> (sections t)))
                  (SetHasUserModifications n (isModified stored))).
  destruct (updateSectionProgress_spec t0 n stored)
    as (st' & -> & Hprovider' & Huser' & _ & Hsource');
    [apply lookup_insert_eq|].
  cbn [mbind option_bind].
  set (t1 := with_sections t0 (<[n := st']> (sections t0))).
  assert (Hqueue1 : forall m, m ∈ validationDelayQueue t1 -> validatable t1 m).
  { intros m Hm. destruct (Hqueue m Hm) as (Hm_node & st & src & Hst & Hsrc).
    split; [done|]. destruct (decide (m = n)) as [->|Hne].
    - exists st', src. split; [apply lookup_insert_eq|].
      rewrite Hsource', Hsource. congruence.
    - exists st, src. split; [|done].
      subst t1 t0. cbn [sections with_sections emit].
      by rewrite !lookup_insert_ne. }
  destruct (processValidationQueue_loop_total
              (length (validationDelayQueue t1)) t1 eq_refl Hqueue1)
    as [t2 Hflush].
  destruct (processValidationQueue_loop_spec
              (length (validationDelayQueue t1)) t1 t2 eq_refl Hflush)
    as (Hsections & Hempty & evs & Hevents & Hevs).
  unfold processValidationQueue. rewrite Hflush. cbn [mbind option_bind].
  exists (pushToValidationQueue t2 n), st', (isModified stored), evs.
  assert (Hpush : pushToValidationQueue t2 n
                  = with_validationDelayQueue t2 [n]).
  { unfold pushToValidationQueue. by rewrite Hempty. }
  rewrite Hpush. cbn [sections validationDelayQueue events
                      with_validationDelayQueue].
  split; [done|]. split; [rewrite Hsections; apply lookup_insert_eq|].
  split; [congruence|]. split; [congruence|]. split; [done|].
  split; [rewrite Hevents; subst t1 t0; cbn [events with_sections emit];
          by rewrite <- app_assoc|].
  split; [exact Hevs|]. split.
  - intros Hin. rewrite Forall_forall in Hevs.
    destruct (Hevs _ Hin) as (m & _ & [?|?]); discriminate.
  - intros Hout e He Hn. rewrite Forall_forall in Hevs.
    destruct (Hevs _ He) as (m & Hm & Hme).
    assert (m = n) as -> by (destruct Hn as [->| ->], Hme as [?|?]; congruence).
    done.
Qed.

Lemma processSectionChange_fresh_witness :
  let t := Sample.tracker
             [Sample.state 5 Sample.ten_words (Some (lit "Google")) (Num 1);
              Sample.state 6 Sample.ten_words (Some (lit "Google")) (Num 1)]
             [6%N] in
  exists t',
    processSectionChange (uls := Sample.uls) (dom := Sample.dom)
      (ve := Sample.target) t 5 = Some t'
    /\ validationDelayQueue t' = [5%N]
    /\ (ValidationScheduled ∉ events t').
Proof.
  intros t.
  destruct (processSectionChange_fresh (uls := Sample.uls) (dom := Sample.dom)
              (ve := Sample.target) t 5
              (Sample.state 5 Sample.ten_words (Some (lit "Google")) (Num 1))
              (Some (lit "Yandex")) Sample.ten_words (lit "paragraph"))
    as (_ & t' & st' & modified & evs & Hrun & _ & _ & _ & Hq & Hev & _ & Hns & _).
  - reflexivity.
  - reflexivity.
  - intros E. vm_compute in E. discriminate E.
  - intros m Hm. apply list_elem_of_singleton in Hm as ->.
    split.
    + eexists _, _, _. reflexivity.
    + eexists _, _. split; reflexivity.
  - exists t'. split; [exact Hrun|]. split; [exact Hq|].
    rewrite Hev. simpl. intros Hin.
    apply elem_of_cons in Hin as [Hin|Hin]; [discriminate | done].
Defined.

(** ** Section alignment *)

Module AlignmentFacts.
Import Alignment.

Lemma while_loop_mono (r : Rendering) (fuel fuel' : nat) (l l' : Loop) :
  (fuel <= fuel')%nat ->
  while_loop fuel r l = Some l' -> while_loop fuel' r l = Some l'.
Proof.
  revert fuel' l. induction fuel as [|fuel IH]; intros fuel' l Hle; [done|].
  destruct fuel' as [|fuel']; [lia|]. simpl.
  destruct (while_turn r l); [|done]. apply IH. lia.
Qed.

(** The loop, started with the heights as rendered under its styles, is the
    loop of the comment: it takes steps of 10px as long as the heights
    differ, and it ends within as many evaluations of its condition as the
    step counter is short of 11, with the tracking call when the counter
    gets there. *)
Lemma while_loop_trace (r : Rendering) (d : nat) (l : Loop) :
  steps l = 11 - Z.of_nat d -> (1 <= d)%nat ->
  sectionHeight l = sectionHeightOf r (styles l) ->
  sourceSectionHeight l = sourceHeightOf r (styles l) ->
  exists (k : nat) l',
    (k <= d)%nat
    /\ while_loop d r l = Some l'
    /\ steps l' = steps l + Z.of_nat k
    /\ styles l' = raised r k (styles l)
    /\ effects l'
       = effects l ++ raises r k (styles l)
         ++ (if decide (steps l + Z.of_nat k = 11) then [Track] else [])
    /\ (forall i, (i < k)%nat -> ~ matched r (raised r i (styles l)))
    /\ (steps l + Z.of_nat k < 11 -> matched r (raised r k (styles l))).
Proof.
  revert l. induction d as [|d IH]; intros l Hsteps Hd Hsection Hsource; [lia|].
  cbn [while_loop]. unfold while_turn.
  destruct (strict_neq (sectionHeight l) (sourceSectionHeight l)) eqn:Hne.
  - destruct (Z.eqb_spec (steps l) 10) as [H10|H10].
    + exists 1%nat. eexists. split; [lia|]. split; [reflexivity|].
      cbn [steps styles effects raised raises]. unfold raise.
      rewrite <- Hsection. split; [lia|]. split; [done|]. split.
      * rewrite decide_True by lia. by rewrite <- !app_assoc.
      * split; [|lia]. intros i Hi. assert (i = 0%nat) as -> by lia.
        unfold matched. cbn [raised]. rewrite <- Hsection, <- Hsource.
        by rewrite Hne.
    + match goal with
      | |- context [while_loop d r ?next] =>
          destruct (IH next) as (k & l' & Hk & Hrun & Hst & Hcss & Heff & Hdiff
                                 & Hmatch);
            [cbn [steps]; lia | lia | reflexivity | reflexivity |]
      end.
      cbn [steps styles effects] in Hst, Hcss, Heff, Hdiff, Hmatch.
      exists (S k), l'. split; [lia|]. split; [exact Hrun|].
      cbn [raised raises]. unfold raise. rewrite <- Hsection.
      split; [lia|]. split; [exact Hcss|]. split.
      * rewrite Heff. rewrite <- !app_assoc. cbn [app].
        repeat f_equal.
        destruct (decide (steps l + 1 + Z.of_nat k = 11)),
          (decide (steps l + Z.of_nat (S k) = 11)); first [done | lia].
      * split.
        -- intros [|i] Hi.
           ++ unfold matched. cbn [raised]. rewrite <- Hsection, <- Hsource.
              by rewrite Hne.
           ++ cbn [raised]. unfold raise. rewrite <- Hsection. apply Hdiff. lia.
        -- intros Hlt. apply Hmatch. lia.
  - exists 0%nat, l. split; [lia|]. split; [done|].
    cbn [raised raises]. split; [lia|]. split; [done|]. split.
    + rewrite decide_False by lia. by rewrite app_nil_r.
    + split; [intros i Hi; lia|]. intros _. unfold matched.
      by rewrite <- Hsection, <- Hsource.
Qed.

End AlignmentFacts.

(** C8, as stated, fails. With a source of 100px and a translation of 70px
    the translation gets the min-height 100px in one assignment: the loop of
    10px steps belongs to the other branch, where the source is the shorter
    one, so no min-height of 80px or 90px is ever set and no step is
    counted. And where the loop does not converge its body runs 11 times
    before it is abandoned, the counter being compared with 10 before it is
    incremented. *)
Lemma keepAlignment_counterexample :
  Alignment.keepAlignment 11 (Alignment.paragraph (Alignment.ideal 100 70))
  = Some {| Alignment.final_css :=
              {| Alignment.sourceMinHeight := None;
                 Alignment.sectionMinHeight := Some 100 |};
            Alignment.final_effects :=
              [Alignment.ClearSourceMinHeight;
               Alignment.SetSectionMinHeight (Alignment.Px 100)];
            Alignment.final_steps := 0 |}
  /\ Alignment.final_steps
       <$> Alignment.keepAlignment 11 (Alignment.paragraph Alignment.stubborn)
     = Some 11
  /\ Alignment.keepAlignment 10 (Alignment.paragraph Alignment.stubborn) = None.
Proof. repeat split; vm_compute; reflexivity. Qed.

(** C8 (amended): every call of [keepAlignment] terminates: its loop ends
    within 11 evaluations of its condition, and more fuel does not change
    the outcome. A table is skipped. When the translation is shorter than
    the source, its min-height is set to the source's rendered height in a
    single assignment, without any loop; when neither is shorter, nothing is
    set. The loop runs only when the source is the shorter one, after the
    source's min-height was set to the translation's rendered height. Each
    of its steps sets both min-heights to the translation's rendered height
    plus 10px; it takes a step only while the rendered heights differ, and
    it stops when they match, or, with the tracking call, when its eleventh
    step finds the counter at 10. *)
Theorem keepAlignment_terminates (fuel : nat) (this : Alignment.TargetSection) :
  (11 <= fuel)%nat ->
  exists outcome,
    Alignment.keepAlignment fuel this = Some outcome
    /\ Alignment.keepAlignment 11 this = Some outcome
    /\ (Alignment.tagName this = lit "TABLE" ->
        Alignment.final_effects outcome = []
        /\ Alignment.final_css outcome = Alignment.css (Alignment.elements this)
        /\ Alignment.final_steps outcome = 0)
    /\ (Alignment.tagName this ≠ lit "TABLE" ->
        let pair := if decide (Alignment.tagName this = lit "FIGURE")
                    then Alignment.figcaptions this
                    else Alignment.elements this in
        let r := Alignment.rendering pair in
        let measured :=
          {| Alignment.sourceMinHeight := None;
             Alignment.sectionMinHeight :=
               Alignment.sectionMinHeight (Alignment.css pair) |} in
        let sourceHeight := Alignment.sourceHeightOf r measured in
        let sectionHeight := Alignment.sectionHeightOf r measured in
        (Alignment.lt sourceHeight sectionHeight = false ->
         Alignment.lt sectionHeight sourceHeight = true ->
           Alignment.final_effects outcome
           = [Alignment.ClearSourceMinHeight;
              Alignment.SetSectionMinHeight sourceHeight]
           /\ Alignment.final_css outcome
              = {| Alignment.sourceMinHeight := None;
                   Alignment.sectionMinHeight :=
                     Alignment.set_css (Alignment.sectionMinHeight measured)
                       sourceHeight |}
           /\ Alignment.final_steps outcome = 0)
        /\ (Alignment.lt sourceHeight sectionHeight = false ->
            Alignment.lt sectionHeight sourceHeight = false ->
              Alignment.final_effects outcome = [Alignment.ClearSourceMinHeight]
              /\ Alignment.final_css outcome = measured
              /\ Alignment.final_steps outcome = 0)
        /\ (Alignment.lt sourceHeight sectionHeight = true ->
            let first :=
              {| Alignment.sourceMinHeight :=
                   Alignment.set_css None sectionHeight;
                 Alignment.sectionMinHeight :=
                   Alignment.sectionMinHeight measured |} in
            exists k : nat,
              (k <= 11)%nat
              /\ Alignment.final_steps outcome = Z.of_nat k
              /\ Alignment.final_css outcome = Alignment.raised r k first
              /\ Alignment.final_effects outcome
                 = [Alignment.ClearSourceMinHeight;
                    Alignment.SetSourceMinHeight sectionHeight]
                   ++ Alignment.raises r k first
                   ++ (if decide (k = 11%nat) then [Alignment.Track] else [])
              /\ (forall i, (i < k)%nat ->
                    ~ Alignment.matched r (Alignment.raised r i first))
              /\ ((k < 11)%nat ->
                    Alignment.matched r (Alignment.raised r k first)))).
Proof.
  intros Hfuel. unfold Alignment.keepAlignment.
  destruct (decide (Alignment.tagName this = lit "TABLE")) as [Htable|Htable].
  { eexists. split; [reflexivity|]. split; [reflexivity|]. simpl.
    split; [done|]. done. }
  set (pair := if decide (Alignment.tagName this = lit "FIGURE")
               then Alignment.figcaptions this else Alignment.elements this).
  set (r := Alignment.rendering pair).
  set (measured := {| Alignment.sourceMinHeight := None;
                      Alignment.sectionMinHeight :=
                        Alignment.sectionMinHeight (Alignment.css pair) |}).
  cbn [Alignment.sourceMinHeight Alignment.sectionMinHeight].
  fold measured.
  destruct (Alignment.lt (Alignment.sourceHeightOf r measured)
              (Alignment.sectionHeightOf r measured)) eqn:Hshort.
  - match goal with
    | |- context [Alignment.while_loop fuel r ?l] =>
        destruct (AlignmentFacts.while_loop_trace r 11 l) as
          (k & l' & Hk & Hrun & Hst & Hcss & Heff & Hdiff & Hmatch);
          [reflexivity | lia | reflexivity | reflexivity |];
        rewrite (AlignmentFacts.while_loop_mono r 11 fuel l l' Hfuel Hrun);
        rewrite Hrun
    end.
    cbn [Alignment.steps Alignment.styles Alignment.effects]
      in Hst, Hcss, Heff, Hdiff, Hmatch.
    cbn [mbind option_bind]. eexists. split; [reflexivity|].
    split; [reflexivity|].
    cbn [Alignment.final_effects Alignment.final_css Alignment.final_steps].
    split; [done|]. intros _. cbv zeta.
    split; [intros Hno; fold measured in Hno; congruence|].
    split; [intros Hno; fold measured in Hno; congruence|].
    intros _. exists k. split; [done|]. split; [lia|]. split; [exact Hcss|].
    split.
    + rewrite Heff. cbn [app]. repeat f_equal.
      destruct (decide (0 + Z.of_nat k = 11)), (decide (k = 11%nat));
        first [done | lia].
    + split; [exact Hdiff|]. intros Hlt. apply Hmatch. lia.
  - destruct (Alignment.lt (Alignment.sectionHeightOf r measured)
                (Alignment.sourceHeightOf r measured)) eqn:Htall.
    + eexists. split; [reflexivity|]. split; [reflexivity|].
      cbn [Alignment.final_effects Alignment.final_css Alignment.final_steps].
      split; [done|]. intros _. cbv zeta.
      split; [done|]. split; [congruence|]. congruence.
    + eexists. split; [reflexivity|]. split; [reflexivity|].
      cbn [Alignment.final_effects Alignment.final_css Alignment.final_steps].
      split; [done|]. intros _. cbv zeta.
      split; [congruence|]. split; [done|]. congruence.
Qed.

Lemma keepAlignment_terminates_witness :
  (exists outcome,
     Alignment.keepAlignment 20 (Alignment.paragraph Alignment.quirky)
     = Some outcome
     /\ Alignment.final_steps outcome = 2
     /\ Alignment.final_css outcome
        = {| Alignment.sourceMinHeight := Some 80;
             Alignment.sectionMinHeight := Some 80 |}
     /\ Alignment.final_effects outcome
        = [Alignment.ClearSourceMinHeight;
           Alignment.SetSourceMinHeight (Alignment.Px 60);
           Alignment.SetSourceMinHeight (Alignment.Px 70);
           Alignment.SetSectionMinHeight (Alignment.Px 70);
           Alignment.SetSourceMinHeight (Alignment.Px 80);
           Alignment.SetSectionMinHeight (Alignment.Px 80)])
  /\ (exists outcome,
        Alignment.keepAlignment 20 (Alignment.paragraph Alignment.stubborn)
        = Some outcome
        /\ Alignment.final_steps outcome = 11
        /\ last (Alignment.final_effects outcome) = Some Alignment.Track).
Proof.
  split.
  - destruct (keepAlignment_terminates 20
                (Alignment.paragraph Alignment.quirky))
      as (outcome & Hrun & _); [lia|].
    exists outcome. split; [exact Hrun|].
    vm_compute in Hrun. injection Hrun as <-. repeat split.
  - destruct (keepAlignment_terminates 20
                (Alignment.paragraph Alignment.stubborn))
      as (outcome & Hrun & _); [lia|].
    exists outcome. split; [exact Hrun|].
    vm_compute in Hrun. injection Hrun as <-. repeat split.
Defined.

(** * Further properties *)

(** ** Tokens and ratios *)

Lemma scan_nonspace_concat (run s : jsstring) :
  concat (scan_nonspace run s)
  = run ++ List.filter (fun c => negb (isWhiteSpace c)) s.
Proof.
  revert run. induction s as [|c s IH]; intros run; simpl.
  - destruct run; simpl; by rewrite ?app_nil_r.
  - destruct (isWhiteSpace c); simpl.
    + rewrite concat_app, IH. destruct run; simpl; by rewrite ?app_nil_r.
    + rewrite IH. by rewrite <- app_assoc.
Qed.

(** X1: joining the tokens gives the string back for a language of the CJK
    group, and the string without its whitespace for every other
    language: [tokenise] neither invents nor loses a non-whitespace
    character. *)
Theorem tokenise_concat {uls : ULSData} (s language : jsstring) :
  (getScript language ∈ scriptgroups_CJK -> concat (tokenise s language) = s)
  /\ (getScript language ∉ scriptgroups_CJK ->
      concat (tokenise s language)
      = List.filter (fun c => negb (isWhiteSpace c)) s).
Proof.
  split; intros Hscript.
  - rewrite tokenise_CJK by done. unfold split_empty.
    induction s as [|c s IH]; simpl; [done | f_equal; exact IH].
  - rewrite tokenise_words by done. apply scan_nonspace_concat.
Qed.

Lemma tokenise_concat_witness :
  concat (tokenise (uls := Sample.uls) (lit "ab c") (lit "zh")) = lit "ab c"
  /\ concat (tokenise (uls := Sample.uls) (lit " ab  c ") (lit "en")) = lit "abc".
Proof.
  split.
  - apply (tokenise_concat (uls := Sample.uls)).
    apply indexOf_found. vm_compute. discriminate.
  - refine (eq_trans (proj2 (tokenise_concat (uls := Sample.uls)
                               (lit " ab  c ") (lit "en")) _) _).
    + apply indexOf_missing. reflexivity.
    + reflexivity.
Defined.

Lemma common_all (tokens others : list jsstring) :
  (forall token, token ∈ tokens -> token ∈ others) ->
  common tokens others = length tokens.
Proof.
  intros Hall. unfold common, array_filter.
  induction tokens as [|token tokens IH]; simpl; [done|].
  rewrite bool_decide_eq_true_2 by (apply Hall; left). simpl.
  rewrite IH; [done|]. intros other Hother. apply Hall. by right.
Qed.

(** X2: word order is invisible to [calculateUnmodifiedContent]: two
    different strings whose token lists are rearrangements of one another
    (and not empty) are reported as 100% unmodified. *)
Theorem calculateUnmodifiedContent_reordered {uls : ULSData}
    (s1 s2 language : jsstring) :
  s1 ≠ s2 ->
  tokenise s1 language ≠ [] ->
  tokenise s1 language ≡ₚ tokenise s2 language ->
  num_eq (calculateUnmodifiedContent (Some s1) (Some s2) language) (Num 1)
  = true.
Proof.
  intros Hne Htokens Hperm.
  assert (N1 : s1 ≠ []).
  { intros ->. apply Htokens. unfold tokenise. by destruct (0 <=? _). }
  assert (N2 : s2 ≠ []).
  { intros ->. apply Permutation_length in Hperm as Hlen.
    assert (tokenise [] language = []) as E
      by (unfold tokenise; by destruct (0 <=? _)).
    rewrite E in Hlen. by destruct (tokenise s1 language). }
  rewrite calculateUnmodifiedContent_tokens by done.
  pose proof (Permutation_length Hperm) as Hlen.
  destruct (Nat.ltb_spec (length (tokenise s1 language))
                         (length (tokenise s2 language))); [lia|].
  rewrite common_all by (intros token Htoken; by rewrite <- Hperm).
  destruct (tokenise s1 language) as [|token tokens]; [done|].
  simpl. apply Qeq_bool_iff. unfold Qeq. simpl. lia.
Qed.

Lemma calculateUnmodifiedContent_reordered_witness :
  num_eq (calculateUnmodifiedContent (uls := Sample.uls)
            (Some (lit "the cat sat")) (Some (lit "sat the cat")) (lit "en"))
         (Num 1) = true.
Proof.
  apply (calculateUnmodifiedContent_reordered (uls := Sample.uls)).
  - discriminate.
  - vm_compute. discriminate.
  - vm_compute.
    apply (Permutation_trans
             (l' := [lit "the"; lit "sat"; lit "cat"])).
    + apply perm_skip. apply perm_swap.
    + apply perm_swap.
Defined.

(** ** Thresholds *)

Lemma num_gt_weaken (x : number) (lo hi : Q) :
  (lo <= hi)%Q -> num_gt x (Num hi) = true -> num_gt x (Num lo) = true.
Proof.
  intros Hle. destruct x as [q| |]; simpl; try done.
  rewrite !negb_true_iff. intros Hhi.
  destruct (Qle_bool q lo) eqn:Hlo; [|done].
  apply Qle_bool_iff in Hlo.
  assert (Qle_bool q hi = true) as E
    by (apply Qle_bool_iff; by apply (Qle_trans _ lo)).
  congruence.
Qed.

(** X3: the threshold for text copied from the source is the stricter one: a
    section that is flagged under some provider is still flagged when the
    same section state has the provider 'source'. *)
Theorem validateForMTAbuse_source_stricter {uls : ULSData} (t : Tracker) (n : N)
    (sectionState : SectionState) :
  sections t !! n = Some sectionState ->
  validateForMTAbuse t n = Some true ->
  validateForMTAbuse
    (with_sections t
       (<[n := setCurrentMTProvider sectionState (Some (lit "source"))]>
          (sections t))) n
  = Some true.
Proof.
  intros Hstate. unfold validateForMTAbuse. rewrite Hstate.
  cbn [sections with_sections sourceLanguage]. rewrite lookup_insert_eq.
  cbn [mbind option_bind source setCurrentMTProvider].
  destruct (text (source sectionState)) as [sourceText|];
    cbn [mbind option_bind]; [|done].
  destruct (_ <? _)%nat; [done|].
  intros [= Hflag]. f_equal.
  unfold getMTThresholdForSection in *.
  cbn [currentProvider setCurrentMTProvider unmodifiedPercentage].
  rewrite decide_True by done.
  case_decide; [done|].
  eapply num_gt_weaken; [|exact Hflag]. unfold Qle. simpl. lia.
Qed.

Lemma validateForMTAbuse_source_stricter_witness :
  validateForMTAbuse (uls := Sample.uls)
    (with_sections
       (Sample.tracker
          [Sample.state 5 Sample.ten_words (Some (lit "Google")) (Num (9 # 10))]
          [])
       (<[5%N := setCurrentMTProvider
                   (Sample.state 5 Sample.ten_words (Some (lit "Google"))
                      (Num (9 # 10)))
                   (Some (lit "source"))]>
          (sections
             (Sample.tracker
                [Sample.state 5 Sample.ten_words (Some (lit "Google"))
                   (Num (9 # 10))] [])))) 5
  = Some true.
Proof.
  apply (validateForMTAbuse_source_stricter (uls := Sample.uls));
    reflexivity.
Defined.

(** ** Nodes with issues: how calls compose *)

Lemma setTranslationIssues_elem_of (t : Tracker) (id other : NodeId)
    (state : bool) :
  ordered (nodesWithIssues t) ->
  other ∈ nodesWithIssues (setTranslationIssues t id state)
  <-> if state then other = id \/ other ∈ nodesWithIssues t
      else other ≠ id /\ other ∈ nodesWithIssues t.
Proof.
  intros Hord. rewrite setTranslationIssues_nodes.
  destruct (decide (id ∈ nodesWithIssues t)) as [Hin|Hout], state.
  - split; [auto | intros [->|?]; done].
  - apply delete_indexOf_elem_of; [by apply ordered_NoDup | done].
  - rewrite sort_push by done. apply sort_insert_elem_of.
  - split; [|tauto]. intros Hother. split; [|done]. by intros ->.
Qed.

Lemma ordered_same_elements (nodes nodes' : list NodeId) :
  ordered nodes -> ordered nodes' ->
  (forall id, id ∈ nodes <-> id ∈ nodes') ->
  nodes = nodes'.
Proof.
  intros Hord Hord' Hsame.
  apply (StronglySorted_unique_strong precedes); [|done|done|].
  - intros a b _ _ Hab Hba.
    destruct (precedes_irrefl a (precedes_trans _ _ _ Hab Hba)).
  - apply NoDup_Permutation; [by apply ordered_NoDup..|done].
Qed.

(** X4: the order in which two nodes are reported does not matter: from an
    ordered array, setting the issues of [a] then of [b] leaves the same
    array as setting those of [b] then of [a]. *)
Theorem setTranslationIssues_commute (t : Tracker) (a b : NodeId)
    (stateA stateB : bool) :
  ordered (nodesWithIssues t) ->
  a ≠ b ->
  nodesWithIssues
    (setTranslationIssues (setTranslationIssues t a stateA) b stateB)
  = nodesWithIssues
      (setTranslationIssues (setTranslationIssues t b stateB) a stateA).
Proof.
  intros Hord Hab.
  pose proof (setTranslationIssues_preserves t a stateA Hord) as HordA.
  pose proof (setTranslationIssues_preserves t b stateB Hord) as HordB.
  apply ordered_same_elements.
  - by apply setTranslationIssues_preserves.
  - by apply setTranslationIssues_preserves.
  - intros id.
    rewrite (setTranslationIssues_elem_of _ b id stateB HordA).
    rewrite (setTranslationIssues_elem_of _ a id stateA HordB).
    pose proof (setTranslationIssues_elem_of t a id stateA Hord) as Ha.
    pose proof (setTranslationIssues_elem_of t b id stateB Hord) as Hb.
    destruct stateA, stateB; rewrite Ha, Hb;
      (split; [intros; destruct_or?; destruct_and?; subst; auto
              | intros; destruct_or?; destruct_and?; subst; auto]);
      try (split; [congruence | auto]); try (split; [congruence | tauto]);
      tauto.
Qed.

Lemma setTranslationIssues_commute_witness :
  nodesWithIssues
    (setTranslationIssues
       (setTranslationIssues
          (with_nodesWithIssues (MwCXTranslationTracker (lit "en") (lit "es"))
             [global; section 3])
          (section 1) true) title true)
  = nodesWithIssues
      (setTranslationIssues
         (setTranslationIssues
            (with_nodesWithIssues (MwCXTranslationTracker (lit "en") (lit "es"))
               [global; section 3])
            title true) (section 1) true).
Proof.
  apply setTranslationIssues_commute.
  - repeat constructor.
  - discriminate.
Defined.

(** X5: reporting a node that was not in the array and then resolving it
    gives the array back. *)
Theorem setTranslationIssues_add_remove (t : Tracker) (id : NodeId) :
  ordered (nodesWithIssues t) ->
  id ∉ nodesWithIssues t ->
  nodesWithIssues (setTranslationIssues (setTranslationIssues t id true) id false)
  = nodesWithIssues t.
Proof.
  intros Hord Hout.
  pose proof (setTranslationIssues_preserves t id true Hord) as Hord'.
  apply ordered_same_elements; [by apply setTranslationIssues_preserves|done|].
  intros other.
  rewrite (setTranslationIssues_elem_of _ id other false Hord').
  rewrite (setTranslationIssues_elem_of t id other true Hord).
  split; [intros [? [?|?]]; done|].
  intros Hin. split; [by intros ->|by right].
Qed.

Lemma setTranslationIssues_add_remove_witness :
  nodesWithIssues
    (setTranslationIssues
       (setTranslationIssues
          (with_nodesWithIssues (MwCXTranslationTracker (lit "en") (lit "es"))
             [global; section 3])
          title true) title false)
  = [global; section 3].
Proof.
  apply (setTranslationIssues_add_remove
           (with_nodesWithIssues (MwCXTranslationTracker (lit "en") (lit "es"))
              [global; section 3])).
  - repeat constructor.
  - intros Hin. apply elem_of_cons in Hin as [?|Hin]; [done|].
    apply elem_of_cons in Hin as [?|Hin]; [done|]. inversion Hin.
Defined.

(** ** Queues *)

Lemma indexOf_app_fresh {A} `{EqDecision A} (array : list A) (x : A) :
  x ∉ array -> indexOf (array ++ [x]) x = Z.of_nat (length array).
Proof.
  induction array as [|y rest IH]; intros Hout; simpl.
  - by rewrite decide_True.
  - apply not_elem_of_cons in Hout as [Hne Hout].
    rewrite decide_False by done. rewrite IH by done.
    destruct (Z.ltb_spec (Z.of_nat (length rest)) 0); lia.
Qed.

Lemma delete_last {A} (array : list A) (x : A) :
  delete (length array) (array ++ [x]) = array.
Proof. induction array as [|y rest IH]; simpl; [done | by rewrite IH]. Qed.

Lemma delete_indexOf_gone {A} `{EqDecision A} (array : list A) (x y : A) :
  NoDup array -> x ∈ array ->
  y ∈ delete (Z.to_nat (indexOf array x)) array <-> y ≠ x /\ y ∈ array.
Proof.
  induction 1 as [|z l Hz Hl IH]; intros Hx; [inversion Hx|].
  simpl. destruct (decide (z = x)) as [->|Hne].
  - simpl. split; [|intros [? ?%elem_of_cons]; tauto].
    intros Hy. split; [congruence | by right].
  - apply elem_of_cons in Hx as [?|Hx]; [congruence|].
    pose proof (proj2 (indexOf_found l x) Hx) as Hidx.
    destruct (Z.ltb_spec (indexOf l x) 0); [lia|].
    replace (Z.to_nat (indexOf l x + 1)) with (S (Z.to_nat (indexOf l x)))
      by lia.
    simpl. rewrite !elem_of_cons, IH by done.
    split; [intros [->|[? ?]]; auto | intros [? [?|?]]; auto].
Qed.

Lemma NoDup_delete {A} (i : nat) (array : list A) :
  NoDup array -> NoDup (delete i array).
Proof.
  intros Hnd. eapply sublist_NoDup; [exact Hnd | apply sublist_delete].
Qed.

Lemma NoDup_push {A} (array : list A) (x : A) :
  NoDup array -> x ∉ array -> NoDup (push array x).
Proof.
  intros Hnd Hout. unfold push. apply NoDup_app. split; [done|].
  split; [|apply NoDup_singleton].
  intros y Hy Hyx. apply list_elem_of_singleton in Hyx as ->. done.
Qed.

(** X6: the change queue is a set: after [pushToChangeQueue] the section is
    in the queue, pushing it again changes nothing, the queue gains no
    duplicate and no other entry. *)
Theorem pushToChangeQueue_set (t : Tracker) (n : N) :
  isSectionInChangeQueue (pushToChangeQueue t n) n = true
  /\ pushToChangeQueue (pushToChangeQueue t n) n = pushToChangeQueue t n
  /\ (NoDup (changeQueue t) -> NoDup (changeQueue (pushToChangeQueue t n)))
  /\ (forall m, m ∈ changeQueue (pushToChangeQueue t n)
                <-> m = n \/ m ∈ changeQueue t).
Proof.
  assert (Hin : isSectionInChangeQueue (pushToChangeQueue t n) n = true).
  { unfold pushToChangeQueue, isSectionInChangeQueue.
    destruct (Z.leb_spec 0 (indexOf (changeQueue t) n)) as [Hge|Hlt]; simpl.
    - by apply Z.leb_le.
    - apply Z.leb_le, indexOf_found. unfold push.
      apply elem_of_app. right. left. }
  split; [done|]. split; [|split].
  - unfold pushToChangeQueue at 1. by rewrite Hin.
  - intros Hnd. unfold pushToChangeQueue, isSectionInChangeQueue.
    destruct (Z.leb_spec 0 (indexOf (changeQueue t) n)) as [Hge|Hlt]; simpl;
      [done|].
    apply NoDup_push; [done|]. apply indexOf_missing.
    pose proof (indexOf_lower (changeQueue t) n). lia.
  - intros m. unfold pushToChangeQueue, isSectionInChangeQueue.
    destruct (Z.leb_spec 0 (indexOf (changeQueue t) n)) as [Hge|Hlt]; simpl.
    + apply indexOf_found in Hge. split; [auto | intros [->|?]; done].
    + unfold push. rewrite elem_of_app, list_elem_of_singleton. tauto.
Qed.

Lemma pushToChangeQueue_set_witness :
  changeQueue
    (pushToChangeQueue
       (pushToChangeQueue (MwCXTranslationTracker (lit "en") (lit "es")) 4) 4)
  = [4%N]
  /\ NoDup (changeQueue
              (pushToChangeQueue
                 (MwCXTranslationTracker (lit "en") (lit "es")) 4)).
Proof.
  split.
  - rewrite (proj1 (proj2 (pushToChangeQueue_set
                             (MwCXTranslationTracker (lit "en") (lit "es")) 4))).
    reflexivity.
  - apply (pushToChangeQueue_set (MwCXTranslationTracker (lit "en") (lit "es"))).
    constructor.
Defined.

(** X7: the save queue is a set one can take from: pushing a section that
    is not queued and removing it gives the queue back; removing a queued
    section leaves a queue without it and without duplicates; removing a
    section that is not queued changes nothing. *)
Theorem saveQueue_push_remove (t : Tracker) (n : N) :
  (n ∉ saveQueue t ->
     saveQueue (removeSectionFromSaveQueue (pushToSaveQueue t n) n) = saveQueue t
     /\ removeSectionFromSaveQueue t n = t)
  /\ (NoDup (saveQueue t) ->
        NoDup (saveQueue (pushToSaveQueue t n))
        /\ NoDup (saveQueue (removeSectionFromSaveQueue t n))
        /\ (n ∉ saveQueue (removeSectionFromSaveQueue t n))
        /\ forall m, m ≠ n ->
             (m ∈ saveQueue (removeSectionFromSaveQueue t n) <-> m ∈ saveQueue t)).
Proof.
  split.
  - intros Hout. pose proof (proj2 (indexOf_missing _ _) Hout) as Hidx.
    split.
    + unfold pushToSaveQueue, isSectionInSaveQueue. rewrite Hidx. simpl.
      unfold removeSectionFromSaveQueue, push. simpl.
      rewrite indexOf_app_fresh by done.
      destruct (Z.leb_spec 0 (Z.of_nat (length (saveQueue t)))); [|lia].
      simpl. unfold splice1. rewrite Nat2Z.id. apply delete_last.
    + unfold removeSectionFromSaveQueue. by rewrite Hidx.
  - intros Hnd. split; [|].
    + unfold pushToSaveQueue, isSectionInSaveQueue.
      destruct (Z.leb_spec 0 (indexOf (saveQueue t) n)) as [Hge|Hlt]; simpl;
        [done|].
      apply NoDup_push; [done|]. apply indexOf_missing.
      pose proof (indexOf_lower (saveQueue t) n). lia.
    + unfold removeSectionFromSaveQueue.
      destruct (Z.leb_spec 0 (indexOf (saveQueue t) n)) as [Hge|Hlt]; simpl.
      * apply indexOf_found in Hge. unfold splice1.
        split; [by apply NoDup_delete|]. split.
        -- rewrite delete_indexOf_gone by done. tauto.
        -- intros m Hm. rewrite delete_indexOf_gone by done. tauto.
      * split; [done|]. split; [|done].
        apply indexOf_missing. pose proof (indexOf_lower (saveQueue t) n). lia.
Qed.

Lemma saveQueue_push_remove_witness :
  saveQueue
    (removeSectionFromSaveQueue
       (pushToSaveQueue
          (with_saveQueue (MwCXTranslationTracker (lit "en") (lit "es")) [2%N; 7%N])
          4) 4)
  = [2%N; 7%N]
  /\ (4%N ∉ saveQueue
        (removeSectionFromSaveQueue
           (with_saveQueue (MwCXTranslationTracker (lit "en") (lit "es"))
              [2%N; 4%N; 7%N]) 4)).
Proof.
  split.
  - apply (saveQueue_push_remove
             (with_saveQueue (MwCXTranslationTracker (lit "en") (lit "es"))
                [2%N; 7%N]) 4).
    apply indexOf_missing. reflexivity.
  - apply (saveQueue_push_remove
             (with_saveQueue (MwCXTranslationTracker (lit "en") (lit "es"))
                [2%N; 4%N; 7%N]) 4).
    apply (bool_decide_unpack (NoDup [2%N; 4%N; 7%N])). vm_compute. exact I.
Defined.

(** ** The validation flush *)

Lemma foldl_emit_fields (t : Tracker) (evs : list Event) :
  sections (foldl emit t evs) = sections t
  /\ sourceLanguage (foldl emit t evs) = sourceLanguage t
  /\ targetLanguage (foldl emit t evs) = targetLanguage t
  /\ validationDelayQueue (foldl emit t evs) = validationDelayQueue t
  /\ changeQueue (foldl emit t evs) = changeQueue t
  /\ saveQueue (foldl emit t evs) = saveQueue t
  /\ nodesWithIssues (foldl emit t evs) = nodesWithIssues t
  /\ lastFocusedSection (foldl emit t evs) = lastFocusedSection t
  /\ events (foldl emit t evs) = events t ++ evs.
Proof.
  revert t. induction evs as [|e evs IH]; intros t; simpl.
  - by rewrite app_nil_r.
  - destruct (IH (emit t e)) as (-> & -> & -> & -> & -> & -> & -> & -> & ->).
    simpl. by rewrite <- app_assoc.
Qed.

Lemma foldl_emit_requeue (t : Tracker) (q q' : list N) (evs : list Event) :
  with_validationDelayQueue (foldl emit (with_validationDelayQueue t q) evs) q'
  = with_validationDelayQueue (foldl emit t evs) q'.
Proof.
  revert t. induction evs as [|e evs IH]; intros t; simpl; [done|].
  by rewrite <- (IH (emit t e)).
Qed.

Section FlushFacts.
Context {uls : ULSData} {dom : DOM} {ve : VETarget}.

Lemma validateForMTAbuse_ext (t t' : Tracker) (m : N) :
  sections t' = sections t -> sourceLanguage t' = sourceLanguage t ->
  validateForMTAbuse t' m = validateForMTAbuse t m.
Proof. intros Hs Hl. unfold validateForMTAbuse. by rewrite Hs, Hl. Qed.

Lemma reportOf_ext (t t' : Tracker) (m : N) :
  sections t' = sections t -> sourceLanguage t' = sourceLanguage t ->
  reportOf t' m = reportOf t m.
Proof.
  intros Hs Hl. unfold reportOf.
  by rewrite (validateForMTAbuse_ext t t' m Hs Hl).
Qed.

(** One turn of the loop on a section that can be checked. *)
Lemma processValidationQueue_body_exact (t : Tracker) (q : list N) (m : N) :
  validationDelayQueue t = q ++ [m] ->
  checkable t m ->
  processValidationQueue_body t (length q)
  = Some (with_validationDelayQueue (foldl emit t (reportOf t m)) q).
Proof.
  intros Hq (origin & content & childType & Hnode & Hcase).
  unfold processValidationQueue_body, reportOf.
  rewrite Hq, list_lookup_middle by done. cbn [mbind option_bind].
  rewrite Hnode. unfold isExcludedFromValidation. cbn [mbind option_bind].
  unfold splice1.
  destruct (0 <=? indexOf excludedTypes childType) eqn:Hexcluded.
  { cbn [mbind option_bind foldl]. by rewrite Hq, delete_last. }
  destruct Hcase as [?|(st & src & Hst & Hsrc)]; [done|].
  unfold validateForMTAbuse. rewrite Hst. cbn [mbind option_bind].
  rewrite Hsrc. cbn [mbind option_bind].
  destruct (_ <? _)%nat; cbn [mbind option_bind].
  - cbn [clearMTAbuseWarning validationDelayQueue emit foldl].
    by rewrite Hq, delete_last.
  - destruct (num_gt _ _); cbn [mbind option_bind].
    + unfold setMTAbuseWarning. rewrite Hst.
      cbn [mbind option_bind validationDelayQueue emit foldl].
      by rewrite Hq, delete_last.
    + cbn [clearMTAbuseWarning validationDelayQueue emit foldl].
      by rewrite Hq, delete_last.
Qed.

Lemma processValidationQueue_loop_exact (q : list N) (t : Tracker) :
  validationDelayQueue t = q ->
  (forall m, m ∈ q -> checkable t m) ->
  processValidationQueue_loop (length q) t
  = Some (with_validationDelayQueue
            (foldl emit t (concat (reportOf t <$> reverse q))) []).
Proof.
  revert t. induction q as [|m q IH] using rev_ind; intros t Hq Hall.
  - simpl. destruct t. simpl in Hq. by subst.
  - rewrite length_app. simpl. rewrite Nat.add_1_r. simpl.
    rewrite (processValidationQueue_body_exact t q m) by
      (done || (apply Hall, elem_of_app; right; left)).
    cbn [mbind option_bind].
    pose proof (foldl_emit_fields t (reportOf t m))
      as (Hs & Hl & _).
    rewrite IH; [|done|].
    + f_equal. rewrite foldl_emit_requeue.
      rewrite reverse_snoc, fmap_cons, concat_cons, foldl_app.
      f_equal. f_equal. f_equal. apply list_fmap_ext. intros _ k _.
      by apply reportOf_ext.
    + intros k Hk.
      destruct (Hall k) as (origin & content & childType & Hnode & Hcase);
        [apply elem_of_app; by left|].
      exists origin, content, childType. split; [done|].
      destruct Hcase as [?|(st & src & Hst & Hsrc)]; [by left|].
      right. exists st, src. cbn [sections with_validationDelayQueue].
      by rewrite Hs.
Qed.

Lemma processValidationQueue_body_null (t : Tracker) (i : nat) (m : N) :
  validationDelayQueue t !! i = Some m ->
  getTargetSectionNodeFromSectionNumber m = None ->
  processValidationQueue_body t i = None.
Proof.
  intros Hm Hnode. unfold processValidationQueue_body.
  rewrite Hm. cbn [mbind option_bind]. by rewrite Hnode.
Qed.

Lemma processValidationQueue_loop_null (q : list N) (t : Tracker) (m : N) :
  validationDelayQueue t = q ->
  m ∈ q ->
  getTargetSectionNodeFromSectionNumber m = None ->
  processValidationQueue_loop (length q) t = None.
Proof.
  revert t. induction q as [|k q IH] using rev_ind; intros t Hq Hm Hnode.
  - inversion Hm.
  - rewrite length_app. simpl. rewrite Nat.add_1_r. simpl.
    assert (Hk : validationDelayQueue t !! length q = Some k)
      by (rewrite Hq; by apply list_lookup_middle).
    destruct (processValidationQueue_body t (length q)) as [t1|] eqn:Hbody;
      [|done].
    cbn [mbind option_bind].
    destruct (processValidationQueue_body_spec t t1 (length q) k Hk Hbody)
      as (_ & Hq1 & _).
    rewrite Hq in Hq1. rewrite delete_last in Hq1.
    apply elem_of_app in Hm as [Hm|Hm].
    + by apply IH.
    + apply list_elem_of_singleton in Hm as ->.
      by rewrite (processValidationQueue_body_null t (length q) k) in Hbody.
Qed.

End FlushFacts.

(** X8: when every queued section can be checked, [processValidationQueue]
    empties the queue, reports the sections last queued first, each with
    the warning or its resolution (nothing for an excluded node type), and
    changes nothing else; validating again right away changes nothing. *)
Theorem processValidationQueue_drain
    {uls : ULSData} {ve : VETarget} (t : Tracker) :
  (forall m, m ∈ validationDelayQueue t -> checkable t m) ->
  processValidationQueue t
  = Some (with_validationDelayQueue
            (foldl emit t
               (concat (reportOf t <$> reverse (validationDelayQueue t)))) [])
  /\ forall t', processValidationQueue t = Some t' ->
                processValidationQueue t' = Some t'.
Proof.
  intros Hall.
  pose proof (processValidationQueue_loop_exact (validationDelayQueue t) t
                eq_refl Hall) as Hrun.
  split; [exact Hrun|].
  intros t' Ht'. unfold processValidationQueue in Ht'.
  rewrite Hrun in Ht'. injection Ht' as <-. reflexivity.
Qed.

Lemma processValidationQueue_drain_witness :
  events <$> processValidationQueue (uls := Sample.uls) (ve := Sample.target)
    (Sample.tracker
       [Sample.state 5 Sample.ten_words (Some (lit "Google")) (Num 1);
        Sample.state 6 Sample.ten_words (Some (lit "Google")) (Num (1 # 2))]
       [5%N; 6%N])
  = Some [ResolveTranslationIssues 6 (lit "mt-abuse");
          AddTranslationIssues 5 (lit "mt-abuse")].
Proof.
  set (t := Sample.tracker _ _).
  assert (Hall : forall m, m ∈ validationDelayQueue t ->
                           checkable (ve := Sample.target) t m).
  { intros m Hm. apply elem_of_cons in Hm as [->|Hm];
      [|apply list_elem_of_singleton in Hm as ->].
    - eexists _, _, _. split; [reflexivity|]. right.
      eexists _, _. split; reflexivity.
    - eexists _, _, _. split; [reflexivity|]. right.
      eexists _, _. split; reflexivity. }
  rewrite (proj1 (processValidationQueue_drain (uls := Sample.uls)
                    (ve := Sample.target) t Hall)).
  reflexivity.
Defined.

(** X9: a queued section whose node is gone from the target document makes
    [processValidationQueue] raise: the node's type is asked of [null]. *)
Theorem processValidationQueue_raises
    {uls : ULSData} {ve : VETarget} (t : Tracker) (m : N) :
  m ∈ validationDelayQueue t ->
  getTargetSectionNodeFromSectionNumber m = None ->
  processValidationQueue t = None.
Proof.
  intros Hm Hnode.
  by apply (processValidationQueue_loop_null (validationDelayQueue t) t m).
Qed.

Lemma processValidationQueue_raises_witness :
  processValidationQueue (uls := Sample.uls) (ve := Sample.target)
    (Sample.tracker
       [Sample.state 5 Sample.ten_words (Some (lit "Google")) (Num 1);
        Sample.state 9 Sample.ten_words (Some (lit "Google")) (Num 1)]
       [9%N; 5%N])
  = None.
Proof.
  apply (processValidationQueue_raises (uls := Sample.uls)
           (ve := Sample.target) _ 9).
  - left.
  - reflexivity.
Defined.

(** X10: sections whose child node is an image, a transclusion, a references
    list, a table, a list or a heading are never validated: a queue of such
    sections is emptied without any report, whatever their states. *)
Theorem processValidationQueue_excluded
    {uls : ULSData} {ve : VETarget} (t : Tracker) :
  (forall m, m ∈ validationDelayQueue t ->
     exists origin content childType,
       getTargetSectionNodeFromSectionNumber m
       = Some (CXSectionNode origin content childType)
       /\ childType ∈ excludedTypes) ->
  processValidationQueue t = Some (with_validationDelayQueue t []).
Proof.
  intros Hall. unfold processValidationQueue.
  rewrite (processValidationQueue_loop_exact (validationDelayQueue t) t eq_refl).
  - assert (Hnone : forall q : list N,
               (forall m, m ∈ q -> m ∈ validationDelayQueue t) ->
               concat (reportOf t <$> q) = []).
    { induction q as [|m q IH]; intros Hq; [done|].
      rewrite fmap_cons, concat_cons.
      rewrite IH by (intros k Hk; apply Hq; by right).
      rewrite app_nil_r.
      destruct (Hall m) as (origin & content & childType & Hnode & Hex);
        [apply Hq; left|].
      unfold reportOf. rewrite Hnode.
      apply indexOf_found, Z.leb_le in Hex. by rewrite Hex. }
    rewrite Hnone; [done|]. intros m Hm. by apply elem_of_reverse.
  - intros m Hm.
    destruct (Hall m Hm) as (origin & content & childType & Hnode & Hex).
    exists origin, content, childType. split; [done|]. left.
    by apply Z.leb_le, indexOf_found.
Qed.

Lemma processValidationQueue_excluded_witness :
  processValidationQueue (uls := Sample.uls) (ve := Fixture.target)
    (Sample.tracker [] [1%N; 2%N])
  = Some (Sample.tracker [] []).
Proof.
  rewrite (processValidationQueue_excluded (uls := Sample.uls)
             (ve := Fixture.target) (Sample.tracker [] [1%N; 2%N])).
  - reflexivity.
  - intros m Hm. apply elem_of_cons in Hm as [->|Hm];
      [|apply list_elem_of_singleton in Hm as ->].
    + eexists _, _, _. split; [reflexivity|].
      apply indexOf_found. vm_compute. discriminate.
    + eexists _, _, _. split; [reflexivity|].
      apply indexOf_found. vm_compute. discriminate.
Defined.



(** ** The change handler, path by path *)

Lemma same_setting_refl (t : Tracker) : same_setting t t.
Proof. by repeat split. Qed.

Lemma same_setting_trans (t1 t2 t3 : Tracker) :
  same_setting t1 t2 -> same_setting t2 t3 -> same_setting t1 t3.
Proof.
  intros (? & ? & ? & ? & ?) (? & ? & ? & ? & ?).
  repeat split; congruence.
Qed.

Section HandlerFacts.
Context {uls : ULSData} {dom : DOM} {ve : VETarget}.

Lemma processValidationQueue_body_frame (t t' : Tracker) (i : nat) :
  processValidationQueue_body t i = Some t' ->
  same_setting t t' /\ saveQueue t' = saveQueue t.
Proof.
  unfold processValidationQueue_body.
  destruct (validationDelayQueue t !! i) as [m|]; cbn [mbind option_bind];
    [|done].
  destruct (isExcludedFromValidation (getTargetSectionNodeFromSectionNumber m))
    as [[|]|]; cbn [mbind option_bind]; [| |done].
  - intros [= <-]. by repeat split.
  - destruct (validateForMTAbuse t m) as [[|]|]; cbn [mbind option_bind];
      [| |done].
    + unfold setMTAbuseWarning.
      destruct (getTargetSectionNodeFromSectionNumber m) as [[? ? ?|]|];
        [|done|done].
      destruct (sections t !! m); cbn [mbind option_bind]; [|done].
      intros [= <-]. by repeat split.
    + unfold clearMTAbuseWarning.
      destruct (getTargetSectionNodeFromSectionNumber m) as [[? ? ?|]|];
        intros [= <-]; by repeat split.
Qed.

Lemma processValidationQueue_frame (t t' : Tracker) :
  processValidationQueue t = Some t' ->
  same_setting t t' /\ saveQueue t' = saveQueue t.
Proof.
  unfold processValidationQueue.
  generalize (length (validationDelayQueue t)) as i. intros i. revert t.
  induction i as [|i IH]; intros t; simpl.
  - intros [= <-]. split; [apply same_setting_refl | done].
  - destruct (processValidationQueue_body t i) as [t1|] eqn:Hbody;
      cbn [mbind option_bind]; [|done].
    intros Hloop.
    destruct (processValidationQueue_body_frame t t1 i Hbody) as (H1 & Hs1).
    destruct (IH t1 Hloop) as (H2 & Hs2).
    split; [by eapply same_setting_trans | congruence].
Qed.

(** The section state the handler stores for a section node, before the
    progress is recomputed. *)
Lemma processSectionChange_section (t : Tracker) (n : N)
    (sectionState : SectionState)
    (origin : option jsstring) (content child : jsstring) :
  getTargetSectionNodeFromSectionNumber n
  = Some (CXSectionNode origin content child) ->
  sections t !! n = Some sectionState ->
  exists stored,
    currentProvider stored = origin
    /\ html (userTranslation stored) = Some content
    /\ source stored = source sectionState
    /\ sectionNumber stored = sectionNumber sectionState
    /\ unmodifiedMT stored
       = (if falsy (html (unmodifiedMT sectionState))
          then content_of (Some content) else unmodifiedMT sectionState)
    /\ processSectionChange t n
       = (t1 ← updateSectionProgress
                 (emit (with_sections t (<[n := stored]> (sections t)))
                       (SetHasUserModifications n (isModified stored))) n;
          if bool_decide (currentProvider sectionState ≠ origin)
          then t2 ← processValidationQueue t1;
               Some (pushToValidationQueue t2 n)
          else Some (validationScheduler (pushToValidationQueue t1 n))).
Proof.
  intros Hnode Hstate. unfold processSectionChange.
  rewrite Hnode, Hstate. cbn [mbind option_bind].
  unfold detectProviderChange.
  destruct (decide (currentProvider sectionState ≠ origin)) as [Hfresh|Hsame].
  - rewrite bool_decide_eq_true_2 by done.
    cbn [unmodifiedMT userTranslation setUserTranslation setCurrentMTProvider
         html content_of].
    destruct (falsy (html (unmodifiedMT sectionState)));
      (case_decide; [|done]); eexists;
      (split; [|split; [|split; [|split; [|split]]]]);
      [| | | | |reflexivity| | | | | |reflexivity]; done.
  - rewrite bool_decide_eq_false_2 by done. apply dec_stable in Hsame.
    cbn [unmodifiedMT userTranslation].
    destruct (falsy (html (unmodifiedMT sectionState)));
      destruct (decide (Some content ≠ html (userTranslation sectionState)))
        as [Hnew|Hold]; try apply dec_stable in Hold.
    + eexists. split; [|split; [|split; [|split; [|split]]]];
        [| | | | |reflexivity]; done.
    + eexists. split; [|split; [|split; [|split; [|split]]]];
        [| | | | |reflexivity]; done.
    + eexists. split; [|split; [|split; [|split; [|split]]]];
        [| | | | |reflexivity]; done.
    + eexists. split; [|split; [|split; [|split; [|split]]]];
        [| | | | |reflexivity]; done.
Qed.

End HandlerFacts.

Lemma updateSectionProgress_derived {uls : ULSData} (t : Tracker) (n : N)
    (sectionState : SectionState) :
  sections t !! n = Some sectionState ->
  exists sectionState',
    updateSectionProgress t n
    = Some (with_sections t (<[n := sectionState']> (sections t)))
    /\ currentProvider sectionState' = currentProvider sectionState
    /\ userTranslation sectionState' = userTranslation sectionState
    /\ unmodifiedMT sectionState' = unmodifiedMT sectionState
    /\ source sectionState' = source sectionState
    /\ sectionNumber sectionState' = sectionNumber sectionState
    /\ derived_fresh (targetLanguage t) sectionState'.
Proof.
  intros Hstate. unfold updateSectionProgress. rewrite Hstate.
  cbn [mbind option_bind]. eexists. split; [reflexivity|].
  by repeat split.
Qed.

Lemma pushToValidationQueue_queue (t : Tracker) (n : N) :
  validationDelayQueue (pushToValidationQueue t n)
  = (if decide (n ∈ validationDelayQueue t)
     then validationDelayQueue t else validationDelayQueue t ++ [n])
  /\ sections (pushToValidationQueue t n) = sections t
  /\ events (pushToValidationQueue t n) = events t
  /\ saveQueue (pushToValidationQueue t n) = saveQueue t
  /\ same_setting t (pushToValidationQueue t n).
Proof.
  unfold pushToValidationQueue.
  destruct (decide (n ∈ validationDelayQueue t)) as [Hin|Hout].
  - apply indexOf_found in Hin.
    destruct (Z.ltb_spec (indexOf (validationDelayQueue t) n) 0); [lia|].
    by repeat split.
  - apply indexOf_missing in Hout. rewrite Hout. by repeat split.
Qed.

Section HandlerSummary.
Context {uls : ULSData} {dom : DOM} {ve : VETarget}.

(** Everything a successful call on a section node leaves behind. *)
Lemma processSectionChange_section_summary (t t' : Tracker) (n : N)
    (sectionState : SectionState)
    (origin : option jsstring) (content child : jsstring) :
  getTargetSectionNodeFromSectionNumber n
  = Some (CXSectionNode origin content child) ->
  sections t !! n = Some sectionState ->
  processSectionChange t n = Some t' ->
  exists sectionState' modified,
    sections t' = <[n := sectionState']> (sections t)
    /\ currentProvider sectionState' = origin
    /\ html (userTranslation sectionState') = Some content
    /\ source sectionState' = source sectionState
    /\ sectionNumber sectionState' = sectionNumber sectionState
    /\ unmodifiedMT sectionState'
       = (if falsy (html (unmodifiedMT sectionState))
          then content_of (Some content) else unmodifiedMT sectionState)
    /\ derived_fresh (targetLanguage t) sectionState'
    /\ same_setting t t'
    /\ saveQueue t' = saveQueue t
    /\ validationDelayQueue t'
       = (if bool_decide (currentProvider sectionState ≠ origin) then [n]
          else if decide (n ∈ validationDelayQueue t)
               then validationDelayQueue t
               else validationDelayQueue t ++ [n])
    /\ (currentProvider sectionState = origin ->
        events t' = events t ++ [SetHasUserModifications n modified;
                                 ValidationScheduled]).
Proof.
  intros Hnode Hstate.
  destruct (processSectionChange_section t n sectionState origin content child
              Hnode Hstate)
    as (stored & Hprov & Huser & Hsrc & Hnum & Hmt & ->).
  set (t0 := emit (with_sections t (<[n := stored]> (sections t)))
                  (SetHasUserModifications n (isModified stored))).
  destruct (updateSectionProgress_derived t0 n stored)
    as (st' & -> & Hprov' & Huser' & Hmt' & Hsrc' & Hnum' & Hderived);
    [apply lookup_insert_eq|].
  cbn [mbind option_bind].
  set (t1 := with_sections t0 (<[n := st']> (sections t0))).
  assert (Hsections1 : sections t1 = <[n := st']> (sections t)).
  { subst t1 t0. cbn [sections with_sections emit].
    by rewrite insert_insert_eq. }
  assert (Hfacts : currentProvider st' = origin
                   /\ html (userTranslation st') = Some content
                   /\ source st' = source sectionState
                   /\ sectionNumber st' = sectionNumber sectionState
                   /\ unmodifiedMT st'
                      = (if falsy (html (unmodifiedMT sectionState))
                         then content_of (Some content)
                         else unmodifiedMT sectionState)
                   /\ derived_fresh (targetLanguage t) st').
  { repeat split; try congruence; apply Hderived. }
  destruct Hfacts as (F1 & F2 & F3 & F4 & F5 & F6).
  destruct (bool_decide (currentProvider sectionState ≠ origin)) eqn:Hfresh.
  - destruct (processValidationQueue t1) as [t2|] eqn:Hflush;
      cbn [mbind option_bind]; [|done].
    intros [= <-].
    destruct (processValidationQueue_loop_spec _ t1 t2 eq_refl Hflush)
      as (Hs2 & Hq2 & _).
    destruct (processValidationQueue_frame t1 t2 Hflush) as (Hset2 & Hsave2).
    destruct (pushToValidationQueue_queue t2 n)
      as (Hq3 & Hs3 & _ & Hsave3 & Hset3).
    exists st', (isModified stored).
    rewrite Hq3, Hs3, Hs2, Hq2, Hsave3, Hsave2.
    split; [done|]. do 6 (split; [done|]).
    split; [|split; [done|split]].
    + eapply same_setting_trans; [|exact Hset3].
      eapply same_setting_trans; [|exact Hset2]. by repeat split.
    + rewrite decide_False; [done|]. intros Hin. inversion Hin.
    + intros Hsame. apply bool_decide_eq_true in Hfresh. done.
  - intros [= <-].
    destruct (pushToValidationQueue_queue t1 n)
      as (Hq3 & Hs3 & Hev3 & Hsave3 & Hset3).
    exists st', (isModified stored).
    unfold validationScheduler.
    cbn [sections validationDelayQueue saveQueue events emit].
    rewrite Hq3, Hs3, Hev3, Hsave3.
    split; [done|]. do 6 (split; [done|]).
    split; [|split; [done|split; [done|]]].
    + destruct Hset3 as (? & ? & ? & ? & ?). by repeat split.
    + intros _. subst t1 t0. cbn [events with_sections emit].
      by rewrite <- app_assoc.
Qed.

End HandlerSummary.

Lemma removeSectionFromValidationQueue_queue (t : Tracker) (n : N) :
  sections (removeSectionFromValidationQueue t n) = sections t
  /\ events (removeSectionFromValidationQueue t n) = events t
  /\ saveQueue (removeSectionFromValidationQueue t n) = saveQueue t
  /\ same_setting t (removeSectionFromValidationQueue t n)
  /\ (NoDup (validationDelayQueue t) ->
      NoDup (validationDelayQueue (removeSectionFromValidationQueue t n))
      /\ forall m, m ∈ validationDelayQueue (removeSectionFromValidationQueue t n)
                   <-> m ≠ n /\ m ∈ validationDelayQueue t).
Proof.
  unfold removeSectionFromValidationQueue.
  destruct (Z.leb_spec 0 (indexOf (validationDelayQueue t) n)) as [Hge|Hlt].
  - do 4 (split; [by repeat split|]). intros Hnd.
    cbn [validationDelayQueue with_validationDelayQueue]. unfold splice1.
    apply indexOf_found in Hge.
    split; [by apply NoDup_delete|]. intros m.
    by apply delete_indexOf_gone.
  - do 4 (split; [by repeat split|]). intros Hnd. split; [done|].
    intros m. split; [|tauto]. intros Hm. split; [|done]. intros ->.
    apply indexOf_found in Hm. lia.
Qed.

Lemma removeSectionFromSaveQueue_queue (t : Tracker) (n : N) :
  sections (removeSectionFromSaveQueue t n) = sections t
  /\ events (removeSectionFromSaveQueue t n) = events t
  /\ validationDelayQueue (removeSectionFromSaveQueue t n)
     = validationDelayQueue t
  /\ same_setting t (removeSectionFromSaveQueue t n)
  /\ (NoDup (saveQueue t) ->
      forall m, m ∈ saveQueue (removeSectionFromSaveQueue t n)
                <-> m ≠ n /\ m ∈ saveQueue t).
Proof.
  unfold removeSectionFromSaveQueue.
  destruct (Z.leb_spec 0 (indexOf (saveQueue t) n)) as [Hge|Hlt].
  - do 4 (split; [by repeat split|]). intros Hnd m.
    cbn [saveQueue with_saveQueue]. unfold splice1.
    apply indexOf_found in Hge. by apply delete_indexOf_gone.
  - do 4 (split; [by repeat split|]). intros Hnd m.
    split; [|tauto]. intros Hm. split; [|done]. intros ->.
    apply indexOf_found in Hm. lia.
Qed.

(** X12: an edit that keeps the provider never raises and is never validated
    at once: the handler reports whether the section is modified, puts the
    section in the validation queue if it is not there, and schedules the
    debounced flush; the save queue is untouched. *)
Theorem processSectionChange_steady {uls : ULSData} {dom : DOM} {ve : VETarget}
    (t : Tracker) (n : N) (sectionState : SectionState)
    (origin : option jsstring) (content child : jsstring) :
  getTargetSectionNodeFromSectionNumber n
  = Some (CXSectionNode origin content child) ->
  sections t !! n = Some sectionState ->
  currentProvider sectionState = origin ->
  exists t' modified,
    processSectionChange t n = Some t'
    /\ validationDelayQueue t'
       = (if decide (n ∈ validationDelayQueue t)
          then validationDelayQueue t else validationDelayQueue t ++ [n])
    /\ events t' = events t ++ [SetHasUserModifications n modified;
                                ValidationScheduled]
    /\ saveQueue t' = saveQueue t.
Proof.
  intros Hnode Hstate Hsame.
  assert (Hrun : is_Some (processSectionChange t n)).
  { destruct (processSectionChange_section t n sectionState origin content
                child Hnode Hstate) as (stored & _ & _ & _ & _ & _ & ->).
    match goal with
    | |- context [updateSectionProgress ?t0 n] =>
        destruct (updateSectionProgress_derived t0 n stored)
          as (st' & -> & _); [apply lookup_insert_eq|]
    end.
    cbn [mbind option_bind].
    rewrite bool_decide_eq_false_2 by (intros Hne; done). done. }
  destruct Hrun as [t' Hrun].
  destruct (processSectionChange_section_summary t t' n sectionState origin
              content child Hnode Hstate Hrun)
    as (st' & modified & _ & _ & _ & _ & _ & _ & _ & _ & Hsave & Hq & Hev).
  exists t', modified. split; [done|].
  rewrite bool_decide_eq_false_2 in Hq by (intros Hne; done).
  split; [done|]. split; [by apply Hev | done].
Qed.

Lemma processSectionChange_steady_witness :
  exists t',
    processSectionChange (uls := Sample.uls) (dom := Sample.dom)
      (ve := Fixture.target)
      (Sample.tracker
         [Sample.state 5 Sample.ten_words (Some (lit "Google")) (Num 1)] [])
      5 = Some t'
    /\ validationDelayQueue t' = [5%N]
    /\ events t' = [SetHasUserModifications 5 true; ValidationScheduled].
Proof.
  destruct (processSectionChange_steady (uls := Sample.uls) (dom := Sample.dom)
              (ve := Fixture.target)
              (Sample.tracker
                 [Sample.state 5 Sample.ten_words (Some (lit "Google")) (Num 1)]
                 [])
              5
              (Sample.state 5 Sample.ten_words (Some (lit "Google")) (Num 1))
              (Some (lit "Google")) Fixture.edited_words (lit "paragraph")
              eq_refl eq_refl eq_refl)
    as (t' & modified & Hrun & Hq & Hev & _).
  exists t'. split; [exact Hrun|]. split; [exact Hq|].
  rewrite Hev. vm_compute in Hrun. injection Hrun as <-. simpl in Hev.
  injection Hev as <-. reflexivity.
Defined.

(** X13: when the section has become a placeholder (after an undo), the
    handler clears its provider, blanks its user translation and takes the
    section out of the save and validation queues, without telling the
    editor anything. *)
Theorem processSectionChange_placeholder
    {uls : ULSData} {dom : DOM} {ve : VETarget}
    (t : Tracker) (n : N) (sectionState : SectionState) :
  getTargetSectionNodeFromSectionNumber n = Some OtherNode ->
  sections t !! n = Some sectionState ->
  exists t',
    processSectionChange t n = Some t'
    /\ sections t'
       = <[n := setUserTranslation (setCurrentMTProvider sectionState None)
                  (Some [])]> (sections t)
    /\ events t' = events t
    /\ (NoDup (validationDelayQueue t) ->
        forall m, m ∈ validationDelayQueue t'
                  <-> m ≠ n /\ m ∈ validationDelayQueue t)
    /\ (NoDup (saveQueue t) ->
        forall m, m ∈ saveQueue t' <-> m ≠ n /\ m ∈ saveQueue t).
Proof.
  intros Hnode Hstate. unfold processSectionChange.
  rewrite Hnode, Hstate. cbn [mbind option_bind].
  eexists. split; [reflexivity|].
  match goal with
  | |- context [removeSectionFromSaveQueue ?t0 n] =>
      destruct (removeSectionFromSaveQueue_queue t0 n)
        as (Hs1 & He1 & Hq1 & _ & Hsave1);
      destruct (removeSectionFromValidationQueue_queue
                  (removeSectionFromSaveQueue t0 n) n)
        as (Hs2 & He2 & Hsave2 & _ & Hq2)
  end.
  rewrite Hs2, Hs1, He2, He1, Hsave2.
  split; [done|]. split; [done|]. split.
  - intros Hnd. rewrite Hq1 in Hq2. by destruct (Hq2 Hnd) as [_ Hmem].
  - intros Hnd. by apply Hsave1.
Qed.

Lemma processSectionChange_placeholder_witness :
  exists t',
    processSectionChange (uls := Sample.uls) (dom := Sample.dom)
      (ve := Fixture.target)
      (with_saveQueue
         (Sample.tracker
            [Sample.state 3 Sample.ten_words (Some (lit "Google")) (Num 1)]
            [3%N; 5%N])
         [3%N]) 3 = Some t'
    /\ validationDelayQueue t' = [5%N]
    /\ saveQueue t' = []
    /\ events t' = [].
Proof.
  destruct (processSectionChange_placeholder (uls := Sample.uls)
              (dom := Sample.dom) (ve := Fixture.target)
              (with_saveQueue
                 (Sample.tracker
                    [Sample.state 3 Sample.ten_words (Some (lit "Google"))
                       (Num 1)]
                    [3%N; 5%N])
                 [3%N]) 3
              (Sample.state 3 Sample.ten_words (Some (lit "Google")) (Num 1))
              eq_refl eq_refl)
    as (t' & Hrun & _ & Hev & _).
  exists t'. split; [exact Hrun|].
  vm_compute in Hrun. injection Hrun as <-. by repeat split.
Defined.

Lemma processSectionChange_keeps {uls : ULSData} {dom : DOM} {ve : VETarget}
    (t t' : Tracker) (n : N) :
  processSectionChange t n = Some t' ->
  same_setting t t'
  /\ (forall m, is_Some (sections t' !! m) <-> is_Some (sections t !! m))
  /\ (forall m, m ≠ n -> sections t' !! m = sections t !! m)
  /\ (forall sectionState sectionState',
        sections t !! n = Some sectionState ->
        sections t' !! n = Some sectionState' ->
        source sectionState' = source sectionState
        /\ sectionNumber sectionState' = sectionNumber sectionState).
Proof.
  intros Hrun.
  destruct (getTargetSectionNodeFromSectionNumber n)
    as [[origin content child|]|] eqn:Hnode.
  - destruct (sections t !! n) as [st|] eqn:Hstate.
    + destruct (processSectionChange_section_summary t t' n st origin content
                  child Hnode Hstate Hrun)
        as (st' & modified & Hs & _ & _ & Hsrc & Hnum & _ & _ & Hset & _).
      split; [done|]. rewrite Hs. split; [|split].
      * intros m. destruct (decide (m = n)) as [->|Hne].
        -- rewrite lookup_insert_eq, Hstate. by split; eexists.
        -- by rewrite lookup_insert_ne.
      * intros m Hne. by rewrite lookup_insert_ne.
      * intros s s' [= <-]. rewrite lookup_insert_eq. by intros [= <-].
    + unfold processSectionChange in Hrun. by rewrite Hnode, Hstate in Hrun.
  - destruct (sections t !! n) as [st|] eqn:Hstate.
    + unfold processSectionChange in Hrun.
      rewrite Hnode, Hstate in Hrun. cbn [mbind option_bind] in Hrun.
      injection Hrun as <-.
      match goal with
      | |- context [removeSectionFromSaveQueue ?t0 n] =>
          destruct (removeSectionFromSaveQueue_queue t0 n)
            as (Hs1 & _ & _ & Hset1 & _);
          destruct (removeSectionFromValidationQueue_queue
                      (removeSectionFromSaveQueue t0 n) n)
            as (Hs2 & _ & _ & Hset2 & _)
      end.
      split.
      * eapply same_setting_trans; [|exact Hset2].
        eapply same_setting_trans; [|exact Hset1]. by repeat split.
      * rewrite Hs2, Hs1. cbn [sections with_sections]. split; [|split].
        -- intros m. destruct (decide (m = n)) as [->|Hne].
           ++ rewrite lookup_insert_eq, Hstate. by split; eexists.
           ++ by rewrite lookup_insert_ne.
        -- intros m Hne. by rewrite lookup_insert_ne.
        -- intros s s' [= <-]. rewrite lookup_insert_eq. by intros [= <-].
    + unfold processSectionChange in Hrun. by rewrite Hnode, Hstate in Hrun.
  - unfold processSectionChange in Hrun. rewrite Hnode in Hrun.
    injection Hrun as <-.
    split; [apply same_setting_refl|]. split; [done|]. split; [done|].
    intros s s' Hs Hs'. rewrite Hs in Hs'. by injection Hs' as <-.
Qed.

(** X14: whatever path it takes, a successful [processSectionChange] creates
    and deletes no section state, leaves every other section's state as it
    was, keeps the section's number and its source, and does not touch the
    languages, the focused section, the nodes with issues or the change
    queue. *)
Theorem processSectionChange_frame {uls : ULSData} {dom : DOM} {ve : VETarget}
    (t t' : Tracker) (n : N) :
  processSectionChange t n = Some t' ->
  same_setting t t'
  /\ (forall m, is_Some (sections t' !! m) <-> is_Some (sections t !! m))
  /\ (forall m, m ≠ n -> sections t' !! m = sections t !! m)
  /\ (forall sectionState sectionState',
        sections t !! n = Some sectionState ->
        sections t' !! n = Some sectionState' ->
        source sectionState' = source sectionState
        /\ sectionNumber sectionState' = sectionNumber sectionState).
Proof. apply processSectionChange_keeps. Qed.

Lemma processSectionChange_frame_witness :
  exists t',
    processSectionChange (uls := Sample.uls) (dom := Sample.dom)
      (ve := Sample.target)
      (Sample.tracker
         [Sample.state 5 Sample.ten_words (Some (lit "Google")) (Num 1);
          Sample.state 6 Sample.ten_words (Some (lit "Google")) (Num 1)]
         [6%N]) 5 = Some t'
    /\ sections t' !! 6%N
       = Some (Sample.state 6 Sample.ten_words (Some (lit "Google")) (Num 1)).
Proof.
  set (t := Sample.tracker _ _).
  destruct (processSectionChange (uls := Sample.uls) (dom := Sample.dom)
              (ve := Sample.target) t 5) as [t'|] eqn:Hrun;
    [|vm_compute in Hrun; discriminate Hrun].
  exists t'. split; [reflexivity|].
  rewrite (proj1 (proj2 (proj2
             (processSectionChange_frame (uls := Sample.uls)
                (dom := Sample.dom) (ve := Sample.target) t t' 5 Hrun))) 6%N)
    by discriminate.
  reflexivity.
Defined.

(** X15: after a successful change on a section node, the stored provider is
    the node's origin and the stored user translation is the node's content;
    the MT baseline is taken from the content only when none was stored, so
    a stored baseline survives even a change of provider; and both derived
    fields are recomputed from the stored texts. *)
Theorem processSectionChange_records {uls : ULSData} {dom : DOM} {ve : VETarget}
    (t t' : Tracker) (n : N) (sectionState : SectionState)
    (origin : option jsstring) (content child : jsstring) :
  getTargetSectionNodeFromSectionNumber n
  = Some (CXSectionNode origin content child) ->
  sections t !! n = Some sectionState ->
  processSectionChange t n = Some t' ->
  exists sectionState',
    sections t' !! n = Some sectionState'
    /\ currentProvider sectionState' = origin
    /\ html (userTranslation sectionState') = Some content
    /\ unmodifiedMT sectionState'
       = (if falsy (html (unmodifiedMT sectionState))
          then content_of (Some content) else unmodifiedMT sectionState)
    /\ derived_fresh (targetLanguage t) sectionState'.
Proof.
  intros Hnode Hstate Hrun.
  destruct (processSectionChange_section_summary t t' n sectionState origin
              content child Hnode Hstate Hrun)
    as (st' & modified & Hs & Hprov & Huser & _ & _ & Hmt & Hderived & _).
  exists st'. rewrite Hs, lookup_insert_eq.
  split; [done|]. split; [done|]. split; [done|]. split; [done | exact Hderived].
Qed.

Lemma processSectionChange_records_witness :
  exists t' sectionState',
    processSectionChange (uls := Sample.uls) (dom := Sample.dom)
      (ve := Sample.target)
      (Sample.tracker
         [Sample.state 5 Sample.eight_words (Some (lit "Google")) (Num 1)] [])
      5 = Some t'
    /\ sections t' !! 5%N = Some sectionState'
    /\ currentProvider sectionState' = Some (lit "Yandex")
    /\ text (unmodifiedMT sectionState') = Some Sample.eight_words
    /\ text (userTranslation sectionState') = Some Sample.ten_words.
Proof.
  set (t := Sample.tracker _ _).
  destruct (processSectionChange (uls := Sample.uls) (dom := Sample.dom)
              (ve := Sample.target) t 5) as [t'|] eqn:Hrun;
    [|vm_compute in Hrun; discriminate Hrun].
  destruct (processSectionChange_records (uls := Sample.uls)
              (dom := Sample.dom) (ve := Sample.target) t t' 5
              (Sample.state 5 Sample.eight_words (Some (lit "Google")) (Num 1))
              (Some (lit "Yandex")) Sample.ten_words (lit "paragraph")
              eq_refl eq_refl Hrun)
    as (st' & Hst' & Hprov & _ & Hmt & _).
  exists t', st'. split; [reflexivity|]. split; [exact Hst'|].
  split; [exact Hprov|]. split; [by rewrite Hmt|].
  vm_compute in Hrun. injection Hrun as <-.
  vm_compute in Hst'. by injection Hst' as <-.
Defined.

(** X16: the validation queue stays free of duplicates through every
    successful [processSectionChange]. *)
Theorem processSectionChange_queue_NoDup
    {uls : ULSData} {dom : DOM} {ve : VETarget} (t t' : Tracker) (n : N) :
  NoDup (validationDelayQueue t) ->
  processSectionChange t n = Some t' ->
  NoDup (validationDelayQueue t').
Proof.
  intros Hnd Hrun.
  destruct (getTargetSectionNodeFromSectionNumber n)
    as [[origin content child|]|] eqn:Hnode.
  - destruct (sections t !! n) as [st|] eqn:Hstate;
      [|unfold processSectionChange in Hrun; by rewrite Hnode, Hstate in Hrun].
    destruct (processSectionChange_section_summary t t' n st origin content
                child Hnode Hstate Hrun)
      as (st' & modified & _ & _ & _ & _ & _ & _ & _ & _ & _ & -> & _).
    destruct (bool_decide _); [apply NoDup_singleton|].
    destruct (decide (n ∈ validationDelayQueue t)); [done|].
    by apply NoDup_push.
  - destruct (sections t !! n) as [st|] eqn:Hstate;
      [|unfold processSectionChange in Hrun; by rewrite Hnode, Hstate in Hrun].
    unfold processSectionChange in Hrun.
    rewrite Hnode, Hstate in Hrun. cbn [mbind option_bind] in Hrun.
    injection Hrun as <-.
    match goal with
    | |- context [removeSectionFromSaveQueue ?t0 n] =>
        destruct (removeSectionFromSaveQueue_queue t0 n)
          as (_ & _ & Hq1 & _);
        destruct (removeSectionFromValidationQueue_queue
                    (removeSectionFromSaveQueue t0 n) n)
          as (_ & _ & _ & _ & Hq2)
    end.
    rewrite Hq1 in Hq2. by destruct (Hq2 Hnd).
  - unfold processSectionChange in Hrun. rewrite Hnode in Hrun.
    by injection Hrun as <-.
Qed.

Lemma processSectionChange_queue_NoDup_witness :
  exists t',
    processSectionChange (uls := Sample.uls) (dom := Sample.dom)
      (ve := Fixture.target)
      (Sample.tracker
         [Sample.state 5 Sample.ten_words (Some (lit "Google")) (Num 1)]
         [5%N]) 5 = Some t'
    /\ NoDup (validationDelayQueue t').
Proof.
  set (t := Sample.tracker _ _).
  destruct (processSectionChange (uls := Sample.uls) (dom := Sample.dom)
              (ve := Fixture.target) t 5) as [t'|] eqn:Hrun;
    [|vm_compute in Hrun; discriminate Hrun].
  exists t'. split; [reflexivity|].
  apply (processSectionChange_queue_NoDup (uls := Sample.uls)
           (dom := Sample.dom) (ve := Fixture.target) t t' 5); [|exact Hrun].
  apply NoDup_singleton.
Defined.

(** ** The change queue *)

Section ChangeQueueFacts.
Context {uls : ULSData} {dom : DOM} {ve : VETarget}.

Lemma processChangeQueue_body_spec (t t' : Tracker) (i : nat) (n : N) :
  changeQueue t !! i = Some n ->
  processChangeQueue_body t i = Some t' ->
  processSectionChange t n
  = Some (with_changeQueue t' (changeQueue t))
  /\ changeQueue t' = delete i (changeQueue t).
Proof.
  intros Hn. unfold processChangeQueue_body. rewrite Hn.
  cbn [mbind option_bind].
  destruct (processSectionChange t n) as [t1|] eqn:Hrun;
    cbn [mbind option_bind]; [|done].
  intros [= <-].
  destruct (processSectionChange_keeps t t1 n Hrun)
    as ((_ & _ & _ & _ & Hq) & _).
  cbn [changeQueue with_changeQueue]. unfold splice1. rewrite Hq.
  split; [|done]. f_equal. destruct t1. simpl in *. by subst.
Qed.

Lemma processChangeQueue_loop_spec (i : nat) (t t' : Tracker) :
  length (changeQueue t) = i ->
  processChangeQueue_loop i t = Some t' ->
  changeQueue t' = []
  /\ (forall m, is_Some (sections t' !! m) <-> is_Some (sections t !! m))
  /\ (forall m, m ∉ changeQueue t -> sections t' !! m = sections t !! m)
  /\ (forall m sectionState sectionState',
        sections t !! m = Some sectionState ->
        sections t' !! m = Some sectionState' ->
        source sectionState' = source sectionState
        /\ sectionNumber sectionState' = sectionNumber sectionState).
Proof.
  revert t. induction i as [|i IH]; intros t Hlen; simpl.
  - intros [= <-]. apply nil_length_inv in Hlen.
    split; [done|]. split; [done|]. split; [done|].
    intros m s s' Hs Hs'. rewrite Hs in Hs'. by injection Hs' as <-.
  - destruct (lookup_lt_is_Some_2 (changeQueue t) i) as [n Hn]; [lia|].
    destruct (processChangeQueue_body t i) as [t1|] eqn:Hbody;
      cbn [mbind option_bind]; [|done].
    intros Hloop.
    destruct (processChangeQueue_body_spec t t1 i n Hn Hbody) as (Hrun & Hq1).
    destruct (processSectionChange_keeps t _ n Hrun)
      as (_ & Hdom & Hother & Hsame).
    cbn [sections with_changeQueue] in Hdom, Hother, Hsame.
    destruct (IH t1) as (Hq' & Hdom' & Hother' & Hsame'); [|done|].
    { rewrite Hq1, length_delete by (by eexists). lia. }
    split; [done|]. split; [|split].
    + intros m. by rewrite Hdom', Hdom.
    + intros m Hm. rewrite Hother'.
      * apply Hother. intros ->. apply Hm. by eapply list_elem_of_lookup_2.
      * rewrite Hq1. intros Hin. apply Hm.
        by eapply list_elem_of_delete_inv.
    + intros m s s' Hs Hs'.
      destruct (proj2 (Hdom m)) as [s1 Hs1]; [by eexists|].
      assert (source s1 = source s /\ sectionNumber s1 = sectionNumber s)
        as [E1 E2].
      { destruct (decide (m = n)) as [->|Hne].
        - by apply Hsame.
        - rewrite Hother in Hs1 by done. rewrite Hs in Hs1.
          by injection Hs1 as <-. }
      destruct (Hsame' m s1 s' Hs1 Hs') as [E3 E4].
      split; congruence.
Qed.

End ChangeQueueFacts.

(** X17: a successful [processChangeQueue] leaves the change queue empty,
    creates and deletes no section state, keeps every section's source and
    number, and leaves alone the state of every section that was not
    queued; on an empty queue it does nothing. *)
Theorem processChangeQueue_drain {uls : ULSData} {dom : DOM} {ve : VETarget}
    (t t' : Tracker) :
  processChangeQueue t = Some t' ->
  changeQueue t' = []
  /\ (forall m, is_Some (sections t' !! m) <-> is_Some (sections t !! m))
  /\ (forall m, m ∉ changeQueue t -> sections t' !! m = sections t !! m)
  /\ (forall m sectionState sectionState',
        sections t !! m = Some sectionState ->
        sections t' !! m = Some sectionState' ->
        source sectionState' = source sectionState
        /\ sectionNumber sectionState' = sectionNumber sectionState)
  /\ processChangeQueue t' = Some t'.
Proof.
  intros Hrun.
  destruct (processChangeQueue_loop_spec _ t t' eq_refl Hrun)
    as (Hq & Hdom & Hother & Hsame).
  do 4 (split; [done|]).
  unfold processChangeQueue. by rewrite Hq.
Qed.

Lemma processChangeQueue_drain_witness :
  exists t',
    processChangeQueue (uls := Sample.uls) (dom := Sample.dom)
      (ve := Sample.target)
      (with_changeQueue
         (Sample.tracker
            [Sample.state 5 Sample.ten_words (Some (lit "Google")) (Num 1);
             Sample.state 6 Sample.ten_words (Some (lit "Google")) (Num 1)]
            [])
         [5%N; 6%N]) = Some t'
    /\ changeQueue t' = []
    /\ validationDelayQueue t' = [5%N].
Proof.
  set (t := with_changeQueue _ _).
  destruct (processChangeQueue (uls := Sample.uls) (dom := Sample.dom)
              (ve := Sample.target) t) as [t'|] eqn:Hrun;
    [|vm_compute in Hrun; discriminate Hrun].
  exists t'. split; [reflexivity|].
  split.
  - exact (proj1 (processChangeQueue_drain (uls := Sample.uls)
                    (dom := Sample.dom) (ve := Sample.target) t t' Hrun)).
  - vm_compute in Hrun. by injection Hrun as <-.
Defined.

(** ** The aggregate progress *)

Lemma sectionNumbers_length (m : gmap N SectionState) :
  length (sectionNumbers m) = size m.
Proof.
  unfold sectionNumbers.
  rewrite (Permutation_length (merge_sort_Permutation _ _)).
  by rewrite length_fmap, length_map_to_list.
Qed.

Lemma filter_length_Permutation {A} (f : A -> bool) (l k : list A) :
  l ≡ₚ k -> length (List.filter f l) = length (List.filter f k).
Proof.
  induction 1 as [|x l k _ IH|x y l|l k j _ IH1 _ IH2]; simpl.
  - done.
  - destruct (f x); simpl; congruence.
  - destruct (f x), (f y); done.
  - congruence.
Qed.

Lemma filter_length_fmap {A B} (g : A -> B) (f : B -> bool) (l : list A) :
  length (List.filter f (g <$> l)) = length (List.filter (fun x => f (g x)) l).
Proof.
  induction l as [|x l IH]; [done|].
  rewrite fmap_cons. cbn [List.filter].
  destruct (f (g x)); cbn [length]; congruence.
Qed.

Lemma filter_length_ext {A} (f g : A -> bool) (l : list A) :
  (forall x, x ∈ l -> f x = g x) ->
  length (List.filter f l) = length (List.filter g l).
Proof.
  induction l as [|x l IH]; [done|]. intros Hfg. cbn [List.filter].
  rewrite (Hfg x) by left.
  destruct (g x); cbn [length]; rewrite IH; first [done | intros; apply Hfg; by right].
Qed.

(** Counting over the keys is counting over the states. *)
Lemma count_keys_states (P : SectionState -> bool) (m : gmap N SectionState)
    (keys : list N) :
  keys ≡ₚ (map_to_list m).*1 ->
  length (List.filter (fun k => from_option P false (m !! k)) keys)
  = length (List.filter P (states_of m)).
Proof.
  intros Hkeys. rewrite (filter_length_Permutation _ _ _ Hkeys).
  unfold states_of. rewrite !filter_length_fmap.
  apply filter_length_ext. intros [k st] Hin.
  apply elem_of_map_to_list in Hin. simpl. by rewrite Hin.
Qed.

Lemma count_states_texts (P : SectionState -> bool)
    (m m' : gmap N SectionState) :
  (forall st st', texts st = texts st' -> P st = P st') ->
  texts <$> m' = texts <$> m ->
  length (List.filter P (states_of m')) = length (List.filter P (states_of m)).
Proof.
  intros HP Hm.
  assert (Hkeys : (map_to_list m').*1 ≡ₚ (map_to_list m).*1).
  { apply NoDup_Permutation; [apply NoDup_fst_map_to_list..|].
    intros k. rewrite !list_elem_of_fmap.
    assert (Hdom : forall st, (exists st', m' !! k = Some st' /\ st = texts st')
                              <-> (exists st', m !! k = Some st' /\ st = texts st')).
    { intros st. rewrite <- !fmap_Some.
      by rewrite <- !lookup_fmap, Hm. }
    split.
    - intros ([k' st'] & -> & Hin). apply elem_of_map_to_list in Hin.
      destruct (proj1 (Hdom (texts st'))) as (st & Hst & _); [by eexists|].
      exists (k', st). split; [done|]. by apply elem_of_map_to_list.
    - intros ([k' st'] & -> & Hin). apply elem_of_map_to_list in Hin.
      destruct (proj2 (Hdom (texts st'))) as (st & Hst & _); [by eexists|].
      exists (k', st). split; [done|]. by apply elem_of_map_to_list. }
  rewrite <- (count_keys_states P m' (map_to_list m').*1 (reflexivity _)).
  rewrite <- (count_keys_states P m (map_to_list m').*1 Hkeys).
  apply filter_length_ext. intros k _.
  pose proof (f_equal (fun x => x !! k) Hm) as Hk. simpl in Hk.
  rewrite !lookup_fmap in Hk.
  destruct (m' !! k) as [st'|], (m !! k) as [st|]; simpl in *; try done.
  apply HP. congruence.
Qed.

Lemma translated_texts (st st' : SectionState) :
  texts st = texts st' ->
  translated st = translated st'
  /\ translatedUnmodified st = translatedUnmodified st'
  /\ translatedByUser st = translatedByUser st'.
Proof.
  unfold texts, translated, translatedUnmodified, translatedByUser, translated.
  intros [= -> ->]. done.
Qed.

Lemma keys_Permutation (m m' : gmap N SectionState) :
  (forall k, is_Some (m' !! k) <-> is_Some (m !! k)) ->
  (map_to_list m').*1 ≡ₚ (map_to_list m).*1.
Proof.
  intros Hdom. apply NoDup_Permutation; [apply NoDup_fst_map_to_list..|].
  intros k. rewrite !list_elem_of_fmap. split.
  - intros ([k' st'] & -> & Hin). apply elem_of_map_to_list in Hin.
    destruct (proj1 (Hdom k')) as [st Hst]; [by eexists|].
    exists (k', st). split; [done|]. by apply elem_of_map_to_list.
  - intros ([k' st'] & -> & Hin). apply elem_of_map_to_list in Hin.
    destruct (proj2 (Hdom k')) as [st Hst]; [by eexists|].
    exists (k', st). split; [done|]. by apply elem_of_map_to_list.
Qed.

Lemma lookup_texts (P : SectionState -> bool) (m m' : gmap N SectionState)
    (k : N) :
  (forall st st', texts st = texts st' -> P st = P st') ->
  texts <$> m' = texts <$> m ->
  from_option P false (m' !! k) = from_option P false (m !! k).
Proof.
  intros HP Hm.
  pose proof (f_equal (fun x => x !! k) Hm) as Hk. simpl in Hk.
  rewrite !lookup_fmap in Hk.
  destruct (m' !! k) as [st'|], (m !! k) as [st|]; simpl in *; try done.
  apply HP. congruence.
Qed.

Lemma translated_split (l : list SectionState) :
  (length (List.filter translatedUnmodified l)
   + length (List.filter translatedByUser l)
   <= length (List.filter translated l) <= length l)%nat.
Proof.
  induction l as [|st l IH]; [simpl; lia|].
  cbn [List.filter].
  destruct (translatedUnmodified st) eqn:H1, (translatedByUser st) eqn:H2,
    (translated st) eqn:H3; cbn [length]; try lia; exfalso;
    unfold translatedUnmodified, translatedByUser in H1, H2;
    rewrite H3 in H1, H2; simpl in H1, H2; try done;
    repeat case_bool_decide; done.
Qed.

Section ProgressFacts.
Context {uls : ULSData} {dom : DOM} {ve : VETarget}.

(** A turn of the loop on a tracker whose change queue is empty recomputes
    the derived fields of the section and moves each counter by one when
    the section is of its kind. *)
Lemma getTranslationProgress_body_exact (t : Tracker) (c : Counters) (n : N) :
  changeQueue t = [] ->
  match sections t !! n with
  | None => getTranslationProgress_body t c n = None
  | Some st =>
      exists t' c',
        getTranslationProgress_body t c n = Some (t', c')
        /\ changeQueue t' = []
        /\ texts <$> sections t' = texts <$> sections t
        /\ sectionsWithAnyTranslation c'
           = (sectionsWithAnyTranslation c + Nat.b2n (translated st))%nat
        /\ sectionsWithUnmodifiedContent c'
           = (sectionsWithUnmodifiedContent c
              + Nat.b2n (translatedUnmodified st))%nat
        /\ sectionsWithUserTranslation c'
           = (sectionsWithUserTranslation c + Nat.b2n (translatedByUser st))%nat
  end.
Proof.
  intros Hq. unfold getTranslationProgress_body, processChangeQueue.
  rewrite Hq. cbn [length processChangeQueue_loop mbind option_bind].
  unfold updateSectionProgress.
  destruct (sections t !! n) as [st|] eqn:Hst; cbn [mbind option_bind]; [|done].
  cbn [sections with_sections]. rewrite lookup_insert_eq.
  cbn [mbind option_bind].
  assert (Htexts : forall st', texts st' = texts st ->
            texts <$> <[n := st']> (sections t) = texts <$> sections t).
  { intros st' E. rewrite fmap_insert, E. apply insert_id.
    by rewrite lookup_fmap, Hst. }
  unfold translatedUnmodified, translatedByUser, translated, isModified.
  cbn [userTranslation unmodifiedMT setTranslationProgressPercentage
       setUnmodifiedPercentage].
  case_decide as Hblank.
  { eexists _, _. split; [reflexivity|]. cbn [changeQueue with_sections sections].
    split; [done|]. split; [by apply Htexts|].
    rewrite bool_decide_eq_true_2 by done. simpl. lia. }
  rewrite (bool_decide_eq_false_2 _ Hblank). cbn [negb andb].
  destruct (negb (falsy (text (unmodifiedMT st)))
            || negb (falsy (text (userTranslation st)))) eqn:Hany.
  - destruct (bool_decide (html (unmodifiedMT st) ≠ html (userTranslation st)))
      eqn:Hmod.
    + cbn [negb].
      assert (bool_decide (html (unmodifiedMT st) = html (userTranslation st))
              = false) as ->.
      { apply bool_decide_eq_true in Hmod. by apply bool_decide_eq_false. }
      destruct (negb (falsy (text (userTranslation st)))) eqn:Huser.
      * eexists _, _. split; [reflexivity|].
        cbn. split; [done|]. split; [by apply Htexts|]. lia.
      * eexists _, _. split; [reflexivity|].
        cbn. split; [done|]. split; [by apply Htexts|]. lia.
    + cbn [negb].
      assert (bool_decide (html (unmodifiedMT st) = html (userTranslation st))
              = true) as ->.
      { apply bool_decide_eq_false in Hmod. apply bool_decide_eq_true.
        by destruct (decide (html (unmodifiedMT st) = html (userTranslation st))). }
      eexists _, _. split; [reflexivity|].
      cbn. split; [done|]. split; [by apply Htexts|]. lia.
  - eexists _, _. split; [reflexivity|].
    cbn. split; [done|]. split; [by apply Htexts|]. lia.
Qed.

Lemma getTranslationProgress_loop_exact (keys : list N) (t t' : Tracker)
    (c c' : Counters) :
  changeQueue t = [] ->
  getTranslationProgress_loop t c keys = Some (t', c') ->
  changeQueue t' = []
  /\ texts <$> sections t' = texts <$> sections t
  /\ sectionsWithAnyTranslation c'
     = (sectionsWithAnyTranslation c
        + length (List.filter
                    (fun k => from_option translated false (sections t !! k))
                    keys))%nat
  /\ sectionsWithUnmodifiedContent c'
     = (sectionsWithUnmodifiedContent c
        + length (List.filter
                    (fun k => from_option translatedUnmodified false
                                (sections t !! k))
                    keys))%nat
  /\ sectionsWithUserTranslation c'
     = (sectionsWithUserTranslation c
        + length (List.filter
                    (fun k => from_option translatedByUser false
                                (sections t !! k))
                    keys))%nat.
Proof.
  revert t c. induction keys as [|n keys IH]; intros t c Hq; simpl.
  - intros [= <- <-]. split; [done|]. split; [done|]. lia.
  - pose proof (getTranslationProgress_body_exact t c n Hq) as Hbody.
    destruct (sections t !! n) as [st|] eqn:Hst.
    + destruct Hbody as (t1 & c1 & -> & Hq1 & Htexts1 & Hany & Hmt & Huser).
      cbn [mbind option_bind]. intros Hloop.
      destruct (IH t1 c1 Hq1 Hloop) as (Hq' & Htexts' & Hany' & Hmt' & Huser').
      split; [done|]. split; [congruence|].
      rewrite Hany', Hmt', Huser', Hany, Hmt, Huser.
      cbn [from_option].
      rewrite (filter_length_ext
                 (fun k => from_option translated false (sections t1 !! k))
                 (fun k => from_option translated false (sections t !! k)) keys)
        by (intros; apply lookup_texts;
            [intros ? ? E; exact (proj1 (translated_texts _ _ E)) | done]).
      rewrite (filter_length_ext
                 (fun k => from_option translatedUnmodified false (sections t1 !! k))
                 (fun k => from_option translatedUnmodified false (sections t !! k)) keys)
        by (intros; apply lookup_texts;
            [intros ? ? E; exact (proj1 (proj2 (translated_texts _ _ E))) | done]).
      rewrite (filter_length_ext
                 (fun k => from_option translatedByUser false (sections t1 !! k))
                 (fun k => from_option translatedByUser false (sections t !! k)) keys)
        by (intros; apply lookup_texts;
            [intros ? ? E; exact (proj2 (proj2 (translated_texts _ _ E))) | done]).
      destruct (translated st), (translatedUnmodified st),
        (translatedByUser st); cbn [length Nat.b2n]; lia.
    + rewrite Hbody. done.
Qed.

End ProgressFacts.

(** X18: with no section at all, [getTranslationProgress] divides zero by
    zero: the three weights are NaN, the two counts are 0, and the tracker
    is untouched. *)
Theorem getTranslationProgress_no_sections
    {uls : ULSData} {dom : DOM} {ve : VETarget} (t : Tracker) :
  sections t = ∅ ->
  getTranslationProgress t
  = Some ({| any := NaN; human := NaN; mt := NaN;
             mtSectionsCount := 0; translatedSectionsCount := 0 |}, t).
Proof.
  intros Hempty. unfold getTranslationProgress. rewrite Hempty.
  unfold sectionNumbers. rewrite map_to_list_empty. reflexivity.
Qed.

Lemma getTranslationProgress_no_sections_witness :
  getTranslationProgress (uls := Sample.uls) (dom := Sample.dom)
    (ve := Sample.target) (MwCXTranslationTracker (lit "en") (lit "es"))
  = Some ({| any := NaN; human := NaN; mt := NaN;
             mtSectionsCount := 0; translatedSectionsCount := 0 |},
          MwCXTranslationTracker (lit "en") (lit "es")).
Proof.
  apply (getTranslationProgress_no_sections (uls := Sample.uls)
           (dom := Sample.dom) (ve := Sample.target)).
  reflexivity.
Defined.

(** X19: the counts [getTranslationProgress] returns are counts of the
    section states as the call leaves them. A state counts as translated
    when its user translation is not the empty text and one of its two
    texts is not empty; [any] is the share of these among the sections the
    tracker had when the call began. [mtSectionsCount] counts the
    translated states whose user translation is their unmodified MT;
    [human] is the share of the translated states that differ from it and
    have a text; [translatedSectionsCount] is the sum of both counts, which
    is at most the number of translated states. When the call returns the
    change queue is empty and no state has been created or deleted. *)
Theorem getTranslationProgress_counts
    {uls : ULSData} {dom : DOM} {ve : VETarget}
    (t t' : Tracker) (p : Progress) :
  getTranslationProgress t = Some (p, t') ->
  sections t ≠ ∅ ->
  let states := states_of (sections t') in
  let total := size (sections t) in
  let anyCount := length (List.filter translated states) in
  let unmodifiedCount := length (List.filter translatedUnmodified states) in
  let userCount := length (List.filter translatedByUser states) in
  any p = Num (Z.of_nat anyCount # Pos.of_nat total)
  /\ human p = Num (Z.of_nat userCount # Pos.of_nat total)
  /\ mt p = Num (Z.of_nat unmodifiedCount # Pos.of_nat total)
  /\ mtSectionsCount p = unmodifiedCount
  /\ translatedSectionsCount p = (unmodifiedCount + userCount)%nat
  /\ (unmodifiedCount + userCount <= anyCount <= total)%nat
  /\ length states = total
  /\ changeQueue t' = [].
Proof.
  intros Hrun Hne. cbv zeta. revert Hrun. unfold getTranslationProgress.
  rewrite sectionNumbers_length.
  assert (Hkeys : sectionNumbers (sections t) ≡ₚ (map_to_list (sections t)).*1)
    by apply merge_sort_Permutation.
  destruct (sectionNumbers (sections t)) as [|n keys] eqn:Ekeys.
  { apply Permutation_nil_l in Hkeys. symmetry in Hkeys.
    apply fmap_nil_inv in Hkeys.
    by apply map_to_list_empty_iff in Hkeys. }
  destruct (processChangeQueue t) as [t1|] eqn:Hdrain.
  2:{ cbn [getTranslationProgress_loop]. unfold getTranslationProgress_body.
      rewrite Hdrain. done. }
  destruct (processChangeQueue_loop_spec _ t t1 eq_refl Hdrain)
    as (Hq1 & Hdom & _).
  assert (Hsame : forall c,
            getTranslationProgress_loop t c (n :: keys)
            = getTranslationProgress_loop t1 c (n :: keys)).
  { intros c. cbn [getTranslationProgress_loop].
    unfold getTranslationProgress_body. rewrite Hdrain.
    unfold processChangeQueue. rewrite Hq1. done. }
  rewrite Hsame.
  destruct (getTranslationProgress_loop t1 _ (n :: keys)) as [[t2 c]|] eqn:Hloop;
    cbn [mbind option_bind]; [|done].
  intros [= <- <-].
  destruct (getTranslationProgress_loop_exact _ _ _ _ _ Hq1 Hloop)
    as (Hq & Htexts & Hany & Hmt & Huser).
  cbn [sectionsWithAnyTranslation sectionsWithUnmodifiedContent
       sectionsWithUserTranslation Nat.add] in Hany, Hmt, Huser.
  assert (Hkeys1 : n :: keys ≡ₚ (map_to_list (sections t1)).*1).
  { rewrite Hkeys. symmetry. by apply keys_Permutation. }
  rewrite (count_keys_states translated _ _ Hkeys1) in Hany.
  rewrite (count_keys_states translatedUnmodified _ _ Hkeys1) in Hmt.
  rewrite (count_keys_states translatedByUser _ _ Hkeys1) in Huser.
  rewrite <- (count_states_texts translated (sections t1) (sections t2))
    in Hany
    by (first [done | intros ? ? E; exact (proj1 (translated_texts _ _ E))]).
  rewrite <- (count_states_texts translatedUnmodified (sections t1)
                (sections t2)) in Hmt
    by (first [done
              | intros ? ? E; exact (proj1 (proj2 (translated_texts _ _ E)))]).
  rewrite <- (count_states_texts translatedByUser (sections t1) (sections t2))
    in Huser
    by (first [done
              | intros ? ? E; exact (proj2 (proj2 (translated_texts _ _ E)))]).
  assert (Hsize : length (states_of (sections t2)) = size (sections t)).
  { unfold states_of. rewrite length_fmap, length_map_to_list.
    rewrite <- (map_size_fmap texts (sections t2)), Htexts, map_size_fmap.
    rewrite <- !length_map_to_list.
    rewrite <- (length_fmap fst (map_to_list (sections t1))).
    rewrite <- (length_fmap fst (map_to_list (sections t))).
    apply Permutation_length. by apply keys_Permutation. }
  assert (Hpos : size (sections t) ≠ 0%nat) by by apply map_size_non_empty_iff.
  cbn [any human mt mtSectionsCount translatedSectionsCount].
  rewrite Hany, Hmt, Huser.
  pose proof (translated_split (states_of (sections t2))) as Hsplit.
  destruct (size (sections t)) as [|k] eqn:Esize; [done|].
  cbn [div_length].
  do 5 (split; [done|]). split; [lia|]. done.
Qed.

Lemma getTranslationProgress_counts_witness :
  exists p t',
    getTranslationProgress (uls := Sample.uls) (dom := Sample.dom)
      (ve := Fixture.target)
      (with_changeQueue
         (Sample.tracker
            [Sample.state 5 Sample.ten_words (Some (lit "Google")) (Num 1);
             Sample.state 6 Sample.ten_words (Some (lit "Google")) (Num 1)]
            [])
         [5%N]) = Some (p, t')
    /\ any p = Num (2 # 2)
    /\ human p = Num (1 # 2)
    /\ mtSectionsCount p = 1%nat
    /\ translatedSectionsCount p = 2%nat
    /\ changeQueue t' = [].
Proof.
  set (t := with_changeQueue _ _).
  destruct (getTranslationProgress (uls := Sample.uls) (dom := Sample.dom)
              (ve := Fixture.target) t) as [[p t']|] eqn:Hrun;
    [|vm_compute in Hrun; discriminate Hrun].
  exists p, t'. split; [reflexivity|].
  assert (Hne : sections t ≠ ∅).
  { intros Hempty. apply (f_equal (fun m => m !! 5%N)) in Hempty.
    vm_compute in Hempty. discriminate Hempty. }
  destruct (getTranslationProgress_counts (uls := Sample.uls)
              (dom := Sample.dom) (ve := Fixture.target) t t' p Hrun Hne)
    as (Hany & Hhuman & _ & Hmt & Htr & _ & _ & Hq).
  vm_compute in Hrun. injection Hrun as <- <-.
  repeat split; first [exact Hq | reflexivity].
Defined.

(** ** Double-precision arithmetic *)

Module Float64Facts.
Import Float64.
Local Open Scope Q_scope.

Lemma pow2_pos (e : Z) : 0 < pow2 e.
Proof. by apply Qpower_0_lt. Qed.

Lemma pow2_plus (a b : Z) : pow2 (a + b) == pow2 a * pow2 b.
Proof. by apply Qpower_plus. Qed.

Lemma pow2_le (a b : Z) : (a <= b)%Z -> pow2 a <= pow2 b.
Proof. intros Hab. by apply Qpower_le_compat_l. Qed.

Lemma pow2_lt_inv (a b : Z) : pow2 a < pow2 b -> (a < b)%Z.
Proof. intros Hab. by apply (Qpower_lt_compat_l_inv 2). Qed.

Lemma pow2_Z (k : Z) : (0 <= k)%Z -> inject_Z (2 ^ k) == pow2 k.
Proof. intros Hk. by apply Zpower_Qpower. Qed.

(** *** Rounding to the nearest integer *)

Lemma nearest_even_floor (s : Q) :
  (Qfloor s <= nearest_even s <= Qfloor s + 1)%Z.
Proof.
  unfold nearest_even. destruct (_ ?= _); [destruct (Z.even _)| |]; lia.
Qed.

Lemma nearest_even_near (s : Q) :
  s - (1 # 2) <= inject_Z (nearest_even s) <= s + (1 # 2).
Proof.
  pose proof (Qfloor_le s) as Hlo. pose proof (Qlt_floor s) as Hhi.
  rewrite inject_Z_plus in Hhi. change (inject_Z 1) with 1 in Hhi.
  unfold nearest_even.
  destruct (Qcompare_spec (s - inject_Z (Qfloor s)) (1 # 2)) as [He|Hl|Hg].
  - destruct (Z.even _); rewrite ?inject_Z_plus;
      change (inject_Z 1) with 1; lra.
  - lra.
  - rewrite inject_Z_plus. change (inject_Z 1) with 1. lra.
Qed.

Lemma nearest_even_Z (z : Z) : nearest_even (inject_Z z) = z.
Proof.
  unfold nearest_even. rewrite Qfloor_Z.
  destruct (Qcompare_spec (inject_Z z - inject_Z z) (1 # 2)) as [He|Hl|Hg];
    [lra | done | lra].
Qed.

Lemma nearest_even_mono (s1 s2 : Q) :
  s1 <= s2 -> (nearest_even s1 <= nearest_even s2)%Z.
Proof.
  intros Hle. pose proof (Qfloor_resp_le s1 s2 Hle) as Hfloor.
  destruct (Z.eq_dec (Qfloor s1) (Qfloor s2)) as [Heq|Hne].
  - unfold nearest_even. rewrite Heq.
    destruct (Qcompare_spec (s1 - inject_Z (Qfloor s2)) (1 # 2)),
      (Qcompare_spec (s2 - inject_Z (Qfloor s2)) (1 # 2));
      try destruct (Z.even _); first [lia | lra].
  - pose proof (nearest_even_floor s1). pose proof (nearest_even_floor s2).
    lia.
Qed.

(** *** The exponent *)

Lemma log2_bounds (n : Z) :
  (0 < n)%Z ->
  pow2 (Z.log2 n) <= inject_Z n /\ inject_Z n < pow2 (Z.log2 n + 1).
Proof.
  intros Hn. destruct (Z.log2_spec n Hn) as [Hlo Hhi].
  pose proof (Z.log2_nonneg n) as H0.
  rewrite <- !pow2_Z by lia. rewrite <- Zle_Qle, <- Zlt_Qlt.
  split; [done|]. by rewrite <- Z.add_1_r in Hhi.
Qed.

Lemma exponent_spec (q : Q) :
  0 < q ->
  pow2 (exponent q + 52) <= q /\ q < pow2 (exponent q + 53).
Proof.
  intros Hq.
  assert (Hn : (0 < Qnum q)%Z).
  { unfold Qlt in Hq. simpl in Hq. lia. }
  destruct (log2_bounds (Qnum q) Hn) as [Hnlo Hnhi].
  destruct (log2_bounds (Z.pos (Qden q)) eq_refl) as [Hdlo Hdhi].
  set (ln := Z.log2 (Qnum q)) in *. set (ld := Z.log2 (Z.pos (Qden q))) in *.
  assert (Hqd : q * inject_Z (Z.pos (Qden q)) == inject_Z (Qnum q)).
  { destruct q as [n d]. simpl. rewrite (Qmake_Qdiv n d). field.
    intros H. discriminate H. }
  set (N := inject_Z (Qnum q)) in *. set (D := inject_Z (Z.pos (Qden q))) in *.
  pose proof (pow2_pos ld) as Hld. pose proof (pow2_pos (ln - ld - 1)) as Hc.
  assert (Hupper : q < pow2 (ln - ld + 1)).
  { assert (E : pow2 (ln + 1) == pow2 (ln - ld + 1) * pow2 ld).
    { rewrite <- pow2_plus. by replace (ln - ld + 1 + ld)%Z with (ln + 1)%Z by lia. }
    apply Qnot_le_lt. intros Hge.
    assert (pow2 (ln - ld + 1) * pow2 ld <= q * D).
    { apply Qle_trans with (q * pow2 ld).
      - apply Qmult_le_compat_r; [done | by apply Qlt_le_weak].
      - rewrite !(Qmult_comm q). apply Qmult_le_compat_r;
          [done | by apply Qlt_le_weak]. }
    lra. }
  assert (Hlower : pow2 (ln - ld - 1) < q).
  { assert (E : pow2 ln == pow2 (ln - ld - 1) * pow2 (ld + 1)).
    { rewrite <- pow2_plus. by replace (ln - ld - 1 + (ld + 1))%Z with ln by lia. }
    apply Qnot_le_lt. intros Hge.
    assert (HD : 0 < D) by (pose proof (pow2_pos ld); lra).
    assert (q * D <= pow2 (ln - ld - 1) * D).
    { apply Qmult_le_compat_r; [done | by apply Qlt_le_weak]. }
    assert (pow2 (ln - ld - 1) * D < pow2 (ln - ld - 1) * pow2 (ld + 1)).
    { rewrite !(Qmult_comm (pow2 (ln - ld - 1))).
      by apply Qmult_lt_compat_r. }
    lra. }
  unfold exponent. fold ln ld.
  destruct (Qle_bool (pow2 (ln - ld - 52 + 52)) q) eqn:Hle.
  - apply Qle_bool_iff in Hle. split; [done|].
    by replace (ln - ld - 52 + 53)%Z with (ln - ld + 1)%Z by lia.
  - assert (Hlt : q < pow2 (ln - ld - 52 + 52)).
    { apply Qnot_le_lt. intros H. apply Qle_bool_iff in H. congruence. }
    split.
    + replace (ln - ld - 52 - 1 + 52)%Z with (ln - ld - 1)%Z by lia.
      by apply Qlt_le_weak.
    + by replace (ln - ld - 52 - 1 + 53)%Z with (ln - ld - 52 + 52)%Z by lia.
Qed.

(** Two exponents that fit the same number are the same. *)
Lemma exponent_le (q1 q2 : Q) :
  0 < q1 -> q1 <= q2 -> (exponent q1 <= exponent q2)%Z.
Proof.
  intros H1 Hle.
  destruct (exponent_spec q1 H1) as [Hlo1 _].
  destruct (exponent_spec q2) as [_ Hhi2]; [lra|].
  assert (Hlt : pow2 (exponent q1 + 52) < pow2 (exponent q2 + 53)) by lra.
  apply pow2_lt_inv in Hlt. lia.
Qed.

(** *** Rounding a positive number *)

Lemma pow2_52 : pow2 52 == 4503599627370496.
Proof. reflexivity. Qed.

Lemma pow2_53 : pow2 53 == 9007199254740992.
Proof. reflexivity. Qed.

Lemma scaled_spec (q : Q) :
  0 < q ->
  q == q / pow2 (exponent q) * pow2 (exponent q)
  /\ 4503599627370496 <= q / pow2 (exponent q)
  /\ q / pow2 (exponent q) < 9007199254740992.
Proof.
  intros Hq. destruct (exponent_spec q Hq) as [Hlo Hhi].
  pose proof (pow2_pos (exponent q)) as Hp.
  rewrite pow2_plus in Hlo, Hhi. rewrite pow2_52 in Hlo. rewrite pow2_53 in Hhi.
  split; [|split].
  - field. lra.
  - apply Qle_shift_div_l; [done|]. by rewrite Qmult_comm.
  - apply Qlt_shift_div_r; [done|]. by rewrite Qmult_comm.
Qed.

Lemma significand_spec (q : Q) :
  0 < q ->
  (4503599627370496 <= nearest_even (q / pow2 (exponent q))
   <= 9007199254740992)%Z.
Proof.
  intros Hq. destruct (scaled_spec q Hq) as (_ & Hlo & Hhi).
  split.
  - rewrite <- (nearest_even_Z 4503599627370496).
    by apply nearest_even_mono.
  - rewrite <- (nearest_even_Z 9007199254740992).
    apply nearest_even_mono. by apply Qlt_le_weak.
Qed.

Lemma round_pos_pos (q : Q) : 0 < q -> 0 < round_pos q.
Proof.
  intros Hq. unfold round_pos.
  pose proof (significand_spec q Hq) as [Hlo _].
  pose proof (pow2_pos (exponent q)).
  apply Qmult_lt_0_compat; [|done].
  change 0 with (inject_Z 0). rewrite <- Zlt_Qlt. lia.
Qed.

(** The relative error of a rounding is at most [2^-53]. *)
Lemma round_pos_near (q : Q) :
  0 < q ->
  q * (1 - (1 # 9007199254740992)) <= round_pos q
  /\ round_pos q <= q * (1 + (1 # 9007199254740992)).
Proof.
  intros Hq. destruct (scaled_spec q Hq) as (Hscaled & Hlo & Hhi).
  pose proof (nearest_even_near (q / pow2 (exponent q))) as [Hnlo Hnhi].
  pose proof (pow2_pos (exponent q)) as Hp.
  unfold round_pos.
  set (s := q / pow2 (exponent q)) in *.
  set (m := inject_Z (nearest_even s)) in *.
  set (P := pow2 (exponent q)) in *.
  assert (H1 : s * (1 - (1 # 9007199254740992)) * P <= m * P).
  { apply Qmult_le_compat_r; [lra | by apply Qlt_le_weak]. }
  assert (H2 : m * P <= s * (1 + (1 # 9007199254740992)) * P).
  { apply Qmult_le_compat_r; [lra | by apply Qlt_le_weak]. }
  split.
  - apply Qle_trans with (s * (1 - (1 # 9007199254740992)) * P); [|done].
    rewrite Hscaled at 1. apply Qle_lteq. right. ring.
  - apply Qle_trans with (s * (1 + (1 # 9007199254740992)) * P); [done|].
    rewrite Hscaled at 1. apply Qle_lteq. right. ring.
Qed.

Lemma round_pos_mono (q1 q2 : Q) :
  0 < q1 -> q1 <= q2 -> round_pos q1 <= round_pos q2.
Proof.
  intros H1 Hle. assert (H2 : 0 < q2) by lra.
  pose proof (exponent_le q1 q2 H1 Hle) as He.
  pose proof (significand_spec q1 H1) as [_ Hm1].
  pose proof (significand_spec q2 H2) as [Hm2 _].
  pose proof (pow2_pos (exponent q1)) as Hp1.
  pose proof (pow2_pos (exponent q2)) as Hp2.
  unfold round_pos.
  destruct (Z.eq_dec (exponent q1) (exponent q2)) as [Heq|Hne].
  - rewrite Heq. apply Qmult_le_compat_r; [|by apply Qlt_le_weak].
    rewrite <- Zle_Qle. apply nearest_even_mono.
    rewrite Heq in Hp1.
    apply Qmult_le_compat_r; [done|].
    apply Qlt_le_weak, Qinv_lt_0_compat. done.
  - apply Qle_trans with (pow2 (exponent q1 + 53)).
    + rewrite pow2_plus, pow2_53, (Qmult_comm (pow2 (exponent q1))).
      apply Qmult_le_compat_r; [|by apply Qlt_le_weak].
      change 9007199254740992 with (inject_Z 9007199254740992).
      by rewrite <- Zle_Qle.
    + apply Qle_trans with (pow2 (exponent q2 + 52)).
      * apply pow2_le. lia.
      * rewrite pow2_plus, pow2_52, (Qmult_comm (pow2 (exponent q2))).
        apply Qmult_le_compat_r; [|by apply Qlt_le_weak].
        change 4503599627370496 with (inject_Z 4503599627370496).
        by rewrite <- Zle_Qle.
Qed.

(** *** Rounding *)

Lemma round_positive (q : Q) : 0 < q -> round q = round_pos q.
Proof.
  intros Hq. unfold round. destruct q as [[|n|n] d]; [| done |];
    unfold Qlt in Hq; simpl in Hq; lia.
Qed.

Lemma round_zero (q : Q) : q == 0 -> round q = 0.
Proof.
  intros Hq. unfold round. destruct q as [[|n|n] d]; [done| |];
    unfold Qeq in Hq; simpl in Hq; lia.
Qed.

Lemma round_nonneg (q : Q) : 0 <= q -> 0 <= round q.
Proof.
  intros Hq. destruct (Qlt_le_dec 0 q) as [Hpos|Hzero].
  - rewrite round_positive by done. by apply Qlt_le_weak, round_pos_pos.
  - rewrite round_zero by lra. lra.
Qed.

Lemma round_mono (q1 q2 : Q) : 0 <= q1 -> q1 <= q2 -> round q1 <= round q2.
Proof.
  intros H1 Hle. destruct (Qlt_le_dec 0 q1) as [Hpos|Hzero].
  - rewrite !round_positive by lra. by apply round_pos_mono.
  - rewrite (round_zero q1) by lra. apply round_nonneg. lra.
Qed.

Lemma round_near (q : Q) :
  0 <= q ->
  q * (1 - (1 # 9007199254740992)) <= round q
  /\ round q <= q * (1 + (1 # 9007199254740992)).
Proof.
  intros Hq. destruct (Qlt_le_dec 0 q) as [Hpos|Hzero].
  - rewrite round_positive by done. by apply round_pos_near.
  - rewrite round_zero by lra. lra.
Qed.

Lemma round_1 : round 1 == 1.
Proof. reflexivity. Qed.

Lemma round_100 : round 100 == 100.
Proof. reflexivity. Qed.

End Float64Facts.

(** *** Percentages *)

Lemma div_length_nonneg (a b : nat) :
  (0 < b)%nat ->
  div_length a b = Num (Z.of_nat a # Pos.of_nat b)
  /\ (0 <= Z.of_nat a # Pos.of_nat b)%Q
  /\ ((a <= b)%nat -> (Z.of_nat a # Pos.of_nat b <= 1)%Q)
  /\ ((b <= a)%nat -> (1 <= Z.of_nat a # Pos.of_nat b)%Q).
Proof.
  intros Hb. destruct b as [|b]; [lia|]. split; [done|].
  unfold Qle. cbn [Qnum Qden].
  assert (Z.pos (Pos.of_nat (S b)) = Z.of_nat (S b)) as -> by lia.
  split; [lia|]. split; intros; lia.
Qed.

(** A percentage of two counts is never negative, it is within a relative
    error of [2^-51] of the exact one, at most 100 when the first count is
    at most the second, and at least 100 when it is at least the second. *)
Lemma percentage_spec (a b : nat) :
  (0 < b)%nat ->
  exists x,
    percentage a b = Num x
    /\ (0 <= x)%Q
    /\ ((Z.of_nat a # Pos.of_nat b) * 100 * (1 - (1 # 2251799813685248)) <= x)%Q
    /\ (x <= (Z.of_nat a # Pos.of_nat b) * 100 * (1 + (1 # 2251799813685248)))%Q
    /\ ((a <= b)%nat -> (x <= 100)%Q)
    /\ ((b <= a)%nat -> (100 <= x)%Q).
Proof.
  intros Hb.
  destruct (div_length_nonneg a b Hb) as (Hdiv & Hq & Hle & Hge).
  unfold percentage. rewrite Hdiv.
  set (q := (Z.of_nat a # Pos.of_nat b)%Q) in *.
  pose proof (Float64Facts.round_nonneg q Hq) as H0.
  destruct (Float64Facts.round_near q Hq) as [Hlo1 Hhi1].
  assert (H100 : (0 <= Float64.round q * 100)%Q) by lra.
  destruct (Float64Facts.round_near _ H100) as [Hlo2 Hhi2].
  eexists. split; [reflexivity|].
  split; [by apply Float64Facts.round_nonneg|].
  split; [lra|]. split; [lra|].
  pose proof Float64Facts.round_1 as R1.
  pose proof Float64Facts.round_100 as R100.
  split.
  - intros Hab.
    pose proof (Float64Facts.round_mono q 1 Hq (Hle Hab)) as Hq1.
    assert (Hp : (Float64.round q * 100 <= 100)%Q) by lra.
    pose proof (Float64Facts.round_mono _ 100 H100 Hp). lra.
  - intros Hab.
    assert (H01 : (0 <= 1)%Q) by lra.
    pose proof (Float64Facts.round_mono 1 q H01 (Hge Hab)) as Hq1.
    assert (Hp : (100 <= Float64.round q * 100)%Q) by lra.
    assert (H0100 : (0 <= 100)%Q) by lra.
    pose proof (Float64Facts.round_mono 100 _ H0100 Hp). lra.
Qed.

(** ** Unmodified tokens in the whole translation *)

Lemma countUnmodifiedTokens_spec {uls : ULSData} (t : Tracker)
    (ids : list N) (u total u' total' : nat) :
  countUnmodifiedTokens t ids u total = Some (u', total') ->
  (u <= total)%nat ->
  (u' <= total')%nat /\ (total <= total')%nat
  /\ forall id, id ∈ ids ->
       exists sectionState mtText userText,
         sections t !! id = Some sectionState
         /\ text (unmodifiedMT sectionState) = Some mtText
         /\ text (userTranslation sectionState) = Some userText.
Proof.
  revert u total. induction ids as [|id ids IH]; intros u total; simpl.
  - intros [= <- <-] Hle. split; [done|]. split; [done|].
    intros id Hid. inversion Hid.
  - destruct (sections t !! id) as [st|] eqn:Hst; cbn [mbind option_bind];
      [|done].
    destruct (text (unmodifiedMT st)) as [mtText|] eqn:Hmt;
      cbn [mbind option_bind]; [|done].
    destruct (text (userTranslation st)) as [userText|] eqn:Huser;
      cbn [mbind option_bind]; [|done].
    intros Hrun Hle.
    destruct (IH _ _ Hrun) as (Hle' & Htotal & Hall).
    { pose proof (array_filter_length
                    (fun token => 0 <=? indexOf (tokenise mtText (targetLanguage t))
                                                token)
                    (tokenise userText (targetLanguage t))).
      lia. }
    split; [done|]. split; [lia|].
    intros k Hk. apply elem_of_cons in Hk as [->|Hk]; [|by apply Hall].
    by exists st, mtText, userText.
Qed.



(** ** Sections translated from the source *)

Lemma adjustSectionStateForSourceTranslations_spec {dom : DOM}
    (ids : list N) (t : Tracker) :
  (forall id, id ∈ ids -> is_Some (sections t !! id)) ->
  exists t',
    adjustSectionStateForSourceTranslations t ids = Some t'
    /\ (forall id, is_Some (sections t' !! id) <-> is_Some (sections t !! id))
    /\ (forall id, id ∉ ids -> sections t' !! id = sections t !! id)
    /\ (forall id sectionState,
          id ∈ ids -> sections t !! id = Some sectionState ->
          sections t' !! id
          = Some (setUnmodifiedMT
                    (setCurrentMTProvider sectionState (Some (lit "source")))
                    (html (source sectionState)))).
Proof.
  revert t. induction ids as [|id ids IH]; intros t Hall; simpl.
  - exists t. split; [done|]. split; [done|]. split; [done|].
    intros id st Hid. inversion Hid.
  - destruct (Hall id) as [st Hst]; [left|]. rewrite Hst.
    cbn [mbind option_bind].
    set (st1 := setUnmodifiedMT _ _).
    set (t1 := with_sections t (<[id := st1]> (sections t))).
    destruct (IH t1) as (t' & Hrun & Hdom & Hother & Hlisted).
    { intros k Hk. subst t1. cbn [sections with_sections].
      destruct (decide (k = id)) as [->|Hne].
      - rewrite lookup_insert_eq. by eexists.
      - rewrite lookup_insert_ne by done. apply Hall. by right. }
    exists t'. split; [done|]. split; [|split].
    + intros k. rewrite Hdom. subst t1. cbn [sections with_sections].
      destruct (decide (k = id)) as [->|Hne].
      * rewrite lookup_insert_eq, Hst. by split; eexists.
      * by rewrite lookup_insert_ne.
    + intros k Hk. apply not_elem_of_cons in Hk as [Hne Hk].
      rewrite Hother by done. subst t1. cbn [sections with_sections].
      by rewrite lookup_insert_ne.
    + intros k s Hk Hs.
      destruct (decide (k ∈ ids)) as [Hin|Hout].
      * destruct (decide (k = id)) as [->|Hne].
        -- rewrite (Hlisted id st1 Hin)
             by (subst t1; cbn [sections with_sections];
                 apply lookup_insert_eq).
           rewrite Hst in Hs. injection Hs as <-. subst st1. done.
        -- apply Hlisted; [done|]. subst t1. cbn [sections with_sections].
           by rewrite lookup_insert_ne.
      * apply elem_of_cons in Hk as [->|Hk]; [|done].
        rewrite Hother by done. subst t1. cbn [sections with_sections].
        rewrite lookup_insert_eq. rewrite Hst in Hs. by injection Hs as <-.
Qed.

(** X21: [adjustSectionStateForSourceTranslations] raises exactly when a
    listed section has no state. Otherwise every listed section gets the
    provider 'source' and its source HTML as unmodified MT, so that it is
    validated against the 0.6 threshold, and the other sections keep their
    states. *)
Theorem adjustSectionStateForSourceTranslations_source {dom : DOM}
    (ids : list N) (t : Tracker) :
  (is_Some (adjustSectionStateForSourceTranslations t ids)
   <-> forall id, id ∈ ids -> is_Some (sections t !! id))
  /\ forall t',
       adjustSectionStateForSourceTranslations t ids = Some t' ->
       (forall id, id ∉ ids -> sections t' !! id = sections t !! id)
       /\ forall id sectionState,
            id ∈ ids -> sections t !! id = Some sectionState ->
            exists sectionState',
              sections t' !! id = Some sectionState'
              /\ currentProvider sectionState' = Some (lit "source")
              /\ unmodifiedMT sectionState'
                 = content_of (html (source sectionState))
              /\ userTranslation sectionState' = userTranslation sectionState
              /\ getMTThresholdForSection sectionState' = Num (6 # 10).
Proof.
  assert (Hneeds : forall ids t,
            is_Some (adjustSectionStateForSourceTranslations t ids) ->
            forall id, id ∈ ids -> is_Some (sections t !! id)).
  { clear. intros ids. induction ids as [|k ids IH]; intros t Hsome id Hid.
    - inversion Hid.
    - simpl in Hsome.
      destruct (sections t !! k) as [st|] eqn:Hst; cbn [mbind option_bind] in Hsome;
        [|by destruct Hsome].
      apply elem_of_cons in Hid as [->|Hid]; [by eexists|].
      specialize (IH _ Hsome id Hid). cbn [sections with_sections] in IH.
      destruct (decide (id = k)) as [->|Hne]; [by eexists|].
      by rewrite lookup_insert_ne in IH. }
  split.
  - split; [apply Hneeds|]. intros Hall.
    destruct (adjustSectionStateForSourceTranslations_spec ids t Hall)
      as (t' & -> & _). by eexists.
  - intros t' Hrun.
    destruct (adjustSectionStateForSourceTranslations_spec ids t)
      as (t1 & Hrun1 & _ & Hother & Hlisted).
    { apply Hneeds. rewrite Hrun. by eexists. }
    rewrite Hrun in Hrun1. injection Hrun1 as <-.
    split; [done|]. intros id st Hid Hst.
    eexists. split; [by apply Hlisted|].
    split; [done|]. split; [done|]. split; [done|].
    unfold getMTThresholdForSection. cbn. by rewrite decide_True.
Qed.

Lemma adjustSectionStateForSourceTranslations_source_witness :
  exists t',
    adjustSectionStateForSourceTranslations (dom := Sample.dom)
      (Sample.tracker
         [Sample.state 5 Sample.ten_words (Some (lit "Google")) (Num 1);
          Sample.state 6 Sample.ten_words (Some (lit "Google")) (Num 1)]
         []) [6%N] = Some t'
    /\ sections t' !! 5%N
       = Some (Sample.state 5 Sample.ten_words (Some (lit "Google")) (Num 1)).
Proof.
  set (t := Sample.tracker _ _).
  destruct (adjustSectionStateForSourceTranslations (dom := Sample.dom) t [6%N])
    as [t'|] eqn:Hrun; [|vm_compute in Hrun; discriminate Hrun].
  exists t'. split; [reflexivity|].
  rewrite (proj1 (proj2 (adjustSectionStateForSourceTranslations_source
                           (dom := Sample.dom) [6%N] t) t' Hrun) 5%N).
  - reflexivity.
  - intros Hin. apply list_elem_of_singleton in Hin. discriminate Hin.
Defined.

(** ** Progress and validation together *)

(** X22: once its progress is recomputed, a section whose user translation
    is word for word its unmodified MT is flagged, whatever its provider,
    provided its source has at least ten tokens; and a section whose user
    translation is blank is not flagged. *)
Theorem updateSectionProgress_then_validate {uls : ULSData}
    (t : Tracker) (n : N) (sectionState : SectionState)
    (sourceText : jsstring) :
  sections t !! n = Some sectionState ->
  text (source sectionState) = Some sourceText ->
  exists t',
    updateSectionProgress t n = Some t'
    /\ (forall s,
          s ≠ [] ->
          text (unmodifiedMT sectionState) = Some s ->
          text (userTranslation sectionState) = Some s ->
          (10 <= length (tokenise sourceText (sourceLanguage t)))%nat ->
          validateForMTAbuse t' n = Some true)
    /\ (text (userTranslation sectionState) = Some [] ->
        validateForMTAbuse t' n = Some false).
Proof.
  intros Hstate Hsource.
  destruct (updateSectionProgress_derived t n sectionState Hstate)
    as (st' & Hrun & _ & Huser & Hmt & Hsrc & _ & Hpct & _).
  eexists. split; [exact Hrun|].
  assert (Hvalidate :
            validateForMTAbuse
              (with_sections t (<[n := st']> (sections t))) n
            = if (length (tokenise sourceText (sourceLanguage t)) <? 10)%nat
              then Some false
              else Some (num_gt (unmodifiedPercentage st')
                                (getMTThresholdForSection st'))).
  { apply (validateForMTAbuse_unfold
             (with_sections t (<[n := st']> (sections t))) n st' sourceText).
    - apply lookup_insert_eq.
    - by rewrite Hsrc. }
  rewrite Hvalidate, Hpct, Hmt, Huser. split.
  - intros s Hs Hmts Husers Hlen. rewrite Hmts, Husers.
    destruct (Nat.ltb_spec (length (tokenise sourceText (sourceLanguage t))) 10);
      [lia|].
    rewrite calculateUnmodifiedContent_same by done.
    unfold getMTThresholdForSection. by case_decide.
  - intros ->. destruct (_ <? _)%nat; [done|].
    assert (calculateUnmodifiedContent (text (unmodifiedMT sectionState))
              (Some []) (targetLanguage t) = Num 0) as ->.
    { unfold calculateUnmodifiedContent.
      by destruct (text (unmodifiedMT sectionState)) as [[|? ?]|]. }
    unfold getMTThresholdForSection. by case_decide.
Qed.

Lemma updateSectionProgress_then_validate_witness :
  exists t',
    updateSectionProgress (uls := Sample.uls)
      (Sample.tracker
         [Sample.state 5 Sample.ten_words (Some (lit "Google")) (Num 0)] [])
      5 = Some t'
    /\ validateForMTAbuse (uls := Sample.uls) t' 5 = Some true.
Proof.
  destruct (updateSectionProgress_then_validate (uls := Sample.uls)
              (Sample.tracker
                 [Sample.state 5 Sample.ten_words (Some (lit "Google")) (Num 0)]
                 [])
              5 (Sample.state 5 Sample.ten_words (Some (lit "Google")) (Num 0))
              Sample.ten_words eq_refl eq_refl)
    as (t' & Hrun & Hflag & _).
  exists t'. split; [exact Hrun|].
  apply (Hflag Sample.ten_words).
  - discriminate.
  - reflexivity.
  - reflexivity.
  - vm_compute. lia.
Defined.

(** ** The earlier variant *)

(** X23: the earlier variant has one threshold for every provider: a section
    is flagged exactly when its source has at least ten tokens and its
    unmodified percentage exceeds 0.75. What the current variant flags
    under an MT provider the earlier one flags too, while text copied from
    the source and unmodified at 0.7 is flagged by the current variant
    only. *)
Theorem legacy_validateForMTAbuse_threshold {uls : ULSData}
    (t : Tracker) (n : N) (sectionState : SectionState)
    (sourceText : jsstring) :
  sections t !! n = Some sectionState ->
  text (source sectionState) = Some sourceText ->
  Legacy.validateForMTAbuse t n
  = Some ((10 <=? length (tokenise sourceText (sourceLanguage t)))%nat
          && num_gt (unmodifiedPercentage sectionState) (Num (75 # 100)))
  /\ (currentProvider sectionState ≠ Some (lit "source") ->
      validateForMTAbuse t n = Some true ->
      Legacy.validateForMTAbuse t n = Some true)
  /\ (currentProvider sectionState = Some (lit "source") ->
      unmodifiedPercentage sectionState = Num (7 # 10) ->
      (10 <= length (tokenise sourceText (sourceLanguage t)))%nat ->
      validateForMTAbuse t n = Some true
      /\ Legacy.validateForMTAbuse t n = Some false).
Proof.
  intros Hstate Hsource.
  rewrite (validateForMTAbuse_unfold t n sectionState sourceText) by done.
  unfold Legacy.validateForMTAbuse, Legacy.unmodifiedMTThreshold.
  rewrite Hstate. cbn [mbind option_bind]. rewrite Hsource.
  cbn [mbind option_bind].
  destruct (Nat.ltb_spec (length (tokenise sourceText (sourceLanguage t))) 10)
    as [Hshort|Hlong].
  - rewrite (proj2 (Nat.leb_gt _ _)) by lia.
    split; [done|]. split; [done|]. intros; lia.
  - rewrite (proj2 (Nat.leb_le _ _)) by lia.
    split; [done|]. split.
    + intros Hmt. unfold getMTThresholdForSection. rewrite decide_False by done.
      intros [= Hflag]. f_equal.
      eapply num_gt_weaken; [|exact Hflag]. unfold Qle. simpl. lia.
    + intros Hsrc -> _. unfold getMTThresholdForSection.
      by rewrite decide_True.
Qed.

Lemma legacy_validateForMTAbuse_threshold_witness :
  Legacy.validateForMTAbuse (uls := Sample.uls)
    (Sample.tracker
       [Sample.state 5 Sample.ten_words (Some (lit "source")) (Num (7 # 10))]
       []) 5
  = Some false
  /\ validateForMTAbuse (uls := Sample.uls)
       (Sample.tracker
          [Sample.state 5 Sample.ten_words (Some (lit "source")) (Num (7 # 10))]
          []) 5
     = Some true.
Proof.
  destruct (legacy_validateForMTAbuse_threshold (uls := Sample.uls)
              (Sample.tracker
                 [Sample.state 5 Sample.ten_words (Some (lit "source"))
                    (Num (7 # 10))] [])
              5
              (Sample.state 5 Sample.ten_words (Some (lit "source"))
                 (Num (7 # 10)))
              Sample.ten_words eq_refl eq_refl)
    as (_ & _ & Hdiffer).
  destruct Hdiffer as [Hcurrent Hlegacy];
    [reflexivity | reflexivity | vm_compute; lia |].
  by split.
Defined.

(** X24: in the earlier variant a change event that brings no new content
    is dropped: with the provider unchanged, a baseline stored and the
    node's content equal to the stored user translation, the tracker is
    left exactly as it was. *)
Theorem legacy_processSectionChange_unchanged
    {uls : ULSData} {dom : DOM} {ve : VETarget}
    (t : Tracker) (n : N) (sectionState : SectionState)
    (origin : option jsstring) (content child : jsstring) :
  getTargetSectionNodeFromSectionNumber n
  = Some (CXSectionNode origin content child) ->
  sections t !! n = Some sectionState ->
  currentProvider sectionState = origin ->
  falsy (html (unmodifiedMT sectionState)) = false ->
  html (userTranslation sectionState) = Some content ->
  Legacy.processSectionChange t n = Some t.
Proof.
  intros Hnode Hstate Hsame Hbase Huser. unfold Legacy.processSectionChange.
  rewrite Hnode, Hstate. cbn [mbind option_bind].
  unfold detectProviderChange. rewrite decide_False by (intros Hne; done).
  cbn [unmodifiedMT userTranslation]. rewrite Hbase, Huser.
  rewrite decide_False by (intros Hne; done).
  f_equal. rewrite insert_id by done. by destruct t.
Qed.

Lemma legacy_processSectionChange_unchanged_witness :
  Legacy.processSectionChange (uls := Sample.uls) (dom := Sample.dom)
    (ve := Sample.target)
    (Sample.tracker
       [Sample.state 6 Sample.ten_words (Some (lit "Google")) (Num 1)] [])
    6
  = Some (Sample.tracker
            [Sample.state 6 Sample.ten_words (Some (lit "Google")) (Num 1)] []).
Proof.
  apply (legacy_processSectionChange_unchanged (uls := Sample.uls)
           (dom := Sample.dom) (ve := Sample.target) _ 6
           (Sample.state 6 Sample.ten_words (Some (lit "Google")) (Num 1))
           (Some (lit "Google")) Sample.ten_words (lit "paragraph"));
    reflexivity.
Defined.

Section LegacyFacts.
Context {uls : ULSData} {dom : DOM} {ve : VETarget}.

Lemma legacy_validate_spec (t t' : Tracker) (n : N)
    (sectionModel : option TargetNode) :
  Legacy.validate t n sectionModel = Some t' ->
  sections t' = sections t
  /\ validationDelayQueue t' = validationDelayQueue t
  /\ exists e, events t' = events t ++ [e] /\ mtAbuseEvent n e.
Proof.
  unfold Legacy.validate.
  destruct (Legacy.validateForMTAbuse t n) as [[|]|];
    cbn [mbind option_bind]; [| |done].
  - unfold setMTAbuseWarning.
    destruct sectionModel as [[? ? ?|]|]; [|done|done].
    destruct (sections t !! n); cbn [mbind option_bind]; [|done].
    intros [= <-]. split; [done|]. split; [done|].
    eexists. split; [done|]. by left.
  - unfold Legacy.clearMTAbuseWarning.
    destruct sectionModel as [[? ? ?|]|]; [|done|done].
    intros [= <-]. split; [done|]. split; [done|].
    eexists. split; [done|]. by right.
Qed.

Lemma legacy_processValidationQueue_spec (i : nat) (t t' : Tracker) :
  length (validationDelayQueue t) = i ->
  Legacy.processValidationQueue_loop i t = Some t' ->
  sections t' = sections t
  /\ validationDelayQueue t' = []
  /\ exists evs, events t' = events t ++ evs.
Proof.
  revert t. induction i as [|i IH]; intros t Hlen; simpl.
  - intros [= <-]. apply nil_length_inv in Hlen.
    split; [done|]. split; [done|]. exists []. by rewrite app_nil_r.
  - unfold Legacy.processValidationQueue_body.
    destruct (lookup_lt_is_Some_2 (validationDelayQueue t) i) as [m Hm]; [lia|].
    rewrite Hm. cbn [mbind option_bind].
    destruct (Legacy.validate t m _) as [t1|] eqn:Hcheck;
      cbn [mbind option_bind]; [|done].
    intros Hloop.
    destruct (legacy_validate_spec _ _ _ _ Hcheck) as (Hs1 & Hq1 & e & He & _).
    assert (Hlen1 : length (validationDelayQueue
                              (with_validationDelayQueue t1
                                 (splice1 i (validationDelayQueue t1)))) = i).
    { cbn [validationDelayQueue with_validationDelayQueue]. unfold splice1.
      rewrite Hq1. rewrite length_delete by (by eexists). lia. }
    destruct (IH _ Hlen1 Hloop) as (Hs & Hq & evs & Hev).
    cbn [sections events with_validationDelayQueue] in Hs, Hev.
    split; [congruence|]. split; [done|].
    exists (e :: evs). rewrite Hev, He. by rewrite <- app_assoc.
Qed.

End LegacyFacts.

(** X25: in the earlier variant an edit that keeps the provider is validated
    at once: when the call returns, the first thing it has told the editor
    is the MT-abuse warning of this section or its resolution, and the
    validation queue is empty. *)
Theorem legacy_processSectionChange_immediate
    {uls : ULSData} {dom : DOM} {ve : VETarget}
    (t t' : Tracker) (n : N) (sectionState : SectionState)
    (origin : option jsstring) (content child : jsstring) :
  getTargetSectionNodeFromSectionNumber n
  = Some (CXSectionNode origin content child) ->
  sections t !! n = Some sectionState ->
  currentProvider sectionState = origin ->
  html (userTranslation sectionState) ≠ Some content ->
  Legacy.processSectionChange t n = Some t' ->
  validationDelayQueue t' = []
  /\ exists e evs, events t' = events t ++ e :: evs /\ mtAbuseEvent n e.
Proof.
  intros Hnode Hstate Hsame Hnew. unfold Legacy.processSectionChange.
  rewrite Hnode, Hstate. cbn [mbind option_bind].
  unfold detectProviderChange. rewrite decide_False by (intros Hne; done).
  cbn [userTranslation unmodifiedMT].
  rewrite decide_True by (intros E; by rewrite <- E in Hnew).
  match goal with
  | |- context [updateSectionProgress ?t0 n] =>
      edestruct (updateSectionProgress_derived t0 n) as (st' & Hupdate & _);
        [apply lookup_insert_eq|]
  end.
  rewrite Hupdate. cbn [mbind option_bind].
  destruct (Legacy.validate _ n _) as [t2|] eqn:Hcheck;
    cbn [mbind option_bind]; [|done].
  destruct (legacy_validate_spec _ _ _ _ Hcheck) as (_ & _ & e & He & Hmt).
  cbn [events with_sections] in He.
  intros Hflush.
  destruct (legacy_processValidationQueue_spec _ t2 t' eq_refl Hflush)
    as (_ & Hq & evs & Hev).
  split; [done|]. exists e, evs. split; [|done].
  rewrite Hev, He. by rewrite <- app_assoc.
Qed.

Lemma legacy_processSectionChange_immediate_witness :
  events <$> Legacy.processSectionChange (uls := Sample.uls)
    (dom := Sample.dom) (ve := Fixture.target)
    (Sample.tracker
       [Sample.state 5 Sample.ten_words (Some (lit "Google")) (Num 1)] [])
    5
  = Some [ResolveTranslationIssues 5 (lit "mt-abuse")].
Proof.
  set (t := Sample.tracker _ _).
  destruct (Legacy.processSectionChange (uls := Sample.uls)
              (dom := Sample.dom) (ve := Fixture.target) t 5)
    as [t'|] eqn:Hrun; [|vm_compute in Hrun; discriminate Hrun].
  destruct (legacy_processSectionChange_immediate (uls := Sample.uls)
              (dom := Sample.dom) (ve := Fixture.target) t t' 5
              (Sample.state 5 Sample.ten_words (Some (lit "Google")) (Num 1))
              (Some (lit "Google")) Fixture.edited_words (lit "paragraph")
              eq_refl eq_refl eq_refl)
    as (_ & e & evs & Hev & _); [discriminate | exact Hrun |].
  vm_compute in Hrun. injection Hrun as <-. reflexivity.
Defined.

(** ** The translation column *)

(** X26: [calculateCompletion] fires NaN when both columns are empty and a
    percentage between 0 and 100 otherwise: 100 as soon as the translation
    is as long as the source, an empty source included, and, when it is
    shorter, the ratio of the lengths times 100 as the machine rounds it,
    within a relative error of 2^-51 of the exact value (29 of 100 give
    28.999999999999996). *)
Theorem calculateCompletion_range (translationLength sourceLength : nat) :
  (translationLength = 0%nat -> sourceLength = 0%nat ->
     TranslationColumn.calculateCompletion translationLength sourceLength = NaN)
  /\ ((0 < translationLength + sourceLength)%nat ->
      between 0 100
        (TranslationColumn.calculateCompletion translationLength sourceLength)
      = true)
  /\ ((0 < translationLength)%nat -> (sourceLength <= translationLength)%nat ->
      num_eq
        (TranslationColumn.calculateCompletion translationLength sourceLength)
        (Num 100) = true)
  /\ ((translationLength < sourceLength)%nat ->
      exists x,
        TranslationColumn.calculateCompletion translationLength sourceLength
        = Num x
        /\ ((Z.of_nat translationLength # Pos.of_nat sourceLength) * 100
            * (1 - (1 # 2251799813685248)) <= x)%Q
        /\ (x <= (Z.of_nat translationLength # Pos.of_nat sourceLength) * 100
                 * (1 + (1 # 2251799813685248)))%Q).
Proof.
  unfold TranslationColumn.calculateCompletion.
  destruct sourceLength as [|s].
  - destruct translationLength as [|l]; simpl.
    + split; [done|]. split; [lia|]. split; lia.
    + split; [done|]. split; [done|]. split; [done | lia].
  - destruct (percentage_spec translationLength (S s))
      as (x & -> & H0 & Hlo & Hhi & Hshort & Hlong); [lia|].
    unfold num_gt. destruct (Qle_bool x 100) eqn:Hle; cbn [negb].
    + apply Qle_bool_iff in Hle as Hle'.
      split; [done|]. split; [|split].
      * intros _. cbn [between]. rewrite Hle, andb_true_r.
        by apply Qle_bool_iff.
      * intros Hpos Hge. cbn [num_eq]. apply Qeq_bool_iff.
        apply Qle_antisym; [done | by apply Hlong].
      * intros _. by exists x.
    + split; [done|]. split; [done|]. split; [done|].
      intros Hlt.
      assert (Qle_bool x 100 = true) as E
        by (apply Qle_bool_iff, Hshort; lia).
      congruence.
Qed.

Lemma calculateCompletion_range_witness :
  TranslationColumn.calculateCompletion 0 0 = NaN
  /\ num_eq (TranslationColumn.calculateCompletion 7 0) (Num 100) = true
  /\ num_eq (TranslationColumn.calculateCompletion 1 4) (Num 25) = true
  /\ num_eq (TranslationColumn.calculateCompletion 29 100)
       (Num (8162774324609023 # 281474976710656)) = true
  /\ between 0 100 (TranslationColumn.calculateCompletion 29 100) = true.
Proof.
  split; [|split; [|split; [|split]]].
  - exact (proj1 (calculateCompletion_range 0 0) eq_refl eq_refl).
  - refine (proj1 (proj2 (proj2 (calculateCompletion_range 7 0))) _ _); lia.
  - vm_compute. reflexivity.
  - vm_compute. reflexivity.
  - refine (proj1 (proj2 (calculateCompletion_range 29 100)) _). lia.
Defined.

(** X27: [jquerySelectorForId] returns a selector jQuery accepts, or its
    random fallback. For a non-empty id whose escaped form is accepted it is
    '#', the prefix and the escaped id; without an id it is the fallback,
    and the fallback of a call without prefix spells out 'undefined'. *)
Theorem jquerySelectorForId_spec (random : N) (accepted : jsstring -> bool)
    (id prefix : option jsstring) :
  (accepted (TranslationColumn.jquerySelectorForId random accepted id prefix)
   = true
   \/ TranslationColumn.jquerySelectorForId random accepted id prefix
      = TranslationColumn.hash_plus prefix ++ TranslationColumn.decimal random)
  /\ (forall s,
        id = Some s -> s ≠ [] ->
        accepted (lit "#" ++ default [] prefix
                  ++ TranslationColumn.escapeSelector s) = true ->
        TranslationColumn.jquerySelectorForId random accepted id prefix
        = lit "#" ++ default [] prefix ++ TranslationColumn.escapeSelector s)
  /\ (falsy id = true ->
      TranslationColumn.jquerySelectorForId random accepted id prefix
      = TranslationColumn.hash_plus prefix ++ TranslationColumn.decimal random)
  /\ (falsy id = true -> prefix = None ->
      TranslationColumn.jquerySelectorForId random accepted id prefix
      = lit "#undefined" ++ TranslationColumn.decimal random).
Proof.
  unfold TranslationColumn.jquerySelectorForId.
  split; [|split; [|split]].
  - match goal with
    | |- context [if accepted ?selector then _ else _] =>
        destruct (accepted selector) eqn:Hacc; [by left | by right]
    end.
  - intros s -> Hs Hacc. destruct s as [|c s]; [done|].
    assert ((if falsy prefix then [] else default [] prefix)
            = default [] prefix) as ->
      by (by destruct prefix as [[|? ?]|]).
    change (falsy (Some (c :: s))) with false.
    change (default [] (Some (c :: s))) with (c :: s).
    cbv iota. by rewrite Hacc.
  - intros ->. by destruct (accepted _).
  - intros Hid ->. rewrite Hid. by destruct (accepted _).
Qed.

Lemma jquerySelectorForId_spec_witness :
  TranslationColumn.jquerySelectorForId 42 (fun _ => true)
    (Some (lit "mw.a:1")) (Some (lit "cx"))
  = lit "#cxmw\.a\:1"
  /\ TranslationColumn.jquerySelectorForId 42 (fun _ => true) None None
     = lit "#undefined42".
Proof.
  split.
  - refine (eq_trans
              (proj1 (proj2 (jquerySelectorForId_spec 42 (fun _ => true)
                               (Some (lit "mw.a:1")) (Some (lit "cx"))))
                 (lit "mw.a:1") eq_refl _ eq_refl) _);
      [discriminate | reflexivity].
  - exact (proj2 (proj2 (proj2 (jquerySelectorForId_spec 42 (fun _ => true)
                                  None None))) eq_refl eq_refl).
Defined.

Lemma escapeSelector_nil (s : jsstring) :
  TranslationColumn.escapeSelector s = [] -> s = [].
Proof.
  destruct s as [|c s]; [done|]. simpl.
  by destruct (TranslationColumn.isSelectorSpecial c).
Qed.

Lemma escapeSelector_head (s : jsstring) (c : char16) (rest : jsstring) :
  TranslationColumn.escapeSelector s = c :: rest ->
  TranslationColumn.isSelectorSpecial c = false.
Proof.
  destruct s as [|d s]; [done|]. simpl.
  destruct (TranslationColumn.isSelectorSpecial d) eqn:Hd.
  - by intros [= <- _].
  - by intros [= <- _].
Qed.

(** X28: escaping loses nothing: two ids with the same escaped form are the
    same id, and the escaped form is longer than the id by the number of
    its characters [:], [/], [.], [[] and []]. *)
Theorem escapeSelector_injective (s1 s2 : jsstring) :
  (TranslationColumn.escapeSelector s1 = TranslationColumn.escapeSelector s2 ->
   s1 = s2)
  /\ length (TranslationColumn.escapeSelector s1)
     = (length s1
        + length (List.filter TranslationColumn.isSelectorSpecial s1))%nat.
Proof.
  split.
  - revert s2. induction s1 as [|c1 r1 IH]; intros s2; simpl.
    + intros E. symmetry in E. by apply escapeSelector_nil in E.
    + destruct s2 as [|c2 r2]; simpl.
      { by destruct (TranslationColumn.isSelectorSpecial c1). }
      destruct (TranslationColumn.isSelectorSpecial c1) eqn:H1,
               (TranslationColumn.isSelectorSpecial c2) eqn:H2.
      * intros [= -> E]. f_equal. by apply IH.
      * intros [= <- E]. symmetry in E.
        apply escapeSelector_head in E. congruence.
      * intros [= -> E]. apply escapeSelector_head in E. congruence.
      * intros [= -> E]. f_equal. by apply IH.
  - induction s1 as [|c r IH]; simpl; [done|].
    destruct (TranslationColumn.isSelectorSpecial c); simpl; rewrite IH; lia.
Qed.

Lemma escapeSelector_injective_witness :
  length (TranslationColumn.escapeSelector (lit "a.b[0]")) = 9%nat
  /\ lit "a.b" = lit "a.b".
Proof.
  split.
  - rewrite (proj2 (escapeSelector_injective (lit "a.b[0]") [])). reflexivity.
  - apply (escapeSelector_injective (lit "a.b") (lit "a.b")). reflexivity.
Defined.

(** X29: in a browser that renders an element as high as its content, or as
    its min-height when that is more, [keepAlignment] on an element that is
    neither a table nor a figure aligns it with its source without a single
    10px step: it sets the min-height of the shorter of the two, if there is
    one, and afterwards source and translation render equally high; nothing
    is tracked. On a figure whose source and translation have no caption it
    only clears the min-height of the source. *)
Theorem keepAlignment_ideal (fuel : nat) (this : Alignment.TargetSection) :
  (1 <= fuel)%nat ->
  (forall sourceNatural sectionNatural,
     Alignment.tagName this ≠ lit "TABLE" ->
     Alignment.tagName this ≠ lit "FIGURE" ->
     Alignment.rendering (Alignment.elements this)
     = Alignment.ideal sourceNatural sectionNatural ->
     exists outcome,
       Alignment.keepAlignment fuel this = Some outcome
       /\ Alignment.final_steps outcome = 0
       /\ Alignment.matched (Alignment.ideal sourceNatural sectionNatural)
            (Alignment.final_css outcome)
       /\ (Alignment.Track ∉ Alignment.final_effects outcome)
       /\ (length (Alignment.final_effects outcome) <= 2)%nat)
  /\ (forall empty,
        Alignment.tagName this = lit "FIGURE" ->
        empty = Alignment.Null \/ empty = Alignment.Undefined ->
        Alignment.rendering (Alignment.figcaptions this)
        = Alignment.absent empty ->
        Alignment.keepAlignment fuel this
        = Some {| Alignment.final_css :=
                    {| Alignment.sourceMinHeight := None;
                       Alignment.sectionMinHeight :=
                         Alignment.sectionMinHeight
                           (Alignment.css (Alignment.figcaptions this)) |};
                  Alignment.final_effects := [Alignment.ClearSourceMinHeight];
                  Alignment.final_steps := 0 |}).
Proof.
  intros Hfuel. split.
  - intros sourceNatural sectionNatural Htable Hfigure Hideal.
    unfold Alignment.keepAlignment.
    rewrite !decide_False by done. rewrite Hideal.
    destruct fuel as [|fuel]; [lia|].
    cbn [Alignment.ideal Alignment.sourceHeightOf Alignment.sectionHeightOf
         Alignment.sourceMinHeight Alignment.sectionMinHeight default
         from_option id Alignment.lt Alignment.set_css].
    set (m := from_option id 0 _).
    destruct (Z.ltb_spec (Z.max sourceNatural 0) (Z.max sectionNatural m))
      as [Hshort|Hnot].
    + cbn [Alignment.while_loop]. unfold Alignment.while_turn.
      cbn [Alignment.sectionHeight Alignment.sourceSectionHeight
           Alignment.strict_neq].
      destruct (Z.eqb_spec (Z.max sectionNatural m)
                  (Z.max sourceNatural (Z.max sectionNatural m)))
        as [_|Hne]; [|lia].
      cbn [negb mbind option_bind]. eexists. split; [reflexivity|].
      unfold Alignment.matched.
      cbn [Alignment.final_steps Alignment.final_css Alignment.final_effects
           Alignment.steps Alignment.styles Alignment.effects
           Alignment.sourceHeightOf Alignment.sectionHeightOf
           Alignment.sourceMinHeight Alignment.sectionMinHeight
           from_option id Alignment.strict_neq app length].
      fold m. split; [done|]. split.
      { simpl. try fold m. apply negb_false_iff, Z.eqb_eq. lia. }
      split; [|lia].
      intros Hin. apply elem_of_cons in Hin as [?|Hin]; [done|].
      apply elem_of_cons in Hin as [?|Hin]; [done|]. inversion Hin.
    + destruct (Z.ltb_spec (Z.max sectionNatural m) (Z.max sourceNatural 0))
        as [Htall|Hsame].
      * eexists. split; [reflexivity|]. unfold Alignment.matched.
        cbn [Alignment.final_steps Alignment.final_css Alignment.final_effects
             Alignment.sourceHeightOf Alignment.sectionHeightOf
             Alignment.sourceMinHeight Alignment.sectionMinHeight
             from_option id Alignment.strict_neq app length].
        split; [done|]. split.
        { simpl. try fold m. apply negb_false_iff, Z.eqb_eq. lia. }
        split; [|lia].
        intros Hin. apply elem_of_cons in Hin as [?|Hin]; [done|].
        apply elem_of_cons in Hin as [?|Hin]; [done|]. inversion Hin.
      * eexists. split; [reflexivity|]. unfold Alignment.matched.
        cbn [Alignment.final_steps Alignment.final_css Alignment.final_effects
             Alignment.sourceHeightOf Alignment.sectionHeightOf
             Alignment.sourceMinHeight Alignment.sectionMinHeight
             from_option id Alignment.strict_neq app length].
        fold m. split; [done|]. split.
        { simpl. try fold m. apply negb_false_iff, Z.eqb_eq. lia. }
        split; [|lia].
        intros Hin. apply elem_of_cons in Hin as [?|Hin]; [done|].
        inversion Hin.
  - intros empty Hfigure Hempty Habsent. unfold Alignment.keepAlignment.
    rewrite decide_False by (rewrite Hfigure; discriminate).
    rewrite decide_True by done. rewrite Habsent.
    by destruct Hempty as [-> | ->].
Qed.

Lemma keepAlignment_ideal_witness :
  (exists outcome,
     Alignment.keepAlignment 1 (Alignment.paragraph (Alignment.ideal 70 100))
     = Some outcome
     /\ Alignment.final_steps outcome = 0
     /\ Alignment.final_css outcome
        = {| Alignment.sourceMinHeight := Some 100;
             Alignment.sectionMinHeight := None |})
  /\ Alignment.keepAlignment 1
       (Alignment.figure (Alignment.ideal 100 70)
          (Alignment.absent Alignment.Undefined))
     = Some {| Alignment.final_css := Alignment.unset;
               Alignment.final_effects := [Alignment.ClearSourceMinHeight];
               Alignment.final_steps := 0 |}.
Proof.
  assert (Hfuel : (1 <= 1)%nat) by lia.
  split.
  - destruct (proj1 (keepAlignment_ideal 1
                       (Alignment.paragraph (Alignment.ideal 70 100)) Hfuel)
                70 100)
      as (outcome & Hrun & Hsteps & _); [discriminate | discriminate
                                         | reflexivity |].
    exists outcome. split; [exact Hrun|]. split; [exact Hsteps|].
    vm_compute in Hrun. by injection Hrun as <-.
  - exact (proj2 (keepAlignment_ideal 1
                    (Alignment.figure (Alignment.ideal 100 70)
                       (Alignment.absent Alignment.Undefined)) Hfuel)
             Alignment.Undefined eq_refl (or_intror eq_refl) eq_refl).
Defined.
